(** * haev-revalidate: the admin back office, its product routes and the
      storefront revalidation notifier

    A shallow embedding of the TypeScript sources:

    - the [generateSlug] helpers of the category form and of the product
      edit form;
    - [revalidateCustomerApp] and [getProductRelatedPaths]
      (lib/revalidateCustomerApp);
    - the route handlers [POST] of api/products/create,
      api/products/update and api/categories/delete, with the zod schemas
      they validate against.

    Route handlers are written in a state-and-exception monad over a
    [World]: the process environment, the database behind the Supabase
    client, the outcomes the network will give, and three observation logs
    (statements sent to the database, payloads handed to the notifier,
    HTTP requests sent, console lines).  *)

From Stdlib Require Import Ascii String QArith Qcanon Qround Lia.
From stdpp Require Import base numbers list strings gmap pretty.

Open Scope string_scope.
Open Scope list_scope.

(* ===================================================================== *)
(** * JavaScript strings and values *)
(* ===================================================================== *)

Module Js.

(** A JavaScript string is a sequence of UTF-16 code units.  A [string]
    here is a sequence of code units below 256 (the Latin-1 range), which
    covers every character class the sources test for; [ascii] is read as
    such a code unit. *)
Definition code (c : ascii) : nat := nat_of_ascii c.

Definition between (lo hi : nat) (c : ascii) : bool :=
  Nat.leb lo (code c) && Nat.leb (code c) hi.

Definition is_digit (c : ascii) : bool := between 48 57 c.
Definition is_lower (c : ascii) : bool := between 97 122 c.
Definition is_upper (c : ascii) : bool := between 65 90 c.
Definition is_hyphen (c : ascii) : bool := Ascii.eqb c "-".
Definition is_underscore (c : ascii) : bool := Ascii.eqb c "_".

(** [[a-z0-9]] *)
Definition is_az09 (c : ascii) : bool := is_lower c || is_digit c.

(** [\w], that is [[A-Za-z0-9_]] *)
Definition is_word (c : ascii) : bool :=
  is_upper c || is_lower c || is_digit c || is_underscore c.

(** [\s] (and the characters [trim] strips): tab, line feed, vertical tab,
    form feed, carriage return, space and the no-break space U+00A0. *)
Definition is_space (c : ascii) : bool :=
  between 9 13 c || Nat.eqb (code c) 32 || Nat.eqb (code c) 160.

(** [String.prototype.toLowerCase] on one code unit: A-Z, and the
    Latin-1 capitals U+00C0..U+00DE without the multiplication sign. *)
Definition lower_char (c : ascii) : ascii :=
  if is_upper c || (between 192 222 c && negb (Nat.eqb (code c) 215))
  then ascii_of_nat (code c + 32)
  else c.

Definition chars : string -> list ascii := list_ascii_of_string.
Definition str : list ascii -> string := string_of_list_ascii.

Definition toLowerCase (s : string) : string := str (map lower_char (chars s)).

(** Drop the longest prefix, respectively suffix, of characters in a class. *)
Fixpoint drop_leading (P : ascii -> bool) (l : list ascii) : list ascii :=
  match l with
  | [] => []
  | c :: l' => if P c then drop_leading P l' else l
  end.

Fixpoint drop_trailing (P : ascii -> bool) (l : list ascii) : list ascii :=
  match l with
  | [] => []
  | c :: l' =>
      match drop_trailing P l' with
      | [] => if P c then [] else [c]
      | r => c :: r
      end
  end.

(** [s.trim()] *)
Definition trim (s : string) : string :=
  str (drop_trailing is_space (drop_leading is_space (chars s))).

(** [s.replace(/[class]+/g, r)]: every maximal run of characters of the
    class becomes one copy of [r].  [in_run] says that the previous
    character belonged to the class. *)
Fixpoint replace_runs (P : ascii -> bool) (r : list ascii) (in_run : bool)
    (l : list ascii) : list ascii :=
  match l with
  | [] => []
  | c :: l' =>
      if P c
      then (if in_run then [] else r) ++ replace_runs P r true l'
      else c :: replace_runs P r false l'
  end.

(** [s.replace(/[class]/g, '')] *)
Definition remove_all (P : ascii -> bool) (l : list ascii) : list ascii :=
  List.filter (fun c => negb (P c)) l.

(** Remove one leading, respectively one trailing, character of a class. *)
Definition drop_first_if (P : ascii -> bool) (l : list ascii) : list ascii :=
  match l with
  | c :: l' => if P c then l' else l
  | [] => []
  end.

Fixpoint drop_last_if (P : ascii -> bool) (l : list ascii) : list ascii :=
  match l with
  | [] => []
  | [c] => if P c then [] else [c]
  | c :: l' => c :: drop_last_if P l'
  end.

(** [s.split(sep)] for a one-character separator: [cur] is the piece read
    so far, reversed.  The empty string splits into one empty piece. *)
Fixpoint split_chars (sep : ascii) (cur : list ascii) (l : list ascii)
    : list string :=
  match l with
  | [] => [str (rev cur)]
  | c :: l' =>
      if Ascii.eqb c sep
      then str (rev cur) :: split_chars sep [] l'
      else split_chars sep (c :: cur) l'
  end.

Definition split (sep : ascii) (s : string) : list string :=
  split_chars sep [] (chars s).

(** [s.includes(sub)] *)
Fixpoint includes (sub s : string) : bool :=
  String.prefix sub s ||
  match s with
  | EmptyString => false
  | String _ s' => includes sub s'
  end.

(** [arr.join(sep)] *)
Fixpoint join (sep : string) (l : list string) : string :=
  match l with
  | [] => ""
  | [s] => s
  | s :: l' => s +:+ sep +:+ join sep l'
  end.

(** [!s] for [s : string | undefined] *)
Definition absent (s : option string) : bool :=
  match s with
  | None | Some "" => true
  | Some _ => false
  end.

(** ** Scalar values

    The values that travel between a validated payload and a table row:
    [undefined], [null], booleans, numbers, strings and arrays of strings
    (the [seo_keywords] column).  Numbers are exact rationals; the rounding
    of doubles is outside the model. *)
Inductive Val :=
  | VUndef
  | VNull
  | VBool (b : bool)
  | VNum (q : Qc)
  | VStr (s : string)
  | VStrs (l : list string).

#[global] Instance Val_eq_dec : EqDecision Val.
Proof. solve_decision. Defined.

Definition num (z : Z) : Val := VNum (Qc_of_Z z).
Definition index_num (i : nat) : Val := num (Z.of_nat i).

(** ToBoolean *)
Definition truthy (v : Val) : bool :=
  match v with
  | VUndef | VNull => false
  | VBool b => b
  | VNum q => negb (bool_decide (q = 0%Qc))
  | VStr s => negb (String.eqb s "")
  | VStrs _ => true
  end.

(** [a || b] and [a ?? b] *)
Definition or_else (a b : Val) : Val := if truthy a then a else b.
Definition nullish (a b : Val) : Val :=
  match a with
  | VUndef | VNull => b
  | _ => a
  end.

(** A plain object with scalar fields.  A key bound to [VUndef] is a
    property whose value is [undefined]; reading a missing key gives
    [undefined] as well. *)
Abbreviation Obj := (gmap string Val).

Definition get (k : string) (o : Obj) : Val := default VUndef (o !! k).

(** [{ ...o, k1: v1, k2: v2 }]: later properties win. *)
Definition assign (props : list (string * Val)) (o : Obj) : Obj :=
  fold_left (fun acc kv => <[kv.1 := kv.2]> acc) props o.

(** [{ k1: v1, k2: v2 }] *)
Definition object (props : list (string * Val)) : Obj := assign props ∅.

(** The text of a value that is a string. *)
Definition string_of (v : Val) : string :=
  match v with
  | VStr s => s
  | _ => ""
  end.

(** The columns named in [.select('a, b')]. *)
Definition project (columns : list string) (row : Obj) : Obj :=
  filter (fun kv => kv.1 ∈ columns) row.

(** [Object.keys(o).forEach(k => { if (o[k] === undefined) delete o[k] })] *)
Definition delete_undefined (o : Obj) : Obj :=
  filter (fun kv => kv.2 <> VUndef) o.

(** [Array.from(new Set(l))]: the first occurrence of each element, in
    order. *)
Fixpoint dedup (seen : list string) (l : list string) : list string :=
  match l with
  | [] => []
  | x :: l' =>
      if bool_decide (x ∈ seen) then dedup seen l'
      else x :: dedup (x :: seen) l'
  end.

Definition array_from_set (l : list string) : list string := dedup [] l.

End Js.

(* ===================================================================== *)
(** * Slug generation in the admin forms *)
(* ===================================================================== *)

(** [generateSlug] of the category form (categories/create/page.tsx; the
    category edit form has the same text). *)
Module CategoryForm.
Import Js.

Definition generateSlug (name : string) : string :=
  str (drop_last_if is_hyphen
        (drop_first_if is_hyphen
          (replace_runs (fun c => negb (is_az09 c)) ["-"%char] false
            (chars (toLowerCase name))))).

End CategoryForm.

(** [generateSlug] of the product edit form (products/[id]/edit). *)
Module ProductEditForm.
Import Js.

Definition generateSlug (name : string) : string :=
  let lowered := chars (trim (toLowerCase name)) in
  let kept := remove_all (fun c => negb (is_word c || is_space c || is_hyphen c)) lowered in
  let hyphenated :=
    replace_runs (fun c => is_space c || is_underscore c || is_hyphen c)
      ["-"%char] false kept in
  str (drop_trailing is_hyphen (drop_leading is_hyphen hyphenated)).

End ProductEditForm.

(* ===================================================================== *)
(** * The database behind the Supabase client *)
(* ===================================================================== *)

(** The routes reach Postgres through the Supabase client, one statement at
    a time and without transactions.  The database is a service, not code
    of the repository; it is modelled as far as the routes observe it:
    tables of rows, statements that insert, update, delete and select rows
    through [.eq] and [.in] filters, generated keys, and the three errors
    that the routes tell apart (23505, 23503, PGRST116). *)
Module Pg.
Import Js.

(** The error object of a failed statement ([PostgrestError]). *)
Record PgError := { code : string; message : string; details : option string }.

(** A thrown value, or the reason of a rejected promise: whether it is a
    [SyntaxError], and its [message] if it has one. *)
Record Exn := { syntax_error : bool; exn_message : option string }.

(** [.eq(column, v)] and [.in(column, vs)] *)
Inductive Filter :=
  | Eq (column : string) (v : Val)
  | In_ (column : string) (vs : list Val).

Definition matches (f : Filter) (row : Obj) : bool :=
  match f with
  | Eq c v => bool_decide (get c row = v)
  | In_ c vs => bool_decide (get c row ∈ vs)
  end.

(** The statements the routes send.  [SelectRelatedSlugs] is the select of
    [getProductRelatedPaths]: from [products], with the embedded resources
    [categories ( slug )] and [brands ( slug )]. *)
Inductive Stmt :=
  | Insert (table : string) (rows : list Obj)
  | Update (table : string) (patch : Obj) (f : Filter)
  | Delete (table : string) (f : Filter)
  | Select (table : string) (f : Filter)
  | SelectRelatedSlugs (f : Filter).

(** Tables by name, each a list of rows in insertion order. *)
Abbreviation Db := (gmap string (list Obj)).

Definition rows_of (table : string) (db : Db) : list Obj :=
  default [] (db !! table).

(** Modelled from the spec: the table declarations of the database are not
    among the sources.  The catalogue below holds what the specification
    says of them: the key column of each table (named as the routes name
    it), "slug (unique)" for products, categories and brands, and the
    foreign keys from products to categories and brands, which reject the
    deletion of a category or brand that a product still references. *)
Definition primary_key (table : string) : string :=
  if String.eqb table "products" then "products_id"
  else if String.eqb table "categories" then "categories_id"
  else if String.eqb table "brands" then "brands_id"
  else "id".

(** Modelled from the spec: the unique constraints, "slug (unique)" on
    products, categories and brands. *)
Definition unique_columns (table : string) : list string :=
  if bool_decide (table ∈ ["products"; "categories"; "brands"]) then ["slug"] else [].

(** Modelled from the spec: the foreign keys that stand in the way of a
    delete, as pairs of the referencing table and its column. *)
Definition restricting_references (table : string) : list (string * string) :=
  if String.eqb table "categories" then [("products", "category_id")]
  else if String.eqb table "brands" then [("products", "brand_id")]
  else [].

Definition unique_violation (column : string) : PgError :=
  {| code := "23505";
     message := "duplicate key value violates unique constraint";
     details := Some ("Key (" +:+ column +:+ ") already exists.") |}.

Definition foreign_key_violation (table : string) : PgError :=
  {| code := "23503";
     message := "update or delete violates foreign key constraint";
     details := Some ("Key is still referenced from table " +:+ table +:+ ".") |}.

Definition not_single : PgError :=
  {| code := "PGRST116";
     message := "JSON object requested, multiple (or no) rows returned";
     details := None |}.

(** Some row of [rows] holds [v] in [column]; [null] never collides. *)
Definition taken (column : string) (v : Val) (rows : list Obj) : bool :=
  match v with
  | VUndef | VNull => false
  | _ => existsb (fun r => bool_decide (get column r = v)) rows
  end.

(** A key above every key in use. *)
Definition key_floor (v : Val) : Z :=
  match v with
  | VNum q => Qfloor (this q)
  | _ => 0%Z
  end.

Definition next_key (pk : string) (rows : list Obj) : Z :=
  (1 + fold_right Z.max 0 (map (fun r => key_floor (get pk r)) rows))%Z.

(** The row as it is stored: without undefined properties, and with the
    next key when it brings none. *)
Definition with_key (table : string) (acc : list Obj) (r : Obj) : Obj :=
  let pk := primary_key table in
  let r := delete_undefined r in
  match r !! pk with
  | Some _ => r
  | None => <[pk := num (next_key pk acc)]> r
  end.

(** The key or unique column in which [row] repeats a value of [acc]. *)
Definition conflict (table : string) (row : Obj) (acc : list Obj) : option string :=
  List.find (fun c => taken c (get c row) acc)
            (primary_key table :: unique_columns table).

(** Insert [new] one row after the other into [acc]; a row that repeats a
    key or a unique value fails the whole statement. *)
Fixpoint insert_rows (table : string) (new acc : list Obj) : PgError + list Obj :=
  match new with
  | [] => inr []
  | r :: new' =>
      let keyed := with_key table acc r in
      match conflict table keyed acc with
      | Some c => inl (unique_violation c)
      | None =>
          match insert_rows table new' (acc ++ [keyed]) with
          | inl e => inl e
          | inr stored => inr (keyed :: stored)
          end
      end
  end.

Definition exec_insert (table : string) (rows : list Obj) (db : Db)
    : (PgError + list Obj) * Db :=
  match insert_rows table rows (rows_of table db) with
  | inl e => (inl e, db)
  | inr stored => (inr stored, <[table := rows_of table db ++ stored]> db)
  end.

(** Merge [patch] into the rows that match; fail when a patched unique
    column then holds the same value in two rows. *)
Definition exec_update (table : string) (patch : Obj) (f : Filter) (db : Db)
    : (PgError + list Obj) * Db :=
  let old := rows_of table db in
  let patch := delete_undefined patch in
  let new := map (fun r => if matches f r then patch ∪ r else r) old in
  let clash c :=
    match patch !! c with
    | Some v =>
        existsb (matches f) old &&
        Nat.ltb 1 (length (List.filter (fun r => taken c v [r]) new))
    | None => false
    end in
  match List.find clash (unique_columns table) with
  | Some c => (inl (unique_violation c), db)
  | None =>
      (inr (map (fun r => patch ∪ r) (List.filter (matches f) old)), <[table := new]> db)
  end.

(** Remove the rows that match, unless one of them is still referenced. *)
Definition exec_delete (table : string) (f : Filter) (db : Db)
    : (PgError + list Obj) * Db :=
  let old := rows_of table db in
  let doomed := List.filter (matches f) old in
  let referenced '(t, c) :=
    existsb (fun r => taken c (get (primary_key table) r) (rows_of t db)) doomed in
  match List.find referenced (restricting_references table) with
  | Some (t, _) => (inl (foreign_key_violation t), db)
  | None =>
      (inr doomed, <[table := List.filter (fun r => negb (matches f r)) old]> db)
  end.

(** The slug of the row of [table] whose key is [key], or [null]. *)
Definition parent_slug (table : string) (key : Val) (db : Db) : Val :=
  match List.find (fun r => taken (primary_key table) key [r]) (rows_of table db) with
  | Some r => nullish (get "slug" r) VNull
  | None => VNull
  end.

Definition related_slugs (db : Db) (product : Obj) : Obj :=
  {[ "categories.slug" := parent_slug "categories" (get "category_id" product) db;
     "brands.slug" := parent_slug "brands" (get "brand_id" product) db ]}.

Definition exec (s : Stmt) (db : Db) : (PgError + list Obj) * Db :=
  match s with
  | Insert t rows => exec_insert t rows db
  | Update t patch f => exec_update t patch f db
  | Delete t f => exec_delete t f db
  | Select t f => (inr (List.filter (matches f) (rows_of t db)), db)
  | SelectRelatedSlugs f =>
      (inr (map (related_slugs db) (List.filter (matches f) (rows_of "products" db))), db)
  end.

(** What the client hands back: [{ data, error }]. *)
Record Result (A : Type) := { data : option A; error : option PgError }.
Arguments data {A} _.
Arguments error {A} _.

Definition failed {A} (e : PgError) : Result A := {| data := None; error := Some e |}.

(** Without [.select()] the data of a write is [null]. *)
Definition no_data (r : PgError + list Obj) : Result unit :=
  match r with
  | inl e => failed e
  | inr _ => {| data := None; error := None |}
  end.

Definition many (r : PgError + list Obj) : Result (list Obj) :=
  match r with
  | inl e => failed e
  | inr rows => {| data := Some rows; error := None |}
  end.

(** [.single()]: exactly one row, or the error PGRST116. *)
Definition single (r : PgError + list Obj) : Result Obj :=
  match r with
  | inl e => failed e
  | inr [row] => {| data := Some row; error := None |}
  | inr _ => failed not_single
  end.

(** [.maybeSingle()]: no row is not an error. *)
Definition maybeSingle (r : PgError + list Obj) : Result Obj :=
  match r with
  | inl e => failed e
  | inr [] => {| data := None; error := None |}
  | inr [row] => {| data := Some row; error := None |}
  | inr _ => failed not_single
  end.

End Pg.

(* ===================================================================== *)
(** * The world of a request, and the monad of the handlers *)
(* ===================================================================== *)

Module Node.
Import Js Pg.

(** [process.env] *)
Record Env := {
  CUSTOMER_APP_BASE_URLS : option string;
  REVALIDATION_SECRET : option string;
  SUPABASE_SERVICE_ROLE_KEY : option string
}.

(** What happens to the next statement: the database runs it, or the
    client reports an error without the statement taking effect, or the
    promise of the statement is rejected. *)
Inductive Fault :=
  | NoFault
  | Fails (e : PgError)
  | Rejects (reason : Exn).

(** A settled promise. *)
Inductive Settled (A : Type) :=
  | Fulfilled (a : A)
  | Rejected (reason : Exn).
Arguments Fulfilled {A} _.
Arguments Rejected {A} _.

(** One line of the statement log: the statement and how it settled. *)
Record Entry := { stmt : Stmt; outcome : Settled (PgError + list Obj) }.

(** The payload of the storefront's revalidation endpoint. *)
Record RevalidationPayload := { path : option string; paths : option (list string) }.

(** A response: [ok], [status], the body text, and whether that text
    parses as JSON. *)
Record FetchResponse := { ok : bool; status : nat; text : string; parses : bool }.

(** What [fetch] will do for a URL: throw, or answer. *)
Inductive FetchOutcome :=
  | FetchThrows (e : Exn)
  | Responds (r : FetchResponse).

Record HttpRequest := {
  url : string;
  authorization : string;
  body : RevalidationPayload
}.

(** The console lines of the notifier.  (The diagnostic lines that the
    route handlers write are left out of the model.) *)
Inductive LogLine :=
  | ErrorBaseUrlsNotSet
  | ErrorSecretNotSet
  | WarnNoValidUrls
  | LogAttempting (payload : RevalidationPayload) (revalidateUrl : string)
  | LogSuccessful (baseUrl : string)
  | ErrorTriggering (baseUrl : string) (e : Exn)
  | ErrorPromiseRejected (reason : Exn)
  | LogFinished.

Record World := {
  env : Env;
  now : string;                      (* [new Date().toISOString()] *)
  db : Db;
  faults : list Fault;               (* one for each statement to come *)
  net : string -> FetchOutcome;
  statements : list Entry;           (* statements sent so far *)
  notified : list RevalidationPayload; (* calls of the notifier so far *)
  requests : list HttpRequest;       (* HTTP requests sent so far *)
  console : list LogLine
}.

(** How a computation completes: normally, or by throwing. *)
Inductive Completion (A : Type) :=
  | Normal (a : A)
  | Throw (e : Exn).
Arguments Normal {A} _.
Arguments Throw {A} _.

Definition M (A : Type) : Type := World -> Completion A * World.

Definition ret {A} (a : A) : M A := fun w => (Normal a, w).

Definition bind {A B} (c : M A) (k : A -> M B) : M B :=
  fun w =>
    match c w with
    | (Normal a, w') => k a w'
    | (Throw e, w') => (Throw e, w')
    end.

Definition throw {A} (e : Exn) : M A := fun w => (Throw e, w).

(** [try { body } catch (error) { handler }] *)
Definition try_catch {A} (body : M A) (handler : Exn -> M A) : M A :=
  fun w =>
    match body w with
    | (Normal a, w') => (Normal a, w')
    | (Throw e, w') => handler e w'
    end.

Definition new_Error (msg : string) : Exn :=
  {| syntax_error := false; exn_message := Some msg |}.

Definition getenv : M Env := fun w => (Normal (env w), w).
Definition Date_now : M string := fun w => (Normal (now w), w).

Definition console_log (l : LogLine) : M unit :=
  fun w =>
    (Normal tt,
     {| env := env w; now := now w; db := db w; faults := faults w; net := net w;
        statements := statements w; notified := notified w;
        requests := requests w; console := console w ++ [l] |}).

(** A promise that has not been awaited yet: running it settles it. *)
Definition Promise (A : Type) : Type := World -> Settled A * World.

(** [await p] *)
Definition await {A} (p : Promise A) : M A :=
  fun w =>
    match p w with
    | (Fulfilled a, w') => (Normal a, w')
    | (Rejected e, w') => (Throw e, w')
    end.

(** The promise of an [async] function call. *)
Definition async {A} (c : M A) : Promise A :=
  fun w =>
    match c w with
    | (Normal a, w') => (Fulfilled a, w')
    | (Throw e, w') => (Rejected e, w')
    end.

Definition then_ {A B} (p : Promise A) (f : A -> B) : Promise B :=
  fun w =>
    match p w with
    | (Fulfilled a, w') => (Fulfilled (f a), w')
    | (Rejected e, w') => (Rejected e, w')
    end.

(** [await Promise.allSettled(ps)].  The promises are started in array
    order; the model runs each to its end before the next. *)
Fixpoint allSettled {A} (ps : list (Promise A)) : M (list (Settled A)) :=
  match ps with
  | [] => ret []
  | p :: ps' =>
      fun w =>
        let '(r, w') := p w in
        match allSettled ps' w' with
        | (Normal rs, w'') => (Normal (r :: rs), w'')
        | (Throw e, w'') => (Throw e, w'')
        end
  end.

End Node.

Declare Scope js_scope.
Delimit Scope js_scope with js.
Notation "x <- c ;; k" := (Node.bind c (fun x => k))
  (at level 100, c at next level, right associativity) : js_scope.
Notation "c ;; k" := (Node.bind c (fun _ => k))
  (at level 100, right associativity) : js_scope.
Open Scope js_scope.

(** ** The Supabase client *)

Module Supabase.
Import Js Pg Node.

(** Send one statement: it consumes the next fault, is logged with its
    outcome, and changes the database only when the database ran it. *)
Definition send (s : Stmt) : Promise (PgError + list Obj) :=
  fun w =>
    let '(o, db') :=
      match hd NoFault (faults w) with
      | NoFault => let '(r, db') := exec s (db w) in (Fulfilled r, db')
      | Fails e => (Fulfilled (inl e), db w)
      | Rejects reason => (Rejected reason, db w)
      end in
    (o,
     {| env := env w; now := now w; db := db'; faults := tl (faults w);
        net := net w;
        statements := statements w ++ [{| stmt := s; outcome := o |}];
        notified := notified w; requests := requests w;
        console := console w |}).

(** [getSupabaseAdmin()] (lib/supabase), on the server. *)
Definition getSupabaseAdmin : M unit :=
  e <- getenv ;;
  if absent (SUPABASE_SERVICE_ROLE_KEY e)
  then throw (new_Error "Missing environment variable: SUPABASE_SERVICE_ROLE_KEY")
  else ret tt.

(** [from(t).insert(rows)] *)
Definition insert (t : string) (rows : list Obj) : Promise (Result unit) :=
  then_ (send (Insert t rows)) no_data.

(** [from(t).insert(row).select(columns).single()] *)
Definition insert_select_single (t : string) (row : Obj) (columns : list string)
    : Promise (Result Obj) :=
  then_ (send (Insert t [row])) (fun r => single (sum_map id (map (project columns)) r)).

(** [from(t).update(patch).eq(c, v)] *)
Definition update_eq (t : string) (patch : Obj) (c : string) (v : Val)
    : Promise (Result unit) :=
  then_ (send (Update t patch (Eq c v))) no_data.

(** [from(t).delete().eq(c, v)] and [from(t).delete().in(c, vs)] *)
Definition delete_eq (t c : string) (v : Val) : Promise (Result unit) :=
  then_ (send (Delete t (Eq c v))) no_data.

Definition delete_in (t c : string) (vs : list Val) : Promise (Result unit) :=
  then_ (send (Delete t (In_ c vs))) no_data.

(** [from(t).select(columns).eq(c, v)], then [.single()] or
    [.maybeSingle()] *)
Definition select_eq (t : string) (columns : list string) (c : string) (v : Val)
    : Promise (Result (list Obj)) :=
  then_ (send (Select t (Eq c v)))
        (fun r => many (sum_map id (map (project columns)) r)).

Definition select_eq_single (t : string) (columns : list string) (c : string) (v : Val)
    : Promise (Result Obj) :=
  then_ (send (Select t (Eq c v)))
        (fun r => single (sum_map id (map (project columns)) r)).

Definition select_eq_maybeSingle (t : string) (columns : list string) (c : string)
    (v : Val) : Promise (Result Obj) :=
  then_ (send (Select t (Eq c v)))
        (fun r => maybeSingle (sum_map id (map (project columns)) r)).

End Supabase.

(* ===================================================================== *)
(** * lib/revalidateCustomerApp *)
(* ===================================================================== *)

Module Revalidate.
Import Js Pg Node Supabase.

(** [fetch(revalidateUrl, { method: 'POST', headers, body })] *)
Definition fetch (revalidateUrl secret : string) (payload : RevalidationPayload)
    : M FetchResponse :=
  fun w =>
    let w' :=
      {| env := env w; now := now w; db := db w; faults := faults w; net := net w;
         statements := statements w; notified := notified w;
         requests := requests w ++
           [{| url := revalidateUrl;
               authorization := "Bearer " +:+ secret;
               body := payload |}];
         console := console w |} in
    match net w revalidateUrl with
    | FetchThrows e => (Throw e, w')
    | Responds r => (Normal r, w')
    end.

(** [response.json()] *)
Definition response_json (response : FetchResponse) : M unit :=
  if parses response then ret tt
  else throw {| syntax_error := true;
                exn_message := Some "Unexpected token in JSON" |}.

(** What the function mapped over the base URLs returns. *)
Inductive Attempt :=
  | AttemptFulfilled (url : string)
  | AttemptRejected (url : string) (error : option string).

(** The body of [customerAppBaseUrls.map(async (baseUrl) => { ... })]. *)
Definition request (secret : string) (payload : RevalidationPayload)
    (baseUrl : string) : M Attempt :=
  let revalidateUrl := baseUrl +:+ "/api/revalidate" in
  console_log (LogAttempting payload revalidateUrl) ;;
  try_catch
    (response <- fetch revalidateUrl secret payload ;;
     if negb (ok response)
     then throw (new_Error ("Revalidation failed for " +:+ baseUrl +:+
                            " with status " +:+ pretty (status response) +:+
                            ": " +:+ text response))
     else
       (response_json response ;;
        console_log (LogSuccessful baseUrl) ;;
        ret (AttemptFulfilled baseUrl)))
    (fun error =>
       console_log (ErrorTriggering baseUrl error) ;;
       ret (AttemptRejected baseUrl (exn_message error))).

(** [results.forEach(...)]: a rejected promise is logged. *)
Fixpoint log_rejections (results : list (Settled Attempt)) : M unit :=
  match results with
  | [] => ret tt
  | Rejected reason :: rest =>
      console_log (ErrorPromiseRejected reason) ;; log_rejections rest
  | Fulfilled _ :: rest => log_rejections rest
  end.

(** The call is noted in [notified] on entry. *)
Definition note_call (payload : RevalidationPayload) : M unit :=
  fun w =>
    (Normal tt,
     {| env := env w; now := now w; db := db w; faults := faults w; net := net w;
        statements := statements w; notified := notified w ++ [payload];
        requests := requests w; console := console w |}).

Definition revalidateCustomerApp (payload : RevalidationPayload) : M unit :=
  note_call payload ;;
  e <- getenv ;;
  let customerAppBaseUrlsString := CUSTOMER_APP_BASE_URLS e in
  let revalidationSecret := REVALIDATION_SECRET e in
  if absent customerAppBaseUrlsString then console_log ErrorBaseUrlsNotSet
  else if absent revalidationSecret then console_log ErrorSecretNotSet
  else
    let customerAppBaseUrls :=
      List.filter (fun url => negb (String.eqb url ""))
        (map trim (split "," (default "" customerAppBaseUrlsString))) in
    if Nat.eqb (length customerAppBaseUrls) 0 then console_log WarnNoValidUrls
    else
      let requests :=
        map (fun baseUrl =>
               async (request (default "" revalidationSecret) payload baseUrl))
            customerAppBaseUrls in
      results <- allSettled requests ;;
      log_rejections results ;;
      console_log LogFinished.

(** [getProductRelatedPaths(productId)]: the paths of the category page and
    of the brand page of a product, or [null]. *)
Definition getProductRelatedPaths (productId : Val)
    : M (option string * option string) :=
  getSupabaseAdmin ;;
  r <- await (then_ (send (SelectRelatedSlugs (Eq "products_id" productId))) single) ;;
  match error r with
  | Some _ => ret (None, None)
  | None =>
      let slug_of k :=
        match data r with
        | Some row => get k row
        | None => VUndef
        end in
      let categoryPath :=
        match slug_of "categories.slug" with
        | VStr s => if String.eqb s "" then None else Some ("/category/" +:+ s)
        | _ => None
        end in
      let brandPath :=
        match slug_of "brands.slug" with
        | VStr s => if String.eqb s "" then None else Some ("/brand/" +:+ s)
        | _ => None
        end in
      ret (categoryPath, brandPath)
  end.

End Revalidate.

(* ===================================================================== *)
(** * Validation: zod schemas *)
(* ===================================================================== *)

Module Zod.
Import Js.

(** A parsed JSON document. *)
#[local] Set Warnings "-register-all".
Inductive Json :=
  | JNull
  | JBool (b : bool)
  | JNum (q : Qc)
  | JStr (s : string)
  | JArr (items : list Json)
  | JObj (fields : list (string * Json)).

Inductive PathItem :=
  | Key (k : string)
  | Index (i : nat).

(** A [ZodIssue]: its code, its path, and the message given with the check
    when there is one. *)
Record Issue := {
  issue_code : string;
  issue_path : list PathItem;
  issue_message : option string
}.

Definition Parsed (A : Type) : Type := list Issue + A.

(** A schema parses an input; [None] is [undefined], a missing key. *)
Definition Schema (A : Type) : Type := option Json -> Parsed A.

Definition issue {A} (code : string) (msg : option string) : Parsed A :=
  inl [{| issue_code := code; issue_path := []; issue_message := msg |}].

Definition under {A} (p : PathItem) (r : Parsed A) : Parsed A :=
  match r with
  | inl issues =>
      inl (map (fun i => {| issue_code := issue_code i;
                            issue_path := p :: issue_path i;
                            issue_message := issue_message i |}) issues)
  | inr a => inr a
  end.

(** Both parses run; the issues of both are kept. *)
Definition both {A B} (a : Parsed A) (b : Parsed B) : Parsed (A * B) :=
  match a, b with
  | inr x, inr y => inr (x, y)
  | inl i, inl j => inl (i ++ j)
  | inl i, inr _ => inl i
  | inr _, inl j => inl j
  end.

Definition pmap {A B} (f : A -> B) (a : Parsed A) : Parsed B :=
  match a with
  | inl i => inl i
  | inr x => inr (f x)
  end.

(** What zod takes from outside: the URL parser behind [.url()], and the
    conversion to a number of a string and of an array that [z.coerce]
    relies on ([Number(x)]). *)
Record Lib := {
  is_url : string -> bool;
  string_to_number : string -> option Qc;
  array_to_number : list Json -> option Qc
}.

Section Schemas.
Variable lib : Lib.

(** [Number(input)]; [None] is NaN. *)
Definition Number (input : option Json) : option Qc :=
  match input with
  | None => None
  | Some JNull => Some 0%Qc
  | Some (JBool b) => Some (if b then 1%Qc else 0%Qc)
  | Some (JNum q) => Some q
  | Some (JStr s) => string_to_number lib s
  | Some (JArr l) => array_to_number lib l
  | Some (JObj _) => None
  end.

Inductive NumberCheck :=
  | min (m : Z)
  | max (m : Z)
  | int
  | positive.

Definition number_check (q : Qc) (c : NumberCheck * option string) : list Issue :=
  let fail code := [{| issue_code := code; issue_path := []; issue_message := c.2 |}] in
  match c.1 with
  | min m => if bool_decide (Qc_of_Z m ≤ q)%Qc then [] else fail "too_small"
  | max m => if bool_decide (q ≤ Qc_of_Z m)%Qc then [] else fail "too_big"
  | int => if Pos.eqb (Qden (this q)) 1 then [] else fail "invalid_type"
  | positive => if bool_decide (0 < q)%Qc then [] else fail "too_small"
  end.

Definition checked_number (q : Qc) (checks : list (NumberCheck * option string))
    : Parsed Val :=
  match flat_map (number_check q) checks with
  | [] => inr (VNum q)
  | issues => inl issues
  end.

(** [z.number()...] and [z.coerce.number()...] *)
Definition z_number (checks : list (NumberCheck * option string)) : Schema Val :=
  fun input =>
    match input with
    | Some (JNum q) => checked_number q checks
    | _ => issue "invalid_type" None
    end.

Definition z_coerce_number (checks : list (NumberCheck * option string)) : Schema Val :=
  fun input =>
    match Number input with
    | Some q => checked_number q checks
    | None => issue "invalid_type" None
    end.

Inductive StringStep :=
  | smin (n : nat)
  | url
  | strim.

(** The checks of a string schema run in order; [.trim()] changes the
    value the later checks see. *)
Fixpoint string_steps (steps : list (StringStep * option string)) (s : string)
    : list Issue * string :=
  match steps with
  | [] => ([], s)
  | (step, msg) :: rest =>
      let fail code := [{| issue_code := code; issue_path := []; issue_message := msg |}] in
      match step with
      | smin n =>
          let '(issues, s') := string_steps rest s in
          ((if Nat.leb n (String.length s) then [] else fail "too_small") ++ issues, s')
      | url =>
          let '(issues, s') := string_steps rest s in
          ((if is_url lib s then [] else fail "invalid_string") ++ issues, s')
      | strim => string_steps rest (trim s)
      end
  end.

Definition z_string (steps : list (StringStep * option string)) : Schema Val :=
  fun input =>
    match input with
    | Some (JStr s) =>
        match string_steps steps s with
        | ([], s') => inr (VStr s')
        | (issues, _) => inl issues
        end
    | _ => issue "invalid_type" None
    end.

Definition z_boolean : Schema Val :=
  fun input =>
    match input with
    | Some (JBool b) => inr (VBool b)
    | _ => issue "invalid_type" None
    end.

Definition z_enum (values : list string) : Schema Val :=
  fun input =>
    match input with
    | Some (JStr s) =>
        if bool_decide (s ∈ values) then inr (VStr s)
        else issue "invalid_enum_value" None
    | _ => issue "invalid_type" None
    end.

Definition z_literal (value : string) : Schema Val :=
  fun input =>
    match input with
    | Some (JStr s) =>
        if String.eqb s value then inr (VStr s) else issue "invalid_literal" None
    | _ => issue "invalid_literal" None
    end.

Definition optional (s : Schema Val) : Schema Val :=
  fun input =>
    match input with
    | None => inr VUndef
    | _ => s input
    end.

Definition nullable (s : Schema Val) : Schema Val :=
  fun input =>
    match input with
    | Some JNull => inr VNull
    | _ => s input
    end.

Definition default_ {A} (value : A) (s : Schema A) : Schema A :=
  fun input =>
    match input with
    | None => inr value
    | _ => s input
    end.

Definition or (s1 s2 : Schema Val) : Schema Val :=
  fun input =>
    match s1 input with
    | inr v => inr v
    | inl _ =>
        match s2 input with
        | inr v => inr v
        | inl _ => issue "invalid_union" None
        end
    end.

Definition lookup_field (k : string) (fields : list (string * Json)) : option Json :=
  match List.find (fun kv => String.eqb kv.1 k) fields with
  | Some kv => Some kv.2
  | None => None
  end.

(** The fields of an object schema, parsed one after the other.  A field
    whose value is [undefined] is left out of the result; keys that the
    schema does not name are dropped. *)
Fixpoint object_fields (shape : list (string * Schema Val))
    (fields : list (string * Json)) : Parsed Obj :=
  match shape with
  | [] => inr ∅
  | (k, s) :: rest =>
      pmap (fun '(v, o) => if bool_decide (v = VUndef) then o else <[k := v]> o)
           (both (under (Key k) (s (lookup_field k fields)))
                 (object_fields rest fields))
  end.

Definition z_object (shape : list (string * Schema Val)) : Schema Obj :=
  fun input =>
    match input with
    | Some (JObj fields) => object_fields shape fields
    | _ => issue "invalid_type" None
    end.

Fixpoint array_items {A} (item : Schema A) (i : nat) (items : list Json)
    : Parsed (list A) :=
  match items with
  | [] => inr []
  | x :: rest =>
      pmap (fun '(a, l) => a :: l)
           (both (under (Index i) (item (Some x))) (array_items item (S i) rest))
  end.

Definition z_array {A} (item : Schema A) : Schema (list A) :=
  fun input =>
    match input with
    | Some (JArr items) => array_items item 0 items
    | _ => issue "invalid_type" None
    end.

(** A string schema whose result is read as a string. *)
Definition as_string (s : Schema Val) : Schema string :=
  fun input =>
    pmap (fun v => match v with VStr x => x | _ => "" end) (s input).

(** ** The schemas of products/schema.ts *)

Definition icon_url_schema (msg : string) : Schema Val :=
  nullable (or (optional (z_string [(url, Some msg)])) (z_literal "")).

Definition productFeatureSchema : Schema Obj :=
  z_object
    [("id", optional (z_number []));
     ("feature_text", z_string [(smin 1, Some "Feature text cannot be empty")]);
     ("icon_url", icon_url_schema "Please enter a valid URL for the icon")].

Definition variantAttributeSchema : Schema Obj :=
  z_object
    [("id", optional (z_number []));
     ("name", z_string [(smin 1, Some "Attribute name cannot be empty")]);
     ("value", z_string [(smin 1, Some "Attribute value cannot be empty")])].

Definition variantFeatureSchema : Schema Obj :=
  z_object
    [("id", optional (z_number []));
     ("feature_text", z_string [(smin 1, Some "Variant feature text cannot be empty")]);
     ("icon_url", icon_url_schema "Please enter a valid URL for the icon")].

(** A validated variant: its scalar fields, and its two nested arrays. *)
Record Variant := {
  coreVariantData : Obj;
  attributes : list Obj;
  variant_features : list Obj
}.

Definition productVariantSchema : Schema Variant :=
  fun input =>
    match input with
    | Some (JObj fields) =>
        pmap (fun '(core, (attrs, feats)) =>
                {| coreVariantData := core; attributes := attrs;
                   variant_features := feats |})
          (both
            (object_fields
               [("id", optional (z_number []));
                ("name", z_string [(smin 1, Some "Variant name cannot be empty")]);
                ("price", nullable (optional (z_coerce_number [(min 0, None)])));
                ("compare_at_price", nullable (optional (z_coerce_number [])));
                ("sku", nullable (optional (z_string [])));
                ("quantity", nullable (optional (z_coerce_number [(min 0, None)])));
                ("image_url", icon_url_schema "Please enter a valid URL");
                ("icon_url", icon_url_schema "Please enter a valid URL for the icon")]
               fields)
            (both
              (under (Key "attributes")
                 (default_ [] (z_array variantAttributeSchema)
                    (lookup_field "attributes" fields)))
              (under (Key "variant_features")
                 (default_ [] (z_array variantFeatureSchema)
                    (lookup_field "variant_features" fields)))))
    | _ => issue "invalid_type" None
    end.

Definition productTestimonialVideoSchema : Schema Obj :=
  z_object
    [("id", optional (z_number []));
     ("video_url", z_string [(url, Some "Please enter a valid URL"); (smin 1, None)]);
     ("title", nullable (optional (z_string [])));
     ("description", nullable (optional (z_string [])));
     ("uploader_name", nullable (optional (z_string [])))].

Definition productPageTestimonialSchema : Schema Obj :=
  z_object
    [("id", optional (z_number []));
     ("customer_name",
        z_string [(smin 2, Some "Customer name must be at least 2 characters")]);
     ("testimonial_text",
        z_string [(smin 10, Some "Testimonial text must be at least 10 characters")]);
     ("rating",
        nullable (optional (z_coerce_number
          [(min 0, Some "Rating must be at least 0");
           (max 5, Some "Rating must be at most 5")])));
     ("customer_image_url", icon_url_schema "Please enter a valid URL")].

Definition faqItemSchema : Schema Obj :=
  z_object
    [("id", optional (z_number []));
     ("question", z_string [(smin 1, Some "Question cannot be empty")]);
     ("answer", z_string [(smin 1, Some "Answer cannot be empty")])].

Definition marks : list string :=
  ["selling fast"; "Trending now"; "Must Have"; "Loved by Many";
   "best seller"; "limited edition"].

(** The related arrays of a product payload, after validation. *)
Record Related := {
  images : list string;
  features : list Obj;
  variants : list Variant;
  testimonial_videos : list Obj;
  customer_testimonials : list Obj;
  tags : list string;
  faqs : list Obj
}.

(** The seven arrays are declared alike in the create and in the update
    schema: [z.array(...).optional().default([])]. *)
Definition related_arrays (fields : list (string * Json)) : Parsed Related :=
  let arr {A} (k : string) (item : Schema A) : Parsed (list A) :=
    under (Key k) (default_ [] (z_array item) (lookup_field k fields)) in
  pmap (fun '(i, (f, (v, (tv, (ct, (t, q)))))) =>
          {| images := i; features := f; variants := v; testimonial_videos := tv;
             customer_testimonials := ct; tags := t; faqs := q |})
    (both (arr "images" (as_string (z_string [(url, None)])))
    (both (arr "features" productFeatureSchema)
    (both (arr "variants" productVariantSchema)
    (both (arr "testimonial_videos" productTestimonialVideoSchema)
    (both (arr "customer_testimonials" productPageTestimonialSchema)
    (both (arr "tags" (as_string (z_string [(strim, None); (smin 1, None)])))
          (arr "faqs" faqItemSchema))))))).

End Schemas.

(** [error.flatten()]: the issues without a path, and the issues of each
    top-level field. *)
Record Flattened := {
  formErrors : list Issue;
  fieldErrors : list (string * list Issue)
}.

Fixpoint add_field_error (k : string) (i : Issue) (acc : list (string * list Issue))
    : list (string * list Issue) :=
  match acc with
  | [] => [(k, [i])]
  | (k', found) :: rest =>
      if String.eqb k' k then (k', found ++ [i]) :: rest
      else (k', found) :: add_field_error k i rest
  end.

Definition flatten (issues : list Issue) : Flattened :=
  fold_left
    (fun acc i =>
       match issue_path i with
       | [] => {| formErrors := formErrors acc ++ [i]; fieldErrors := fieldErrors acc |}
       | Key k :: _ =>
           {| formErrors := formErrors acc;
              fieldErrors := add_field_error k i (fieldErrors acc) |}
       | Index n :: _ =>
           {| formErrors := formErrors acc;
              fieldErrors := add_field_error (pretty n) i (fieldErrors acc) |}
       end)
    issues {| formErrors := []; fieldErrors := [] |}.

End Zod.

(* ===================================================================== *)
(** * Route handlers *)
(* ===================================================================== *)

Module Http.
Import Js.

(** The [details] of an error body: the flattened validation error, or the
    message of the error that was caught. *)
Inductive Details :=
  | Validation (f : Zod.Flattened)
  | Message (m : option string).

(** The JSON bodies of the three routes. *)
Inductive Body :=
  | ErrorBody (error : string) (details : option Details)
  | Created (message : string) (product : Obj) (errors : option (list string))
  | Updated (message : string) (updatedProduct : Obj) (errors : option (list string))
  | MessageBody (message : string).

(** [NextResponse.json(body, { status })] *)
Record Response := { body : Body; status : nat }.

Definition json (b : Body) (code : nat) : Response := {| body := b; status := code |}.

(** The body of the request: text that does not parse, or a document. *)
Inductive Request :=
  | Malformed
  | Document (j : Zod.Json).

(** [await req.json()] *)
Definition req_json (req : Request) : Node.M Zod.Json :=
  match req with
  | Malformed =>
      Node.throw {| Pg.syntax_error := true;
                    Pg.exn_message := Some "Unexpected token in JSON" |}
  | Document j => Node.ret j
  end.

(** [errors: relatedDataErrors.length > 0 ? relatedDataErrors : undefined] *)
Definition errors_field (relatedDataErrors : list string) : option (list string) :=
  if Nat.ltb 0 (length relatedDataErrors) then Some relatedDataErrors else None.

(** The [catch] block that the three handlers share. *)
Definition unexpected (error : Pg.Exn) : Node.M Response :=
  if Pg.syntax_error error
  then Node.ret (json (ErrorBody "Invalid JSON body" None) 400)
  else Node.ret (json (ErrorBody "An unexpected error occurred"
                         (Some (Message (Pg.exn_message error)))) 500).

End Http.

(** ** Inserting the related data of a product

    The create route and the update route insert the related rows with the
    same text ("Similar logic as in create route"); the update route also
    clears the [id] of a variant before inserting it. *)

Module RelatedData.
Import Js Pg Node Supabase Zod.

(** [for (const x of xs) { ... }] over a state that the body may change. *)
Fixpoint for_of {A S} (xs : list A) (body : S -> A -> M S) (s : S) : M S :=
  match xs with
  | [] => ret s
  | x :: xs' => s' <- body s x ;; for_of xs' body s'
  end.

(** One block of the form
    [if (xs && xs.length > 0) { const { error } = await
    supabase.from(t).insert(rows); if (error)
    relatedDataErrors.push(`${label}: ${error.message}`) }]. *)
Definition insert_rows_of (label t : string) (rows : list Obj)
    (relatedDataErrors : list string) : M (list string) :=
  if Nat.ltb 0 (length rows)
  then
    r <- await (insert t rows) ;;
    match error r with
    | Some e => ret (relatedDataErrors ++ [label +:+ ": " +:+ message e])
    | None => ret relatedDataErrors
    end
  else ret relatedDataErrors.

Definition imagesToInsert (product_id : Val) (images : list string) : list Obj :=
  imap (fun index url =>
          object [("product_id", product_id);
                  ("url", VStr url);
                  ("is_primary", VBool (Nat.eqb index 0));
                  ("sort_order", index_num index)])
       images.

Definition featuresToInsert (product_id : Val) (features : list Obj) : list Obj :=
  map (fun f => object [("product_id", product_id);
                        ("feature_text", get "feature_text" f)])
      features.

Definition tagsToInsert (product_id : Val) (tags : list string) : list Obj :=
  map (fun tagText => object [("product_id", product_id); ("tag_text", VStr tagText)])
      tags.

Definition faqsToInsert (product_id : Val) (faqs : list Obj) : list Obj :=
  map (fun faq => object [("product_id", product_id);
                          ("question", get "question" faq);
                          ("answer", get "answer" faq)])
      faqs.

Definition videosToInsert (product_id : Val) (videos : list Obj) : list Obj :=
  map (fun video =>
         object [("product_id", product_id);
                 ("video_url", get "video_url" video);
                 ("title", or_else (get "title" video) VNull);
                 ("description", or_else (get "description" video) VNull);
                 ("uploader_name", or_else (get "uploader_name" video) VNull)])
      videos.

Definition testimonialsToInsert (product_id : Val) (testimonials : list Obj) : list Obj :=
  map (fun test =>
         object [("products_id", product_id);
                 ("customer_name", get "customer_name" test);
                 ("testimonial_text", get "testimonial_text" test);
                 ("rating", nullish (get "rating" test) VNull);
                 ("customer_image_url", or_else (get "customer_image_url" test) VNull)])
      testimonials.

Definition variantInsertData (clear_id : bool) (product_id : Val) (variant : Variant) : Obj :=
  let coreVariantData := coreVariantData variant in
  assign
    ((if clear_id then [("id", VUndef)] else []) ++
     [("product_id", product_id);
      ("price", nullish (get "price" coreVariantData) VNull);
      ("compare_at_price", nullish (get "compare_at_price" coreVariantData) VNull);
      ("sku", nullish (get "sku" coreVariantData) VNull);
      ("quantity", nullish (get "quantity" coreVariantData) VNull);
      ("image_url", nullish (get "image_url" coreVariantData) VNull);
      ("icon_url", nullish (get "icon_url" coreVariantData) VNull)])
    coreVariantData.

Definition attributesToInsert (newVariantId : Val) (attributes : list Obj) : list Obj :=
  map (fun attr => object [("variant_id", newVariantId);
                           ("name", get "name" attr);
                           ("value", get "value" attr)])
      (List.filter (fun a => truthy (get "name" a) && truthy (get "value" a)) attributes).

Definition variantFeaturesToInsert (newVariantId : Val) (variant_features : list Obj)
    : list Obj :=
  map (fun feat => object [("variant_id", newVariantId);
                           ("feature_text", get "feature_text" feat);
                           ("icon_url", nullish (get "icon_url" feat) VNull)])
      (List.filter (fun f => truthy (get "feature_text" f)) variant_features).

Definition variant_name (variant : Variant) : string :=
  string_of (get "name" (coreVariantData variant)).

(** The message of a failed variant insert:
    [`Variant (${variant.name || 'Unnamed'}): ${variantError?.message ||
    'Failed to insert'}`]. *)
Definition variant_error_text (variant : Variant) (variantError : option PgError) : string :=
  "Variant (" +:+
  (if String.eqb (variant_name variant) "" then "Unnamed" else variant_name variant) +:+
  "): " +:+
  match variantError with
  | Some e => if String.eqb (message e) "" then "Failed to insert" else message e
  | None => "Failed to insert"
  end.

(** The body of the loop over the variants. *)
Definition insert_variant (clear_id : bool) (product_id : Val)
    (relatedDataErrors : list string) (variant : Variant) : M (list string) :=
  r <- await (insert_select_single "product_variants"
                (variantInsertData clear_id product_id variant) ["id"]) ;;
  match error r, data r with
  | None, Some newVariant =>
      let newVariantId := get "id" newVariant in
      relatedDataErrors <-
        (if Nat.ltb 0 (length (attributes variant))
         then insert_rows_of ("Variant Attributes (" +:+ variant_name variant +:+ ")")
                "variant_attributes"
                (attributesToInsert newVariantId (attributes variant))
                relatedDataErrors
         else ret relatedDataErrors) ;;
      (if Nat.ltb 0 (length (variant_features variant))
       then insert_rows_of ("Variant Features (" +:+ variant_name variant +:+ ")")
              "variant_features"
              (variantFeaturesToInsert newVariantId (variant_features variant))
              relatedDataErrors
       else ret relatedDataErrors)
  | variantError, _ =>
      (* continue: the attributes and features of this variant are skipped *)
      ret (relatedDataErrors ++ [variant_error_text variant variantError])
  end.

(** Steps 2 to 8 of the create route, and their copy in the update route. *)
Definition insert_related (clear_id : bool) (product_id : Val) (input : Related)
    (relatedDataErrors : list string) : M (list string) :=
  relatedDataErrors <-
    insert_rows_of "Images" "product_images"
      (imagesToInsert product_id (images input)) relatedDataErrors ;;
  relatedDataErrors <-
    insert_rows_of "Features" "product_features"
      (featuresToInsert product_id (features input)) relatedDataErrors ;;
  relatedDataErrors <-
    insert_rows_of "Tags" "product_tags"
      (tagsToInsert product_id (tags input)) relatedDataErrors ;;
  relatedDataErrors <-
    insert_rows_of "FAQs" "product_faqs"
      (faqsToInsert product_id (faqs input)) relatedDataErrors ;;
  relatedDataErrors <-
    insert_rows_of "Testimonial Videos" "product_testimonial_videos"
      (videosToInsert product_id (testimonial_videos input)) relatedDataErrors ;;
  relatedDataErrors <-
    insert_rows_of "Customer Testimonials" "customer_testimonials"
      (testimonialsToInsert product_id (customer_testimonials input))
      relatedDataErrors ;;
  for_of (variants input) (insert_variant clear_id product_id) relatedDataErrors.

(** [seo_keywords ? seo_keywords.split(',').map(kw => kw.trim()).filter(kw
    => kw) : otherwise] *)
Definition keywords (seo_keywords otherwise : Val) : Val :=
  if truthy seo_keywords
  then VStrs (List.filter (fun kw => negb (String.eqb kw ""))
                (map trim (split "," (string_of seo_keywords))))
  else otherwise.

(** [if (categoryPath) paths.push(categoryPath)] *)
Definition push_if (p : option string) (paths : list string) : list string :=
  match p with
  | Some x => if String.eqb x "" then paths else paths ++ [x]
  | None => paths
  end.

End RelatedData.

(** ** api/products/create/route.ts *)

Module ProductsCreate.
Import Js Pg Node Supabase Zod Revalidate RelatedData Http.

Record ValidatedProductData := {
  related : Related;
  seo_keywords : Val;
  coreProductData : Obj
}.

Section Route.
Variable lib : Lib.
(** [slugify(name, { lower: true, strict: true })], from the slugify
    package. *)
Variable slugify : string -> string.

(** [createProductSchema], with the destructuring that follows it: the
    seven arrays, [seo_keywords], and the remaining fields as
    [coreProductData].  Issues are gathered in that grouping; the flattened
    error is keyed by field, so the grouping does not show in it. *)
Definition createProductSchema : Schema ValidatedProductData :=
  fun input =>
    match input with
    | Some (JObj fields) =>
        pmap (fun '(core, (kw, rel)) =>
                {| related := rel; seo_keywords := kw; coreProductData := core |})
          (both
            (object_fields
               [("name", z_string lib [(smin 2, None)]);
                ("slug", optional (z_string lib []));
                ("description", nullable (optional (z_string lib [])));
                ("short_description", nullable (optional (z_string lib [])));
                ("sku", nullable (optional (z_string lib [])));
                ("category_id", nullable (optional (z_coerce_number lib [(int, None)])));
                ("subcategory_id", nullable (optional (z_coerce_number lib [(int, None)])));
                ("brand_id", nullable (optional (z_coerce_number lib [(int, None)])));
                ("price", z_coerce_number lib [(min 0, None)]);
                ("compare_at_price", nullable (optional (z_coerce_number lib [])));
                ("cost_price", optional (nullable (z_coerce_number lib [(positive, None)])));
                ("currency_code", default_ (VStr "USD") (z_string lib []));
                ("initial_stock",
                   optional (nullable (z_coerce_number lib [(int, None); (min 0, None)])));
                ("track_inventory", default_ (VBool true) z_boolean);
                ("quantity", default_ (num 0) (z_coerce_number lib [(min 0, None)]));
                ("backorderable", default_ (VBool false) z_boolean);
                ("low_stock_threshold",
                   default_ (num 5) (z_coerce_number lib [(min 0, None)]));
                ("reserved_quantity",
                   default_ (num 0) (z_coerce_number lib [(min 0, None)]));
                ("max_stock", nullable (optional (z_coerce_number lib [(min 0, None)])));
                ("weight", nullable (optional (z_coerce_number lib [])));
                ("weight_unit", nullable (optional (z_string lib [])));
                ("dimensions_length", nullable (optional (z_coerce_number lib [])));
                ("dimensions_width", nullable (optional (z_coerce_number lib [])));
                ("dimensions_height", nullable (optional (z_coerce_number lib [])));
                ("dimensions_unit", nullable (optional (z_string lib [])));
                ("shipping_required", default_ (VBool true) z_boolean);
                ("shipping_class", nullable (optional (z_string lib [])));
                ("status", default_ (VStr "draft") (z_enum ["active"; "draft"]));
                ("mark", optional (nullable (z_enum marks)));
                ("seo_title", nullable (optional (z_string lib [])));
                ("seo_description", nullable (optional (z_string lib [])));
                ("featured_in_collection_slug", nullable (optional (z_string lib [])))]
               fields)
            (both
              (under (Key "seo_keywords")
                 (nullable (optional (z_string lib [])) (lookup_field "seo_keywords" fields)))
              (related_arrays lib fields)))
    | _ => issue "invalid_type" None
    end.

(** The row of the [products] table. *)
Definition dataToInsert (slug : string) (seo_keywords : Val) (coreProductData : Obj) : Obj :=
  let c := coreProductData in
  assign
    [("slug", VStr slug);
     ("sku", or_else (get "sku" c) VNull);
     ("mark", or_else (get "mark" c) VNull);
     ("category_id", or_else (get "category_id" c) VNull);
     ("brand_id", or_else (get "brand_id" c) VNull);
     ("subcategory_id", or_else (get "subcategory_id" c) VNull);
     ("compare_at_price", nullish (get "compare_at_price" c) VNull);
     ("cost_price", nullish (get "cost_price" c) VNull);
     ("initial_stock", nullish (get "initial_stock" c) VNull);
     ("max_stock", nullish (get "max_stock" c) VNull);
     ("weight", nullish (get "weight" c) VNull);
     ("weight_unit", if truthy (get "weight" c) then get "weight_unit" c else VNull);
     ("dimensions_length", nullish (get "dimensions_length" c) VNull);
     ("dimensions_width", nullish (get "dimensions_width" c) VNull);
     ("dimensions_height", nullish (get "dimensions_height" c) VNull);
     ("dimensions_unit",
        if truthy (get "dimensions_length" c) || truthy (get "dimensions_width" c)
           || truthy (get "dimensions_height" c)
        then get "dimensions_unit" c else VNull);
     ("shipping_class", or_else (get "shipping_class" c) VNull);
     ("seo_title", or_else (get "seo_title" c) VNull);
     ("seo_description", or_else (get "seo_description" c) VNull);
     ("seo_keywords", keywords seo_keywords VNull);
     ("featured_in_collection_slug", or_else (get "featured_in_collection_slug" c) VNull)]
    c.

(** The response when the insert of the product row fails. *)
Definition insert_failed (insertError : option PgError) : Response :=
  match insertError with
  | Some e =>
      if String.eqb (code e) "23505"
      then json (ErrorBody ("Product creation failed: " +:+
                            match details e with
                            | Some d => if String.eqb d "" then "Duplicate value exists" else d
                            | None => "Duplicate value exists"
                            end) None) 409
      else json (ErrorBody ("Failed to create product: " +:+ message e) None) 500
  | None => json (ErrorBody "Failed to create product: undefined" None) 500
  end.

Definition responseMessage (relatedDataErrors : list string) : string :=
  if Nat.eqb (length relatedDataErrors) 0
  then "Product and all related data created successfully"
  else "Product created, but errors occurred with related data: " +:+
       join "; " relatedDataErrors.

(** What follows a successful insert of the product row. *)
Definition after_insert (productInput : ValidatedProductData) (newProduct : Obj)
    : M Response :=
  let newProductId := get "products_id" newProduct in
  relatedDataErrors <- insert_related false newProductId (related productInput) [] ;;
  paths <- getProductRelatedPaths newProductId ;;
  let pathsToRevalidate :=
    push_if paths.2
      (push_if paths.1
         ["/"; "/products"; "/products/" +:+ string_of (get "slug" newProduct)]) in
  revalidateCustomerApp
    {| path := None; paths := Some (array_from_set pathsToRevalidate) |} ;;
  ret (json (Created (responseMessage relatedDataErrors) newProduct
               (errors_field relatedDataErrors)) 201).

Definition POST (req : Request) : M Response :=
  getSupabaseAdmin ;;
  try_catch
    (body <- req_json req ;;
     match createProductSchema (Some body) with
     | inl issues =>
         ret (json (ErrorBody "Invalid product data" (Some (Validation (flatten issues)))) 400)
     | inr productInput =>
         let baseSlug := slugify (string_of (get "name" (coreProductData productInput))) in
         let slug := baseSlug in
         r <- await (insert_select_single "products"
                       (dataToInsert slug (seo_keywords productInput)
                          (coreProductData productInput))
                       ["products_id"; "slug"; "category_id"; "brand_id"]) ;;
         match error r, data r with
         | None, Some newProduct => after_insert productInput newProduct
         | insertError, _ => ret (insert_failed insertError)
         end
     end)
    unexpected.

End Route.
End ProductsCreate.

(** ** api/products/update/route.ts *)

Module ProductsUpdate.
Import Js Pg Node Supabase Zod Revalidate RelatedData Http.

Record ValidatedUpdateData := {
  products_id : Val;
  related : Related;
  seo_keywords : Val;
  coreUpdateData : Obj
}.

Section Route.
Variable lib : Lib.
(** [slugify(name, { lower: true, strict: true })], from the slugify
    package. *)
Variable slugify : string -> string.

(** [updateProductSchema], with the destructuring that follows it:
    [products_id], the seven arrays, [seo_keywords], and the remaining
    fields as [coreUpdateData]. *)
Definition updateProductSchema : Schema ValidatedUpdateData :=
  fun input =>
    match input with
    | Some (JObj fields) =>
        pmap (fun '(id, (core, (kw, rel))) =>
                {| products_id := id; related := rel; seo_keywords := kw;
                   coreUpdateData := core |})
          (both
            (under (Key "products_id")
               (z_number [(int, None)] (lookup_field "products_id" fields)))
          (both
            (object_fields
               [("name", optional (z_string lib [(smin 2, None)]));
                ("slug", optional (z_string lib []));
                ("description", nullable (optional (z_string lib [])));
                ("short_description", nullable (optional (z_string lib [])));
                ("price", optional (z_coerce_number lib [(min 0, None)]));
                ("quantity", optional (z_coerce_number lib [(int, None); (min 0, None)]));
                ("sku", nullable (optional (z_string lib [])));
                ("status", optional (z_enum ["active"; "draft"]));
                ("mark", nullable (optional (z_enum marks)));
                ("category_id", nullable (optional (z_coerce_number lib [(int, None)])));
                ("brand_id", nullable (optional (z_coerce_number lib [(int, None)])));
                ("subcategory_id", nullable (optional (z_coerce_number lib [(int, None)])));
                ("compare_at_price", nullable (optional (z_coerce_number lib [])));
                ("cost_price", optional (nullable (z_coerce_number lib [(positive, None)])));
                ("currency_code", optional (z_string lib []));
                ("initial_stock",
                   optional (nullable (z_coerce_number lib [(int, None); (min 0, None)])));
                ("track_inventory", optional z_boolean);
                ("backorderable", optional z_boolean);
                ("low_stock_threshold", optional (z_coerce_number lib [(min 0, None)]));
                ("reserved_quantity", optional (z_coerce_number lib [(min 0, None)]));
                ("max_stock", nullable (optional (z_coerce_number lib [(min 0, None)])));
                ("weight", nullable (optional (z_coerce_number lib [])));
                ("weight_unit", nullable (optional (z_string lib [])));
                ("dimensions_length", nullable (optional (z_coerce_number lib [])));
                ("dimensions_width", nullable (optional (z_coerce_number lib [])));
                ("dimensions_height", nullable (optional (z_coerce_number lib [])));
                ("dimensions_unit", nullable (optional (z_string lib [])));
                ("shipping_required", optional z_boolean);
                ("shipping_class", nullable (optional (z_string lib [])));
                ("seo_title", nullable (optional (z_string lib [])));
                ("seo_description", nullable (optional (z_string lib [])));
                ("featured_in_collection_slug", nullable (optional (z_string lib [])))]
               fields)
            (both
              (under (Key "seo_keywords")
                 (nullable (optional (z_string lib [])) (lookup_field "seo_keywords" fields)))
              (related_arrays lib fields))))
    | _ => issue "invalid_type" None
    end.

(** "Regenerate slug if name changes": [newSlug] is computed whenever the
    payload has a name. *)
Definition newSlug_of (coreUpdateData : Obj) : option string :=
  if truthy (get "name" coreUpdateData)
  then Some (slugify (string_of (get "name" coreUpdateData)))
  else None.

(** [coreUpdateData.slug = newSlug] *)
Definition with_slug (newSlug : option string) (coreUpdateData : Obj) : Obj :=
  match newSlug with
  | Some s => <["slug" := VStr s]> coreUpdateData
  | None => coreUpdateData
  end.

(** The patch of the [products] row: the fields of the payload, the
    conditional ones, the time stamp; undefined keys removed. *)
Definition dataToUpdate (updated_at : string) (seo_keywords : Val) (coreUpdateData : Obj)
    : Obj :=
  let c := coreUpdateData in
  delete_undefined
    (assign
       [("sku", get "sku" c);
        ("mark", get "mark" c);
        ("category_id", get "category_id" c);
        ("brand_id", get "brand_id" c);
        ("subcategory_id", get "subcategory_id" c);
        ("compare_at_price", get "compare_at_price" c);
        ("cost_price", get "cost_price" c);
        ("initial_stock", get "initial_stock" c);
        ("max_stock", get "max_stock" c);
        ("weight", get "weight" c);
        ("weight_unit", if truthy (get "weight" c) then get "weight_unit" c else VUndef);
        ("dimensions_length", get "dimensions_length" c);
        ("dimensions_width", get "dimensions_width" c);
        ("dimensions_height", get "dimensions_height" c);
        ("dimensions_unit",
           if truthy (get "dimensions_length" c) || truthy (get "dimensions_width" c)
              || truthy (get "dimensions_height" c)
           then get "dimensions_unit" c else VUndef);
        ("shipping_class", get "shipping_class" c);
        ("seo_title", get "seo_title" c);
        ("seo_description", get "seo_description" c);
        ("seo_keywords", keywords seo_keywords VUndef);
        ("featured_in_collection_slug", get "featured_in_collection_slug" c);
        ("updated_at", VStr updated_at)]
       c).

(** The six deletions that are always set up, and the two that are added
    when variant ids were fetched. *)
Definition deletePromises (products_id : Val) (variantIdsToDelete : list Val)
    : list (Promise (Result unit)) :=
  [delete_eq "product_images" "product_id" products_id;
   delete_eq "product_features" "product_id" products_id;
   delete_eq "product_tags" "product_id" products_id;
   delete_eq "product_faqs" "product_id" products_id;
   delete_eq "product_testimonial_videos" "product_id" products_id;
   delete_eq "customer_testimonials" "products_id" products_id] ++
  (if Nat.ltb 0 (length variantIdsToDelete)
   then [delete_in "variant_attributes" "variant_id" variantIdsToDelete;
         delete_in "variant_features" "variant_id" variantIdsToDelete]
   else []).

(** [deleteResults.forEach((result, index) => { if (result.status ===
    'rejected') relatedDataErrors.push(`Error deleting related data group
    ${index}: ${result.reason?.message || 'Unknown error'}`) })] *)
Definition rejection_text (index : nat) (reason : Exn) : string :=
  "Error deleting related data group " +:+ pretty index +:+ ": " +:+
  match exn_message reason with
  | Some m => if String.eqb m "" then "Unknown error" else m
  | None => "Unknown error"
  end.

Definition rejections {A} (deleteResults : list (Settled A)) : list string :=
  concat (imap (fun index result =>
                  match result with
                  | Rejected reason => [rejection_text index reason]
                  | Fulfilled _ => []
                  end) deleteResults).

(** [relatedDataErrors.some(e => e.includes('variant_attributes') ||
    e.includes('variant_features'))] *)
Definition mentions_nested (relatedDataErrors : list string) : bool :=
  existsb (fun e => includes "variant_attributes" e || includes "variant_features" e)
    relatedDataErrors.

(** The deletion phase: fetch the variant ids, run the deletions, then
    delete the variants themselves if the guard allows it. *)
Definition delete_related (products_id : Val) : M (list string) :=
  r <- await (select_eq "product_variants" ["id"] "product_id" products_id) ;;
  let relatedDataErrors :=
    match error r with
    | Some variantIdsError => ["Failed to fetch variant IDs: " +:+ message variantIdsError]
    | None => []
    end in
  let variantIdsToDelete :=
    match data r with
    | Some variantIdsData => map (get "id") variantIdsData
    | None => []
    end in
  deleteResults <- allSettled (deletePromises products_id variantIdsToDelete) ;;
  let relatedDataErrors := relatedDataErrors ++ rejections deleteResults in
  if Nat.ltb 0 (length variantIdsToDelete) && negb (mentions_nested relatedDataErrors)
  then
    r <- await (delete_in "product_variants" "id" variantIdsToDelete) ;;
    match error r with
    | Some deleteVariantsError =>
        ret (relatedDataErrors ++ ["Error deleting variants: " +:+ message deleteVariantsError])
    | None => ret relatedDataErrors
    end
  else ret relatedDataErrors.

(** The response when the update of the product row fails. *)
Definition update_failed (updateError : PgError) : Response :=
  if String.eqb (code updateError) "23505"
  then json (ErrorBody ("Product update failed: " +:+
                        match details updateError with
                        | Some d => if String.eqb d "" then "Duplicate value exists" else d
                        | None => "Duplicate value exists"
                        end) None) 409
  else json (ErrorBody ("Failed to update product: " +:+ message updateError) None) 500.

Definition responseMessage (relatedDataErrors : list string) : string :=
  if Nat.eqb (length relatedDataErrors) 0
  then "Product and all related data updated successfully"
  else "Product updated, but errors occurred with related data: " +:+
       join "; " relatedDataErrors.

(** The paths of the revalidation request.  The push of the old product
    path is commented out in the source. *)
Definition pathsToRevalidate (newSlug : option string) (oldSlug : Val)
    (oldPaths newPaths : option string * option string) : list string :=
  let shown :=
    match newSlug with
    | Some s => if String.eqb s "" then string_of oldSlug else s
    | None => string_of oldSlug
    end in
  push_if newPaths.2
    (push_if newPaths.1
       (push_if oldPaths.2
          (push_if oldPaths.1
             ["/"; "/products"; "/products/" +:+ shown]))).

(** What follows the validation. *)
Definition update (input : ValidatedUpdateData) : M Response :=
  let products_id := products_id input in
  let newSlug := newSlug_of (coreUpdateData input) in
  let coreUpdateData := with_slug newSlug (coreUpdateData input) in
  r <- await (select_eq_single "products" ["slug"; "category_id"; "brand_id"]
                "products_id" products_id) ;;
  match error r, data r with
  | None, Some currentProductData =>
      let oldSlug := get "slug" currentProductData in
      oldPaths <- getProductRelatedPaths products_id ;;
      updated_at <- Date_now ;;
      let dataToUpdate := dataToUpdate updated_at (seo_keywords input) coreUpdateData in
      relatedDataErrors <- delete_related products_id ;;
      r <- await (update_eq "products" dataToUpdate "products_id" products_id) ;;
      match error r with
      | Some updateError => ret (update_failed updateError)
      | None =>
          relatedDataErrors <-
            insert_related true products_id (related input) relatedDataErrors ;;
          newPaths <- getProductRelatedPaths products_id ;;
          revalidateCustomerApp
            {| path := None;
               paths := Some (array_from_set
                                (pathsToRevalidate newSlug oldSlug oldPaths newPaths)) |} ;;
          ret (json (Updated (responseMessage relatedDataErrors)
                       (<["products_id" := products_id]> coreUpdateData)
                       (errors_field relatedDataErrors)) 200)
      end
  | _, _ => ret (json (ErrorBody "Could not find product to update" None) 404)
  end.

Definition POST (req : Request) : M Response :=
  getSupabaseAdmin ;;
  try_catch
    (body <- req_json req ;;
     match updateProductSchema (Some body) with
     | inl issues =>
         ret (json (ErrorBody "Invalid product data" (Some (Validation (flatten issues)))) 400)
     | inr input => update input
     end)
    unexpected.

End Route.
End ProductsUpdate.

(** ** api/categories/delete/route.ts *)

Module CategoriesDelete.
Import Js Pg Node Supabase Zod Revalidate RelatedData Http.

Definition deleteCategorySchema : Schema Obj :=
  z_object [("id", z_number [(int, None)])].

(** [getCategorySlugById(supabase, categoryId)] *)
Definition getCategorySlugById (categoryId : Val) : M (option string) :=
  if negb (truthy categoryId) then ret None
  else
    r <- await (select_eq_maybeSingle "categories" ["slug"] "categories_id" categoryId) ;;
    match error r with
    | Some _ => ret None
    | None =>
        match data r with
        | Some row =>
            match get "slug" row with
            | VStr s => ret (Some s)
            | _ => ret None
            end
        | None => ret None
        end
    end.

(** The response when the delete fails. *)
Definition delete_failed (deleteError : PgError) : Response :=
  if String.eqb (code deleteError) "23503"
  then json (ErrorBody
               ("Cannot delete category: It is referenced by other records " +:+
                "(e.g., products, subcategories). Details: " +:+
                default "null" (details deleteError)) None) 409
  else json (ErrorBody ("Failed to delete category: " +:+ message deleteError) None) 500.

Definition POST (req : Request) : M Response :=
  getSupabaseAdmin ;;
  try_catch
    (body <- req_json req ;;
     match deleteCategorySchema (Some body) with
     | inl issues =>
         ret (json (ErrorBody "Invalid category ID provided"
                      (Some (Validation (flatten issues)))) 400)
     | inr validated =>
         let categoryId := get "id" validated in
         r <- await (select_eq_single "categories" ["slug"; "parent_category_id"]
                       "categories_id" categoryId) ;;
         match error r, data r with
         | None, Some categoryToDelete =>
             let slugToDelete := get "slug" categoryToDelete in
             let parentId := get "parent_category_id" categoryToDelete in
             r <- await (delete_eq "categories" "categories_id" categoryId) ;;
             match error r with
             | Some deleteError => ret (delete_failed deleteError)
             | None =>
                 let pathsToRevalidate :=
                   ["/"; "/categories"] ++
                   (if truthy slugToDelete
                    then ["/category/" +:+ string_of slugToDelete] else []) in
                 pathsToRevalidate <-
                   (if truthy parentId
                    then
                      parentSlug <- getCategorySlugById parentId ;;
                      match parentSlug with
                      | Some s =>
                          if String.eqb s "" then ret pathsToRevalidate
                          else ret (pathsToRevalidate ++ ["/category/" +:+ s])
                      | None => ret pathsToRevalidate
                      end
                    else ret pathsToRevalidate) ;;
                 (if Nat.ltb 0 (length (array_from_set pathsToRevalidate))
                  then revalidateCustomerApp
                         {| path := None;
                            paths := Some (array_from_set pathsToRevalidate) |}
                  else ret tt) ;;
                 ret (json (MessageBody "Category deleted successfully") 200)
             end
         | _, _ =>
             ret (json (ErrorBody
                          "Category not found or error fetching data before deletion."
                          None) 404)
         end
     end)
    unexpected.

End CategoriesDelete.

(** ** api/products/delete/route.ts *)

Module ProductsDelete.
Import Js Pg Node Supabase Zod Revalidate RelatedData Http.

(** [const { id } = await req.json()]: destructuring [null] throws a
    [TypeError]; an object gives its property; any other document has no
    such property. *)
Definition destructure_id (body : Json) : M (option Json) :=
  match body with
  | JNull =>
      throw (new_Error
               "Cannot destructure property 'id' of '(intermediate value)' as it is null.")
  | JObj fields => ret (lookup_field "id" fields)
  | _ => ret None
  end.

(** [!id || typeof id !== 'number'] fails: the identifier is a number other
    than zero. *)
Definition valid_id (id : option Json) : option Val :=
  match id with
  | Some (JNum q) => if truthy (VNum q) then Some (VNum q) else None
  | _ => None
  end.

Definition POST (req : Request) : M Response :=
  getSupabaseAdmin ;;
  try_catch
    (body <- req_json req ;;
     id <- destructure_id body ;;
     match valid_id id with
     | None => ret (json (ErrorBody "Invalid product ID" None) 400)
     | Some id =>
         paths <- getProductRelatedPaths id ;;
         r <- await (delete_eq "products" "products_id" id) ;;
         match error r with
         | Some deleteError =>
             ret (json (ErrorBody ("Failed to delete product: " +:+ message deleteError)
                          None) 500)
         | None =>
             let pathsToRevalidate := push_if paths.2 (push_if paths.1 ["/"; "/products"]) in
             revalidateCustomerApp
               {| path := None; paths := Some (array_from_set pathsToRevalidate) |} ;;
             ret (json (MessageBody "Product deleted successfully") 200)
         end
     end)
    unexpected.

End ProductsDelete.

(** ** categories/create/page.tsx: the slug probe *)

Module CategoryCreatePage.
Import Js Pg Node Supabase.

(** [makeUniqueSlug(baseSlug)], the loop
    [while (!isUnique) { ... }] with its variables [slug] and [counter].
    Each turn asks for the category with the slug, [.single()]; without
    [data] the slug is returned, otherwise the next candidate is
    [`${baseSlug}-${counter}`].  [turns] bounds the number of turns; [None]
    says that the bound was reached. *)
Fixpoint makeUniqueSlug_loop (turns : nat) (baseSlug slug : string) (counter : nat)
    : M (option string) :=
  match turns with
  | O => ret None
  | S turns' =>
      r <- await (select_eq_single "categories" ["slug"] "slug" (VStr slug)) ;;
      match data r with
      | None => ret (Some slug)
      | Some _ =>
          makeUniqueSlug_loop turns' baseSlug (baseSlug +:+ "-" +:+ pretty counter)
            (S counter)
      end
  end.

Definition makeUniqueSlug (turns : nat) (baseSlug : string) : M (option string) :=
  makeUniqueSlug_loop turns baseSlug baseSlug 1.

End CategoryCreatePage.
(* ===================================================================== *)
(** * A sample shop *)
(* ===================================================================== *)

(** Concrete worlds and requests for the closed examples. *)
Module Sample.
Import Js Pg Node.

(** Stand-ins for what the packages compute.  A string is a URL when it
    starts with a scheme of the web; strings and arrays do not convert to
    numbers. *)
Definition lib : Zod.Lib :=
  {| Zod.is_url := fun s => String.prefix "http://" s || String.prefix "https://" s;
     Zod.string_to_number := fun _ => None;
     Zod.array_to_number := fun _ => None |}.

(** A stand-in for [slugify(name, { lower: true, strict: true })] on names
    made of letters, digits, spaces and hyphens: hyphens count as spaces,
    other characters are dropped, runs of spaces become one hyphen. *)
Definition slugify (name : string) : string :=
  toLowerCase
    (str (replace_runs is_space ["-"%char] false
            (drop_trailing is_space
               (drop_leading is_space
                  (remove_all
                     (fun c => negb (is_upper c || is_lower c || is_digit c || is_space c))
                     (map (fun c => if is_hyphen c then " "%char else c)
                        (chars name))))))).

Definition environment : Env :=
  {| CUSTOMER_APP_BASE_URLS := Some "https://shop.example, https://eu.shop.example ,";
     REVALIDATION_SECRET := Some "s3cret";
     SUPABASE_SERVICE_ROLE_KEY := Some "service-role-key" |}.

(** The first storefront answers; the second cannot be reached. *)
Definition network (url : string) : FetchOutcome :=
  if String.prefix "https://eu." url
  then FetchThrows (new_Error "fetch failed")
  else Responds {| ok := true; status := 200; text := "revalidated";
                   parses := true |}.

Definition hats : Obj :=
  object [("categories_id", num 10); ("name", VStr "Hats"); ("slug", VStr "hats")].

Definition acme : Obj :=
  object [("brands_id", num 20); ("name", VStr "Acme"); ("slug", VStr "acme")].

Definition red_hat : Obj :=
  object [("products_id", num 1); ("name", VStr "Red Hat"); ("slug", VStr "red-hat");
          ("category_id", num 10); ("brand_id", VNull)].

Definition blue_hat : Obj :=
  object [("products_id", num 2); ("name", VStr "Blue Hat"); ("slug", VStr "blue-hat");
          ("category_id", num 10); ("brand_id", num 20)].

Definition image (id : Z) (product : Z) (url : string) (index : nat) : Obj :=
  object [("id", num id); ("product_id", num product); ("url", VStr url);
          ("is_primary", VBool (Nat.eqb index 0)); ("sort_order", index_num index)].

Definition shop : Db :=
  list_to_map
    [("categories", [hats]);
     ("brands", [acme]);
     ("products", [red_hat; blue_hat]);
     ("product_images",
        [image 1 2 "https://img.example/a.png" 0;
         image 2 2 "https://img.example/b.png" 1;
         image 3 2 "https://img.example/c.png" 2;
         image 4 1 "https://img.example/r.png" 0]);
     ("product_variants",
        [object [("id", num 7); ("product_id", num 2); ("name", VStr "Large")]]);
     ("variant_attributes",
        [object [("id", num 70); ("variant_id", num 7); ("name", VStr "Size");
                 ("value", VStr "L")]])].

Definition world (faults : list Fault) : World :=
  {| env := environment; now := "2025-01-01T00:00:00.000Z"; db := shop;
     faults := faults; net := network;
     statements := []; notified := []; requests := []; console := [] |}.

Definition jnum (z : Z) : Zod.Json := Zod.JNum (Qc_of_Z z).

(** Requests. *)
Definition create_red_hat : Zod.Json :=
  Zod.JObj [("name", Zod.JStr "Red Hat"); ("price", jnum 10)].

Definition create_winter_coat : Zod.Json :=
  Zod.JObj
    [("name", Zod.JStr "Winter Coat"); ("price", jnum 120); ("category_id", jnum 10);
     ("images", Zod.JArr [Zod.JStr "https://img.example/x.png";
                          Zod.JStr "https://img.example/y.png"]);
     ("tags", Zod.JArr [Zod.JStr " warm "]);
     ("variants",
        Zod.JArr
          [Zod.JObj [("name", Zod.JStr "Large");
                     ("attributes",
                        Zod.JArr [Zod.JObj [("name", Zod.JStr "Size");
                                            ("value", Zod.JStr "L")]])];
           Zod.JObj [("name", Zod.JStr "Small");
                     ("attributes",
                        Zod.JArr [Zod.JObj [("name", Zod.JStr "Size");
                                            ("value", Zod.JStr "S")]])]])].


Definition restyle_blue_hat : Zod.Json :=
  Zod.JObj
    [("products_id", jnum 2); ("name", Zod.JStr "Navy Hat");
     ("images", Zod.JArr [Zod.JStr "https://img.example/x.png";
                          Zod.JStr "https://img.example/y.png"])].


Definition underprice_blue_hat : Zod.Json :=
  Zod.JObj [("products_id", jnum 2); ("price", jnum (-5))].


Definition delete_hats : Zod.Json := Zod.JObj [("id", jnum 10)].

Definition timeout : PgError :=
  {| code := "57014"; message := "canceling statement due to statement timeout";
     details := None |}.

(** The database cannot be reached: the promise of the statement is
    rejected. *)
Definition unreachable : Exn :=
  {| syntax_error := false; exn_message := Some "fetch failed" |}.




(** More requests. *)
Definition create_x : Zod.Json :=
  Zod.JObj [("name", Zod.JStr "X"); ("price", jnum 10)].

Definition update_unknown : Zod.Json := Zod.JObj [("products_id", jnum 99)].

Definition delete_unknown : Zod.Json := Zod.JObj [("id", jnum 99)].


Definition delete_red_hat : Zod.Json := Zod.JObj [("id", jnum 1)].

Definition delete_by_text : Zod.Json := Zod.JObj [("id", Zod.JStr "1")].

End Sample.

(* ===================================================================== *)
(** * Runs of the routes: what is observed *)
(* ===================================================================== *)

(** The vocabulary of the statements below: the faults a world holds, the
    log entries a run adds, the shape of a best-effort insertion, the
    shape of a slug. *)
Module Runs.
Import Js Pg Node Supabase Zod Revalidate RelatedData Http.

(** The database runs every statement to come. *)
Definition quiet (w : World) : Prop := Forall (fun f => f = NoFault) (faults w).

(** No promise of a statement to come is rejected. *)
Definition settles (w : World) : Prop :=
  Forall (fun f => forall reason, f <> Rejects reason) (faults w).

Definition configured (w : World) : Prop :=
  absent (SUPABASE_SERVICE_ROLE_KEY (env w)) = false.

(** The world after a statement, and how the statement settled. *)
Definition sent (s : Stmt) (w : World) : World := (send s w).2.
Definition answer (s : Stmt) (w : World) : Settled (PgError + list Obj) := (send s w).1.

(** Nothing but the logs of the notifier differs between two worlds. *)
Definition same_backend (w w' : World) : Prop :=
  env w' = env w /\ now w' = now w /\ db w' = db w /\ faults w' = faults w /\
  net w' = net w /\ statements w' = statements w.

(** The request that the notifier sends to one base URL. *)
Definition request_to (secret : string) (payload : RevalidationPayload)
    (baseUrl : string) : HttpRequest :=
  {| Node.url := baseUrl +:+ "/api/revalidate";
     Node.authorization := "Bearer " +:+ secret;
     Node.body := payload |}.

(** The base URLs that the notifier reads from the configuration. *)
Definition configured_urls (e : Env) : list string :=
  List.filter (fun url => negb (String.eqb url ""))
    (map trim (split "," (default "" (CUSTOMER_APP_BASE_URLS e)))).

(** What the notifier writes to the console. *)
Definition notifier_console (e : Env) (lines : list LogLine) : Prop :=
  if absent (CUSTOMER_APP_BASE_URLS e) then lines = [ErrorBaseUrlsNotSet]
  else if absent (REVALIDATION_SECRET e) then lines = [ErrorSecretNotSet]
  else if Nat.eqb (length (configured_urls e)) 0 then lines = [WarnNoValidUrls]
  else exists before, lines = before ++ [LogFinished].

(** The requests that the notifier sends. *)
Definition notifier_requests (e : Env) (payload : RevalidationPayload) : list HttpRequest :=
  if absent (CUSTOMER_APP_BASE_URLS e) || absent (REVALIDATION_SECRET e)
  then []
  else map (request_to (default "" (REVALIDATION_SECRET e)) payload) (configured_urls e).

(** The world after a list of statements, and the log entries they add. *)
Fixpoint sends (ss : list Stmt) (w : World) : World :=
  match ss with
  | [] => w
  | s :: ss' => sends ss' (sent s w)
  end.

Fixpoint entries (ss : list Stmt) (w : World) : list Entry :=
  match ss with
  | [] => []
  | s :: ss' => {| stmt := s; outcome := answer s w |} :: entries ss' (sent s w)
  end.

(** The table a statement writes to. *)
Definition writes (s : Stmt) : option string :=
  match s with
  | Insert t _ | Update t _ _ | Delete t _ => Some t
  | Select _ _ | SelectRelatedSlugs _ => None
  end.

(** An equation between closed terms, checked by evaluation. *)
Ltac evaluated :=
  try unfold configured;
  lazymatch goal with |- @eq ?T _ ?r => vm_cast_no_check (@eq_refl T r) end.

(** The value of a closed term of a sum type, named. *)
Ltac right_value t name :=
  let v := eval vm_compute in t in
  lazymatch v with inr ?x => pose (name := x) end.


(** Membership in a list that is written out. *)
Ltac in_list := apply (bool_decide_unpack _); vm_compute; exact I.

(** One collection: nothing is sent when it is empty; otherwise its rows
    are sent in one insert, whose failure is recorded under the label of
    the collection. *)
Inductive attempt (label t : string) (rows : list Obj) : list Entry -> list string -> Prop :=
  | attempt_nothing :
      rows = [] -> attempt label t rows [] []
  | attempt_stored stored :
      rows <> [] ->
      attempt label t rows
        [{| stmt := Insert t rows; outcome := Fulfilled (inr stored) |}] []
  | attempt_failed e :
      rows <> [] ->
      attempt label t rows
        [{| stmt := Insert t rows; outcome := Fulfilled (inl e) |}]
        [label +:+ ": " +:+ message e].

(** One variant: a failed insert is recorded and nothing else is sent for
    this variant; after a successful insert its attributes and its features
    are attempted with the key of the new row. *)
Inductive variant_attempt (clear_id : bool) (product_id : Val) (v : Variant)
    : list Entry -> list string -> Prop :=
  | variant_failed e :
      variant_attempt clear_id product_id v
        [{| stmt := Insert "product_variants" [variantInsertData clear_id product_id v];
            outcome := Fulfilled (inl e) |}]
        [variant_error_text v (Some e)]
  | variant_stored row la ea lf ef :
      attempt ("Variant Attributes (" +:+ variant_name v +:+ ")") "variant_attributes"
        (attributesToInsert (get "id" row) (attributes v)) la ea ->
      attempt ("Variant Features (" +:+ variant_name v +:+ ")") "variant_features"
        (variantFeaturesToInsert (get "id" row) (variant_features v)) lf ef ->
      variant_attempt clear_id product_id v
        ({| stmt := Insert "product_variants" [variantInsertData clear_id product_id v];
            outcome := Fulfilled (inr [row]) |} :: la ++ lf)
        (ea ++ ef).

(** The variants, one after the other, each on its own. *)
Inductive variants_attempt (clear_id : bool) (product_id : Val)
    : list Variant -> list Entry -> list string -> Prop :=
  | variants_done : variants_attempt clear_id product_id [] [] []
  | variants_next v vs l e ls es :
      variant_attempt clear_id product_id v l e ->
      variants_attempt clear_id product_id vs ls es ->
      variants_attempt clear_id product_id (v :: vs) (l ++ ls) (e ++ es).

(** The related data of a product: the six collections and the variants,
    each attempted whatever became of the others. *)
Definition best_effort (clear_id : bool) (product_id : Val) (input : Related)
    (log : list Entry) (errors : list string) : Prop :=
  exists l1 e1 l2 e2 l3 e3 l4 e4 l5 e5 l6 e6 l7 e7,
    attempt "Images" "product_images" (imagesToInsert product_id (images input)) l1 e1 /\
    attempt "Features" "product_features"
      (featuresToInsert product_id (features input)) l2 e2 /\
    attempt "Tags" "product_tags" (tagsToInsert product_id (tags input)) l3 e3 /\
    attempt "FAQs" "product_faqs" (faqsToInsert product_id (faqs input)) l4 e4 /\
    attempt "Testimonial Videos" "product_testimonial_videos"
      (videosToInsert product_id (testimonial_videos input)) l5 e5 /\
    attempt "Customer Testimonials" "customer_testimonials"
      (testimonialsToInsert product_id (customer_testimonials input)) l6 e6 /\
    variants_attempt clear_id product_id (variants input) l7 e7 /\
    log = l1 ++ l2 ++ l3 ++ l4 ++ l5 ++ l6 ++ l7 /\
    errors = e1 ++ e2 ++ e3 ++ e4 ++ e5 ++ e6 ++ e7.

Definition paths_of (r : PgError + list Obj) : option string * option string :=
  match r with
  | inr [row] =>
      (match get "categories.slug" row with
       | VStr s => if String.eqb s "" then None else Some ("/category/" +:+ s)
       | _ => None
       end,
       match get "brands.slug" row with
       | VStr s => if String.eqb s "" then None else Some ("/brand/" +:+ s)
       | _ => None
       end)
  | _ => (None, None)
  end.

Definition related_paths_query (pid : Val) : Stmt :=
  SelectRelatedSlugs (Eq "products_id" pid).

(** The statements behind [deletePromises]. *)
Definition delete_statements (pid : Val) (ids : list Val) : list Stmt :=
  [Delete "product_images" (Eq "product_id" pid);
   Delete "product_features" (Eq "product_id" pid);
   Delete "product_tags" (Eq "product_id" pid);
   Delete "product_faqs" (Eq "product_id" pid);
   Delete "product_testimonial_videos" (Eq "product_id" pid);
   Delete "customer_testimonials" (Eq "products_id" pid)] ++
  (if Nat.ltb 0 (length ids)
   then [Delete "variant_attributes" (In_ "variant_id" ids);
         Delete "variant_features" (In_ "variant_id" ids)]
   else []).

(** How each statement of a list settled, seen through [f]. *)
Fixpoint settled_as {A} (f : PgError + list Obj -> A) (ss : list Stmt) (w : World)
    : list (Settled A) :=
  match ss with
  | [] => []
  | s :: ss' =>
      match answer s w with
      | Fulfilled r => Fulfilled (f r)
      | Rejected e => Rejected e
      end :: settled_as f ss' (sent s w)
  end.

(** The tables that hold the related data of a product. *)
Definition related_tables : list string :=
  ["product_images"; "product_features"; "product_tags"; "product_faqs";
   "product_testimonial_videos"; "customer_testimonials";
   "product_variants"; "variant_attributes"; "variant_features"].

Definition writes_to (tables : list string) (s : Stmt) : Prop :=
  match writes s with
  | Some t => t ∈ tables
  | None => True
  end.

(** The select of the current product, and the update of its row. *)
Definition current_query (input : ProductsUpdate.ValidatedUpdateData) : Stmt :=
  Select "products" (Eq "products_id" (ProductsUpdate.products_id input)).

Definition core_update (slugify : string -> string)
    (input : ProductsUpdate.ValidatedUpdateData) (w : World) : Stmt :=
  Update "products"
    (ProductsUpdate.dataToUpdate (now w) (ProductsUpdate.seo_keywords input)
       (ProductsUpdate.with_slug
          (ProductsUpdate.newSlug_of slugify (ProductsUpdate.coreUpdateData input))
          (ProductsUpdate.coreUpdateData input)))
    (Eq "products_id" (ProductsUpdate.products_id input)).

(** The statements up to the update of the product row. *)
Definition before_update (input : ProductsUpdate.ValidatedUpdateData) (rest : list Stmt)
    : list Stmt :=
  let pid := ProductsUpdate.products_id input in
  current_query input :: related_paths_query pid ::
  Select "product_variants" (Eq "product_id" pid) ::
  Delete "product_images" (Eq "product_id" pid) :: rest.

(** The payload handed to the notifier at the end of an update. *)
Definition revalidation (slugify : string -> string)
    (input : ProductsUpdate.ValidatedUpdateData) (cur : Obj)
    (oldPaths newPaths : option string * option string) : RevalidationPayload :=
  {| path := None;
     paths := Some (array_from_set
                      (ProductsUpdate.pathsToRevalidate
                         (ProductsUpdate.newSlug_of slugify (ProductsUpdate.coreUpdateData input))
                         (get "slug" cur) oldPaths newPaths)) |}.

Ltac not_in_list :=
  let H := fresh in intros H; apply (bool_decide_pack _) in H; vm_compute in H; exact H.


Definition core_insert (slugify : string -> string)
    (productInput : ProductsCreate.ValidatedProductData) : Stmt :=
  Insert "products"
    [ProductsCreate.dataToInsert
       (slugify (string_of (get "name" (ProductsCreate.coreProductData productInput))))
       (ProductsCreate.seo_keywords productInput)
       (ProductsCreate.coreProductData productInput)].

(** The category path and the brand path of a product, as stored. *)
Definition stored_paths (db : Db) (pid : Val) : option string * option string :=
  paths_of (exec (related_paths_query pid) db).1.


(** ** The shape of a slug

    Lower-case letters and digits, separated by single hyphens, with no
    hyphen at either end.  [prev_hyphen] says that the previous character
    was a hyphen (or that the string starts here). *)
Fixpoint slug_shape (prev_hyphen : bool) (l : list ascii) : bool :=
  match l with
  | [] => true
  | c :: l' =>
      if is_hyphen c then negb prev_hyphen && slug_shape true l'
      else is_az09 c && slug_shape false l'
  end.

Definition ends_with (P : ascii -> bool) (l : list ascii) : bool :=
  match last l with
  | Some c => P c
  | None => false
  end.

Definition is_slug (s : string) : bool :=
  slug_shape true (chars s) && negb (ends_with is_hyphen (chars s)).

Ltac by_cases_on_char c :=
  destruct c as [[] [] [] [] [] [] [] []]; vm_compute; intuition congruence.


(** ** Further vocabulary *)


(** What the [catch] block of the handlers answers. *)
Definition caught (error : Exn) : Response :=
  if syntax_error error
  then json (ErrorBody "Invalid JSON body" None) 400
  else json (ErrorBody "An unexpected error occurred"
               (Some (Message (exn_message error)))) 500.

(** The patch that the update route sends for the product row. *)
Definition product_patch (slugify : string -> string)
    (input : ProductsUpdate.ValidatedUpdateData) (w : World) : Obj :=
  ProductsUpdate.dataToUpdate (now w) (ProductsUpdate.seo_keywords input)
    (ProductsUpdate.with_slug
       (ProductsUpdate.newSlug_of slugify (ProductsUpdate.coreUpdateData input))
       (ProductsUpdate.coreUpdateData input)).

(** The columns that the update route does not copy from the payload as
    they are. *)
Definition computed_columns : list string :=
  ["slug"; "weight_unit"; "dimensions_unit"; "seo_keywords"; "updated_at"].


(** The candidates of [makeUniqueSlug], in the order in which they are
    tried: the base slug, then the base slug with the suffixes -1, -2, ... *)
Definition candidate (baseSlug : string) (k : nat) : string :=
  match k with
  | O => baseSlug
  | S _ => baseSlug +:+ "-" +:+ pretty k
  end.

(** The stored categories that have a slug. *)
Definition holders (slug : string) (db : Db) : list Obj :=
  List.filter (matches (Eq "slug" (VStr slug))) (rows_of "categories" db).

(** The probe of one candidate. *)
Definition probe (slug : string) : Stmt := Select "categories" (Eq "slug" (VStr slug)).

End Runs.

(* ===================================================================== *)
(** * Lemmas *)
(* ===================================================================== *)

Module Facts.
Import Js Pg Node Supabase Zod Revalidate RelatedData Http Runs.
Open Scope js_scope.

(** ** Slugs *)


Lemma chars_str l : chars (str l) = l.
Proof. apply list_ascii_of_string_of_list_ascii. Qed.

Lemma str_chars s : str (chars s) = s.
Proof. apply string_of_list_ascii_of_string. Qed.

Lemma lower_char_az09 c : is_az09 c || is_hyphen c = true -> lower_char c = c.
Proof. by_cases_on_char c. Qed.

Lemma az09_not_hyphen c : is_az09 c = true -> is_hyphen c = false.
Proof. by_cases_on_char c. Qed.

Lemma az09_not_space c : is_az09 c || is_hyphen c = true -> is_space c = false.
Proof. by_cases_on_char c. Qed.

Lemma word_of_lower c :
  is_word (lower_char c) = true -> is_underscore (lower_char c) = false ->
  is_az09 (lower_char c) = true.
Proof. by_cases_on_char c. Qed.

Lemma az09_kept c :
  is_az09 c || is_hyphen c = true ->
  negb (is_word c || is_space c || is_hyphen c) = false.
Proof. by_cases_on_char c. Qed.

Lemma az09_not_separator c :
  is_az09 c = true -> is_space c || is_underscore c || is_hyphen c = false.
Proof. by_cases_on_char c. Qed.

Lemma hyphen_is_separator c :
  is_hyphen c = true -> is_space c || is_underscore c || is_hyphen c = true.
Proof. by_cases_on_char c. Qed.

Lemma is_hyphen_eq c : is_hyphen c = true -> c = "-"%char.
Proof. unfold is_hyphen. intros H. by apply Ascii.eqb_eq. Qed.

(** Shape of the output of [replace_runs]. *)
Lemma replace_runs_shape P l :
  (forall c, P c = false -> is_az09 c = true) ->
  forall f, slug_shape f (replace_runs P ["-"%char] f l) = true.
Proof.
  intros HP. induction l as [|c l IH]; intros f; simpl; [done|].
  destruct (P c) eqn:Hc.
  - destruct f; simpl; [apply IH|]. apply IH.
  - simpl. rewrite (az09_not_hyphen c), (HP c) by auto. simpl. apply IH.
Qed.

Lemma slug_shape_weaken f l : slug_shape true l = true -> slug_shape f l = true.
Proof.
  destruct l as [|c l]; simpl; [done|].
  destruct (is_hyphen c); simpl; [done|]. done.
Qed.

Lemma slug_shape_chars f l :
  slug_shape f l = true -> Forall (fun c => is_az09 c || is_hyphen c = true) l.
Proof.
  revert f. induction l as [|c l IH]; intros f; simpl; [constructor|].
  destruct (is_hyphen c) eqn:Hh; intros H; apply andb_prop in H as [H1 H2].
  - constructor; [by rewrite Hh, orb_true_r | by eapply IH].
  - constructor; [by rewrite H1 | by eapply IH].
Qed.

Lemma drop_first_if_shape l :
  slug_shape false l = true -> slug_shape true (drop_first_if is_hyphen l) = true.
Proof.
  destruct l as [|c l]; simpl; [done|].
  destruct (is_hyphen c) eqn:Hh; simpl; [done|]. by rewrite Hh.
Qed.

Lemma drop_leading_shape l :
  slug_shape false l = true -> slug_shape true (drop_leading is_hyphen l) = true.
Proof.
  destruct l as [|c l]; simpl; [done|].
  destruct (is_hyphen c) eqn:Hh; simpl.
  - intros H. destruct l as [|d l]; simpl in *; [done|].
    destruct (is_hyphen d) eqn:Hd; simpl in *; [done|]. by rewrite Hd.
  - by rewrite Hh.
Qed.

Lemma drop_last_if_shape l :
  forall f, slug_shape f l = true ->
    slug_shape f (drop_last_if is_hyphen l) = true
    /\ ends_with is_hyphen (drop_last_if is_hyphen l) = false.
Proof.
  induction l as [|c l IH]; intros f H; [done|].
  destruct l as [|d l].
  - simpl in *. destruct (is_hyphen c) eqn:Hh; simpl; [done|].
    rewrite Hh. unfold ends_with. simpl. by rewrite Hh.
  - change (drop_last_if is_hyphen (c :: d :: l))
      with (c :: drop_last_if is_hyphen (d :: l)).
    simpl in H. destruct (is_hyphen c) eqn:Hc.
    + apply andb_prop in H as [Hf H].
      destruct (IH true H) as [IH1 IH2].
      assert (Hd : is_hyphen d = false).
      { simpl in H. destruct (is_hyphen d); [done|done]. }
      split.
      * simpl. rewrite Hc, Hf. done.
      * unfold ends_with in *.
        destruct (drop_last_if is_hyphen (d :: l)) as [|e r] eqn:Hr.
        -- exfalso. destruct l; simpl in Hr; [by rewrite Hd in Hr | done].
        -- simpl. simpl in IH2. done.
    + apply andb_prop in H as [Hf H].
      destruct (IH false H) as [IH1 IH2].
      split.
      * simpl. rewrite Hc, Hf. done.
      * unfold ends_with in *.
        destruct (drop_last_if is_hyphen (d :: l)) as [|e r] eqn:Hr.
        -- simpl. by rewrite Hc.
        -- simpl. simpl in IH2. done.
Qed.

Lemma drop_trailing_ends P l : ends_with P (drop_trailing P l) = false.
Proof.
  unfold ends_with. induction l as [|c l IH]; simpl; [done|].
  destruct (drop_trailing P l) as [|d r] eqn:Hr.
  - destruct (P c) eqn:Hc; simpl; [done | by rewrite Hc].
  - simpl. simpl in IH. done.
Qed.

Lemma drop_trailing_shape l :
  forall f, slug_shape f l = true -> slug_shape f (drop_trailing is_hyphen l) = true.
Proof.
  induction l as [|c l IH]; intros f H; simpl; [done|].
  simpl in H.
  destruct (is_hyphen c) eqn:Hc; apply andb_prop in H as [Hf H].
  - specialize (IH true H).
    destruct (drop_trailing is_hyphen l) as [|d r] eqn:Hr; [done|].
    simpl. rewrite Hc, Hf. apply IH.
  - specialize (IH false H).
    destruct (drop_trailing is_hyphen l) as [|d r] eqn:Hr.
    + simpl. by rewrite Hc, Hf.
    + simpl. rewrite Hc, Hf. apply IH.
Qed.

(** A slug is a fixed point of every stage. *)
Lemma map_lower_slug l :
  Forall (fun c => is_az09 c || is_hyphen c = true) l -> map lower_char l = l.
Proof.
  induction 1 as [|c l Hc _ IH]; simpl; [done|].
  by rewrite lower_char_az09, IH.
Qed.

Lemma drop_leading_none P l :
  Forall (fun c => P c = false) l -> drop_leading P l = l.
Proof. destruct 1 as [|c l Hc _]; simpl; [done | by rewrite Hc]. Qed.

Lemma drop_trailing_none P l :
  Forall (fun c => P c = false) l -> drop_trailing P l = l.
Proof.
  induction 1 as [|c l Hc _ IH]; simpl; [done|].
  rewrite IH. destruct l; [by rewrite Hc | done].
Qed.

Lemma remove_all_none P l :
  Forall (fun c => P c = false) l -> remove_all P l = l.
Proof.
  induction 1 as [|c l Hc _ IH]; simpl; [done|].
  rewrite Hc. simpl. f_equal. apply IH.
Qed.

Lemma replace_runs_slug P l :
  (forall c, is_az09 c = true -> P c = false) ->
  (forall c, is_hyphen c = true -> P c = true) ->
  forall f, slug_shape f l = true -> replace_runs P ["-"%char] f l = l.
Proof.
  intros Haz Hhy. induction l as [|c l IH]; intros f H; simpl; [done|].
  simpl in H. destruct (is_hyphen c) eqn:Hc; apply andb_prop in H as [Hf H].
  - rewrite (Hhy c Hc). destruct f; [done|]. simpl.
    rewrite (is_hyphen_eq c Hc). f_equal. by apply IH.
  - rewrite (Haz c Hf). f_equal. by apply IH.
Qed.

Lemma drop_first_if_slug l :
  slug_shape true l = true -> drop_first_if is_hyphen l = l.
Proof.
  destruct l as [|c l]; simpl; [done|]. by destruct (is_hyphen c).
Qed.

Lemma drop_leading_slug l :
  slug_shape true l = true -> drop_leading is_hyphen l = l.
Proof.
  destruct l as [|c l]; simpl; [done|]. by destruct (is_hyphen c).
Qed.

Lemma drop_last_if_slug P l : ends_with P l = false -> drop_last_if P l = l.
Proof.
  unfold ends_with. induction l as [|c l IH]; [done|].
  destruct l as [|d l].
  - simpl. by intros ->.
  - intros H. change (drop_last_if P (c :: d :: l)) with (c :: drop_last_if P (d :: l)).
    f_equal. apply IH. done.
Qed.

Lemma drop_trailing_slug P l : ends_with P l = false -> drop_trailing P l = l.
Proof.
  unfold ends_with. induction l as [|c l IH]; [done|].
  destruct l as [|d l].
  - simpl. by intros ->.
  - intros H. change (drop_trailing P (c :: d :: l))
      with (match drop_trailing P (d :: l) with
            | [] => if P c then [] else [c] | r => c :: r end).
    rewrite IH by done. done.
Qed.

Lemma Forall_impl_bool (P Q : ascii -> Prop) l :
  (forall c, P c -> Q c) -> Forall P l -> Forall Q l.
Proof. intros H. induction 1; constructor; auto. Qed.

Lemma category_slug_is_slug name : is_slug (CategoryForm.generateSlug name) = true.
Proof.
  unfold is_slug, CategoryForm.generateSlug. rewrite chars_str.
  set (y := replace_runs _ _ _ _).
  assert (Hy : slug_shape false y = true).
  { apply replace_runs_shape. intros c. by destruct (is_az09 c). }
  apply drop_first_if_shape in Hy.
  destruct (drop_last_if_shape _ _ Hy) as [H1 H2].
  by rewrite H1, H2.
Qed.

Lemma category_slug_fixed s : is_slug s = true -> CategoryForm.generateSlug s = s.
Proof.
  unfold is_slug, CategoryForm.generateSlug, toLowerCase.
  intros [Hs He%negb_true_iff]%andb_prop.
  rewrite chars_str, map_lower_slug by (by eapply slug_shape_chars).
  rewrite replace_runs_slug.
  - by rewrite drop_first_if_slug, drop_last_if_slug, str_chars.
  - intros c Hc. by rewrite Hc.
  - intros c Hc. destruct (is_az09 c) eqn:Ha; [|done].
    by rewrite (az09_not_hyphen c Ha) in Hc.
  - by apply slug_shape_weaken.
Qed.

Lemma drop_trailing_In P l x : In x (drop_trailing P l) -> In x l.
Proof.
  revert x. induction l as [|c l IH]; simpl; [done|].
  intros x. destruct (drop_trailing P l) as [|e r].
  - destruct (P c); simpl; [done | tauto].
  - simpl. intros [->|Hx]; [tauto|]. right. by apply IH.
Qed.

Lemma drop_leading_In P l x : In x (drop_leading P l) -> In x l.
Proof.
  induction l as [|c l IH]; simpl; [done|].
  destruct (P c); [right; by apply IH | done].
Qed.

Lemma product_kept_chars name c :
  In c (remove_all (fun c => negb (is_word c || is_space c || is_hyphen c))
         (drop_trailing is_space
           (drop_leading is_space (map lower_char (chars name))))) ->
  is_word c || is_space c || is_hyphen c = true /\ exists d, c = lower_char d.
Proof.
  unfold remove_all. intros [Hin Hc]%filter_In.
  apply negb_true_iff, negb_false_iff in Hc. split; [done|].
  apply drop_trailing_In, drop_leading_In, in_map_iff in Hin as (d & <- & _).
  by exists d.
Qed.

Lemma replace_runs_product_shape l :
  (forall c, In c l ->
     is_word c || is_space c || is_hyphen c = true /\ exists d, c = lower_char d) ->
  forall f,
    slug_shape f
      (replace_runs (fun c => is_space c || is_underscore c || is_hyphen c)
         ["-"%char] f l) = true.
Proof.
  induction l as [|c l IH]; intros Hl f; simpl; [done|].
  destruct (Hl c (or_introl eq_refl)) as [Hc [d ->]].
  assert (Hl' : forall c, In c l ->
     is_word c || is_space c || is_hyphen c = true /\ exists d, c = lower_char d)
    by (intros; apply Hl; by right).
  destruct (is_space (lower_char d) || is_underscore (lower_char d)
            || is_hyphen (lower_char d)) eqn:Hsep.
  - destruct f; simpl; by apply IH.
  - apply orb_false_iff in Hsep as [[Hsp Hu]%orb_false_iff Hh].
    simpl. rewrite Hh. rewrite Hsp, Hh, !orb_false_r in Hc.
    rewrite (word_of_lower d Hc Hu). simpl. by apply IH.
Qed.

Lemma product_slug_is_slug name : is_slug (ProductEditForm.generateSlug name) = true.
Proof.
  unfold is_slug, ProductEditForm.generateSlug, trim, toLowerCase.
  rewrite !chars_str.
  set (y := replace_runs _ _ _ _).
  assert (Hy : slug_shape false y = true).
  { apply replace_runs_product_shape. intros c. apply product_kept_chars. }
  apply drop_leading_shape in Hy.
  by rewrite drop_trailing_shape, drop_trailing_ends.
Qed.

Lemma product_slug_fixed s : is_slug s = true -> ProductEditForm.generateSlug s = s.
Proof.
  unfold is_slug, ProductEditForm.generateSlug, trim, toLowerCase.
  intros [Hs He%negb_true_iff]%andb_prop.
  pose proof (slug_shape_chars _ _ Hs) as Hc.
  rewrite !chars_str, map_lower_slug by done.
  rewrite (drop_leading_none is_space), (drop_trailing_none is_space),
    remove_all_none.
  - rewrite replace_runs_slug.
    + by rewrite drop_leading_slug, drop_trailing_slug, str_chars.
    + apply az09_not_separator.
    + apply hyphen_is_separator.
    + by apply slug_shape_weaken.
  - eapply Forall_impl_bool; [|exact Hc]. apply az09_kept.
  - eapply Forall_impl_bool; [|exact Hc]. apply az09_not_space.
  - eapply Forall_impl_bool; [|exact Hc]. apply az09_not_space.
Qed.

(** ** Statements and worlds *)


Lemma send_eq s w : send s w = (answer s w, sent s w).
Proof. unfold answer, sent. by destruct (send s w). Qed.

Section SentFrame.
Variables (s : Stmt) (w : World).

Lemma env_sent : env (sent s w) = env w.
Proof. unfold sent, send. by repeat case_match. Qed.
Lemma now_sent : now (sent s w) = now w.
Proof. unfold sent, send. by repeat case_match. Qed.
Lemma net_sent : net (sent s w) = net w.
Proof. unfold sent, send. by repeat case_match. Qed.
Lemma notified_sent : notified (sent s w) = notified w.
Proof. unfold sent, send. by repeat case_match. Qed.
Lemma requests_sent : requests (sent s w) = requests w.
Proof. unfold sent, send. by repeat case_match. Qed.
Lemma console_sent : console (sent s w) = console w.
Proof. unfold sent, send. by repeat case_match. Qed.
Lemma faults_sent : faults (sent s w) = tl (faults w).
Proof. unfold sent, send. by repeat case_match. Qed.
Lemma statements_sent :
  statements (sent s w) = statements w ++ [{| stmt := s; outcome := answer s w |}].
Proof. unfold sent, answer, send. by repeat case_match. Qed.

Lemma quiet_sent : quiet w -> quiet (sent s w).
Proof.
  unfold quiet. rewrite faults_sent. destruct (faults w); [done|].
  by inversion 1.
Qed.

Lemma settles_sent : settles w -> settles (sent s w).
Proof.
  unfold settles. rewrite faults_sent. destruct (faults w); [done|].
  by inversion 1.
Qed.

Lemma configured_sent : configured w -> configured (sent s w).
Proof. unfold configured. by rewrite env_sent. Qed.

Lemma answer_quiet : quiet w -> answer s w = Fulfilled (exec s (db w)).1.
Proof.
  unfold quiet, answer, send. destruct (faults w) as [|f fs]; simpl.
  - by destruct (exec s (db w)).
  - inversion 1; subst. by destruct (exec s (db w)).
Qed.

Lemma db_sent_quiet : quiet w -> db (sent s w) = (exec s (db w)).2.
Proof.
  unfold quiet, sent, send. destruct (faults w) as [|f fs]; simpl.
  - by destruct (exec s (db w)).
  - inversion 1; subst. by destruct (exec s (db w)).
Qed.

Lemma answer_settles : settles w -> exists r, answer s w = Fulfilled r.
Proof.
  unfold settles, answer, send. destruct (faults w) as [|f fs]; simpl.
  - destruct (exec s (db w)). eauto.
  - inversion 1 as [|? ? Hf _]; subst. destruct f; simpl.
    + destruct (exec s (db w)). eauto.
    + eauto.
    + by destruct (Hf reason).
Qed.

End SentFrame.

Lemma await_send {A} s (f : PgError + list Obj -> A) w :
  await (then_ (send s) f) w =
  match answer s w with
  | Fulfilled r => (Normal (f r), sent s w)
  | Rejected e => (Throw e, sent s w)
  end.
Proof. unfold await, then_. rewrite send_eq. by destruct (answer s w). Qed.

Lemma bind_normal {A B} (c : M A) (k : A -> M B) w a w' :
  c w = (Normal a, w') -> bind c k w = k a w'.
Proof. unfold bind. by intros ->. Qed.

Lemma bind_throw {A B} (c : M A) (k : A -> M B) w e w' :
  c w = (Throw e, w') -> bind c k w = (Throw e, w').
Proof. unfold bind. by intros ->. Qed.

Lemma getSupabaseAdmin_configured w :
  configured w -> getSupabaseAdmin w = (Normal tt, w).
Proof. unfold configured, getSupabaseAdmin, bind, getenv. by intros ->. Qed.

(** ** The notifier *)

Lemma same_backend_refl w : same_backend w w.
Proof. by repeat split. Qed.

Lemma same_backend_trans w1 w2 w3 :
  same_backend w1 w2 -> same_backend w2 w3 -> same_backend w1 w3.
Proof.
  unfold same_backend. intros (?&?&?&?&?&?) (?&?&?&?&?&?).
  repeat split; congruence.
Qed.

Lemma console_log_spec l w :
  exists w', console_log l w = (Normal tt, w') /\ same_backend w w' /\
    notified w' = notified w /\ requests w' = requests w /\
    console w' = console w ++ [l].
Proof. eexists. split; [reflexivity|]. by repeat split. Qed.

(** Whatever [fetch] does, the function mapped over the base URLs returns:
    it has sent one request. *)
Lemma request_returns secret payload baseUrl w :
  exists a w',
    request secret payload baseUrl w = (Normal a, w') /\ same_backend w w' /\
    notified w' = notified w /\
    requests w' = requests w ++ [request_to secret payload baseUrl] /\
    exists lines, console w' = console w ++ lines.
Proof.
  unfold request, bind, try_catch, console_log, fetch, response_json, ret, throw.
  simpl.
  destruct (net w (baseUrl +:+ "/api/revalidate")) as [e|r]; simpl.
  - eexists _, _. split; [reflexivity|]. simpl. rewrite <- app_assoc.
    repeat split; eauto.
  - destruct (ok r); simpl.
    + destruct (parses r); simpl.
      * eexists _, _. split; [reflexivity|]. simpl. rewrite <- app_assoc.
        repeat split; eauto.
      * eexists _, _. split; [reflexivity|]. simpl. rewrite <- app_assoc.
        repeat split; eauto.
    + eexists _, _. split; [reflexivity|]. simpl. rewrite <- app_assoc.
      repeat split; eauto.
Qed.

Lemma allSettled_requests secret payload urls w :
  exists results w',
    allSettled (map (fun baseUrl => async (request secret payload baseUrl)) urls) w
      = (Normal results, w') /\
    Forall (fun r => exists a, r = Fulfilled a) results /\
    same_backend w w' /\ notified w' = notified w /\
    requests w' = requests w ++ map (request_to secret payload) urls /\
    exists lines, console w' = console w ++ lines.
Proof.
  revert w. induction urls as [|u urls IH]; intros w; simpl.
  - eexists _, _. split; [reflexivity|].
    rewrite app_nil_r. repeat split; [constructor|..]; try done.
    exists []. by rewrite app_nil_r.
  - destruct (request_returns secret payload u w)
      as (a & w1 & Hr & Hb & Hn & Hq & l1 & Hl1).
    unfold async at 1. rewrite Hr.
    destruct (IH w1) as (rs & w2 & Hs & Hf & Hb2 & Hn2 & Hq2 & l2 & Hl2).
    rewrite Hs. eexists _, _. split; [reflexivity|].
    split; [constructor; eauto|].
    split; [by eapply same_backend_trans|].
    split; [congruence|].
    split; [rewrite Hq2, Hq, <- app_assoc; done|].
    exists (l1 ++ l2). by rewrite Hl2, Hl1, app_assoc.
Qed.

Lemma log_rejections_spec results w :
  exists w', log_rejections results w = (Normal tt, w') /\ same_backend w w' /\
    notified w' = notified w /\ requests w' = requests w /\
    exists lines, console w' = console w ++ lines.
Proof.
  revert w. induction results as [|r rs IH]; intros w; simpl.
  - eexists. split; [reflexivity|]. repeat split. exists []. by rewrite app_nil_r.
  - destruct r as [a|reason]; [apply IH|].
    unfold bind, console_log. simpl.
    destruct (IH {| env := env w; now := now w; db := db w; faults := faults w;
                    net := net w; statements := statements w;
                    notified := notified w; requests := requests w;
                    console := console w ++ [ErrorPromiseRejected reason] |})
      as (w' & -> & Hb & Hn & Hq & l & Hl).
    eexists. split; [reflexivity|].
    split; [exact Hb|]. split; [exact Hn|]. split; [exact Hq|].
    simpl in Hl. rewrite <- app_assoc in Hl. eauto.
Qed.

(** The notifier returns, whatever the configuration and the network. *)
Lemma revalidateCustomerApp_spec payload w :
  exists w',
    revalidateCustomerApp payload w = (Normal tt, w') /\
    same_backend w w' /\
    notified w' = notified w ++ [payload] /\
    requests w' = requests w ++ notifier_requests (env w) payload /\
    exists lines, console w' = console w ++ lines /\ notifier_console (env w) lines.
Proof.
  unfold revalidateCustomerApp, bind at 1, note_call.
  unfold bind at 1, getenv. cbn [env].
  unfold notifier_requests, notifier_console.
  destruct (absent (CUSTOMER_APP_BASE_URLS (env w))) eqn:Hu; cbn [orb].
  { eexists. split; [reflexivity|]. rewrite app_nil_r. repeat split. simpl. eauto. }
  destruct (absent (REVALIDATION_SECRET (env w))) eqn:Hs; cbn [orb].
  { eexists. split; [reflexivity|]. rewrite app_nil_r. repeat split. simpl. eauto. }
  fold (configured_urls (env w)).
  destruct (Nat.eqb (length (configured_urls (env w))) 0) eqn:Hlen.
  { apply Nat.eqb_eq, nil_length_inv in Hlen. rewrite Hlen.
    eexists. split; [reflexivity|]. rewrite app_nil_r. repeat split. simpl. eauto. }
  set (w0 := {| env := env w; now := now w; db := db w; faults := faults w;
                net := net w; statements := statements w;
                notified := notified w ++ [payload];
                requests := requests w; console := console w |}).
  destruct (allSettled_requests (default "" (REVALIDATION_SECRET (env w))) payload
              (configured_urls (env w)) w0)
    as (rs & w1 & Ha & _ & Hb1 & Hn1 & Hq1 & l1 & Hl1).
  unfold bind. rewrite Ha.
  destruct (log_rejections_spec rs w1) as (w2 & -> & Hb2 & Hn2 & Hq2 & l2 & Hl2).
  eexists. split; [reflexivity|].
  assert (Hb : same_backend w w2).
  { eapply same_backend_trans; [|exact Hb2].
    eapply same_backend_trans; [|exact Hb1]. by repeat split. }
  split.
  { destruct Hb as (?&?&?&?&?&?). by repeat split. }
  simpl. split; [by rewrite Hn2, Hn1|]. split; [by rewrite Hq2, Hq1|].
  exists ((l1 ++ l2) ++ [LogFinished]). split; [|eauto].
  rewrite Hl2, Hl1. simpl. by rewrite <- !app_assoc.
Qed.

(** ** Sequences of statements *)

Lemma sends_app ss1 ss2 w : sends (ss1 ++ ss2) w = sends ss2 (sends ss1 w).
Proof. revert w. induction ss1; intros; simpl; auto. Qed.

Lemma entries_app ss1 ss2 w :
  entries (ss1 ++ ss2) w = entries ss1 w ++ entries ss2 (sends ss1 w).
Proof. revert w. induction ss1; intros; simpl; [done|]. by rewrite IHss1. Qed.

Lemma stmt_entries ss w : map stmt (entries ss w) = ss.
Proof. revert w. induction ss; intros; simpl; [done|]. by rewrite IHss. Qed.

Section SendsFrame.
Variable ss : list Stmt.

Lemma env_sends w : env (sends ss w) = env w.
Proof. revert w. induction ss; intros; simpl; [done|]. by rewrite IHl, env_sent. Qed.
Lemma now_sends w : now (sends ss w) = now w.
Proof. revert w. induction ss; intros; simpl; [done|]. by rewrite IHl, now_sent. Qed.
Lemma net_sends w : net (sends ss w) = net w.
Proof. revert w. induction ss; intros; simpl; [done|]. by rewrite IHl, net_sent. Qed.
Lemma notified_sends w : notified (sends ss w) = notified w.
Proof. revert w. induction ss; intros; simpl; [done|]. by rewrite IHl, notified_sent. Qed.
Lemma requests_sends w : requests (sends ss w) = requests w.
Proof. revert w. induction ss; intros; simpl; [done|]. by rewrite IHl, requests_sent. Qed.
Lemma console_sends w : console (sends ss w) = console w.
Proof. revert w. induction ss; intros; simpl; [done|]. by rewrite IHl, console_sent. Qed.
Lemma statements_sends w : statements (sends ss w) = statements w ++ entries ss w.
Proof.
  revert w. induction ss; intros; simpl; [by rewrite app_nil_r|].
  by rewrite IHl, statements_sent, <- app_assoc.
Qed.
Lemma quiet_sends w : quiet w -> quiet (sends ss w).
Proof. revert w. induction ss; intros; simpl; [done|]. by apply IHl, quiet_sent. Qed.
Lemma settles_sends w : settles w -> settles (sends ss w).
Proof. revert w. induction ss; intros; simpl; [done|]. by apply IHl, settles_sent. Qed.
Lemma configured_sends w : configured w -> configured (sends ss w).
Proof. unfold configured. by rewrite env_sends. Qed.

End SendsFrame.

(** A statement leaves the tables it does not write to as they are. *)
Lemma rows_of_insert_ne (t t' : string) rows (db : Db) :
  t <> t' -> rows_of t (<[t' := rows]> db) = rows_of t db.
Proof. intros H. unfold rows_of. by rewrite lookup_insert_ne. Qed.

Lemma rows_of_insert_eq (t : string) rows (db : Db) :
  rows_of t (<[t := rows]> db) = rows.
Proof. unfold rows_of. by rewrite lookup_insert_eq. Qed.

Lemma rows_of_exec t s db : writes s <> Some t -> rows_of t (exec s db).2 = rows_of t db.
Proof.
  destruct s as [t' rows|t' patch f|t' f|t' f|f]; simpl; intros H; try done.
  - unfold exec_insert. destruct (insert_rows _ _ _); simpl; [done|].
    apply rows_of_insert_ne. congruence.
  - unfold exec_update. destruct (List.find _ _); simpl; [done|].
    apply rows_of_insert_ne. congruence.
  - unfold exec_delete. destruct (List.find _ _) as [[]|]; simpl; [done|].
    apply rows_of_insert_ne. congruence.
Qed.

Lemma db_sent_cases s w : db (sent s w) = db w \/ db (sent s w) = (exec s (db w)).2.
Proof.
  unfold sent, send. destruct (hd NoFault (faults w)); simpl; auto.
  destruct (exec s (db w)); auto.
Qed.

Lemma rows_of_sent t s w : writes s <> Some t -> rows_of t (db (sent s w)) = rows_of t (db w).
Proof.
  intros H. destruct (db_sent_cases s w) as [->| ->]; [done|]. by apply rows_of_exec.
Qed.

Lemma rows_of_sends t ss w :
  Forall (fun s => writes s <> Some t) ss ->
  rows_of t (db (sends ss w)) = rows_of t (db w).
Proof.
  intros H. revert w. induction H as [|s ss Hs _ IH]; intros w; simpl; [done|].
  by rewrite IH, rows_of_sent.
Qed.

(** ** Best-effort insertion of the related data *)

Lemma insert_rows_of_settles label t rows errs w :
  settles w ->
  exists ss e,
    insert_rows_of label t rows errs w = (Normal (errs ++ e), sends ss w) /\
    attempt label t rows (entries ss w) e /\
    Forall (fun s => writes s = Some t) ss.
Proof.
  intros Hw. unfold insert_rows_of.
  destruct rows as [|r rows].
  { exists [], []. simpl. rewrite app_nil_r.
    split; [done|]. split; [by constructor|constructor]. }
  cbn [length Nat.ltb Nat.leb].
  destruct (answer_settles (Insert t (r :: rows)) w Hw) as [res Hres].
  unfold insert. erewrite bind_normal; [|by rewrite await_send, Hres].
  exists [Insert t (r :: rows)]. destruct res as [e|stored]; simpl.
  - exists [label +:+ ": " +:+ message e]. split; [done|].
    rewrite Hres. split; [by constructor|]. by repeat constructor.
  - exists []. rewrite app_nil_r. split; [done|].
    rewrite Hres. split; [by constructor|]. by repeat constructor.
Qed.

Lemma insert_rows_length t rows acc stored :
  insert_rows t rows acc = inr stored -> length stored = length rows.
Proof.
  revert acc stored. induction rows as [|r rows IH]; intros acc stored.
  - by intros [= <-].
  - cbn [insert_rows]. destruct (conflict _ _ _); [done|].
    destruct (insert_rows t rows _) eqn:Hi; [done|].
    intros [= <-]. simpl. f_equal. by eapply IH.
Qed.

Lemma answer_insert_one t r w stored :
  answer (Insert t [r]) w = Fulfilled (inr stored) -> exists row, stored = [row].
Proof.
  unfold answer, send. destruct (hd NoFault (faults w)); simpl; [|done|done].
  unfold exec_insert. destruct (insert_rows t [r] _) eqn:Hi; simpl; [done|].
  intros [= <-]. apply insert_rows_length in Hi.
  destruct l as [|row [|]]; simpl in Hi; try done. eauto.
Qed.

Lemma get_project k columns (row : Obj) :
  k ∈ columns -> get k (project columns row) = get k row.
Proof.
  intros Hk. unfold get, project. destruct (row !! k) as [v|] eqn:Hr.
  - erewrite (map_lookup_filter_Some_2 _ row k v); done.
  - by rewrite map_lookup_filter_None_2; [|left].
Qed.

Lemma insert_variant_settles clear_id pid errs v w :
  settles w ->
  exists ss e,
    insert_variant clear_id pid errs v w = (Normal (errs ++ e), sends ss w) /\
    variant_attempt clear_id pid v (entries ss w) e /\
    Forall (fun s => exists t, writes s = Some t /\
              t ∈ ["product_variants"; "variant_attributes"; "variant_features"]) ss.
Proof.
  intros Hw. unfold insert_variant.
  set (s := Insert "product_variants" [variantInsertData clear_id pid v]).
  destruct (answer_settles s w Hw) as [res Hres].
  unfold insert_select_single. fold s.
  erewrite bind_normal; [|by rewrite await_send, Hres].
  destruct res as [e|stored]; simpl.
  { exists [s], [variant_error_text v (Some e)]. simpl. rewrite Hres.
    split; [done|]. split; [constructor|].
    repeat constructor. eexists. split; [done|]. in_list. }
  destruct (answer_insert_one _ _ _ _ Hres) as [row ->]. simpl.
  rewrite get_project by in_list.
  pose proof (settles_sent s w Hw) as Hw1.
  assert (Hattr : exists ss1 e1,
    (if Nat.ltb 0 (length (attributes v))
     then insert_rows_of ("Variant Attributes (" +:+ variant_name v +:+ ")")
            "variant_attributes" (attributesToInsert (get "id" row) (attributes v)) errs
     else ret errs) (sent s w) = (Normal (errs ++ e1), sends ss1 (sent s w)) /\
    attempt ("Variant Attributes (" +:+ variant_name v +:+ ")") "variant_attributes"
      (attributesToInsert (get "id" row) (attributes v)) (entries ss1 (sent s w)) e1 /\
    Forall (fun s => writes s = Some "variant_attributes") ss1).
  { destruct (attributes v) as [|a l] eqn:Ha.
    - exists [], []. simpl. rewrite app_nil_r. repeat split; by constructor.
    - cbn [length Nat.ltb Nat.leb]. by apply insert_rows_of_settles. }
  destruct Hattr as (ss1 & e1 & Hrun1 & Hatt1 & Hss1).
  erewrite bind_normal; [|exact Hrun1].
  pose proof (settles_sends ss1 _ Hw1) as Hw2.
  assert (Hfeat : exists ss2 e2,
    (if Nat.ltb 0 (length (variant_features v))
     then insert_rows_of ("Variant Features (" +:+ variant_name v +:+ ")")
            "variant_features"
            (variantFeaturesToInsert (get "id" row) (variant_features v)) (errs ++ e1)
     else ret (errs ++ e1)) (sends ss1 (sent s w))
      = (Normal ((errs ++ e1) ++ e2), sends ss2 (sends ss1 (sent s w))) /\
    attempt ("Variant Features (" +:+ variant_name v +:+ ")") "variant_features"
      (variantFeaturesToInsert (get "id" row) (variant_features v))
      (entries ss2 (sends ss1 (sent s w))) e2 /\
    Forall (fun s => writes s = Some "variant_features") ss2).
  { destruct (variant_features v) as [|a l] eqn:Ha.
    - exists [], []. simpl. rewrite app_nil_r. repeat split; by constructor.
    - cbn [length Nat.ltb Nat.leb]. by apply insert_rows_of_settles. }
  destruct Hfeat as (ss2 & e2 & Hrun2 & Hatt2 & Hss2).
  rewrite Hrun2.
  exists (s :: ss1 ++ ss2), (e1 ++ e2).
  split; [by rewrite app_assoc; simpl; rewrite sends_app|].
  split.
  - simpl. rewrite Hres, entries_app. by econstructor.
  - constructor; [eexists; split; [done|]; in_list|].
    apply Forall_app. split.
    + eapply Forall_impl; [exact Hss1|]. intros ? ->. eexists. split; [done|]. in_list.
    + eapply Forall_impl; [exact Hss2|]. intros ? ->. eexists. split; [done|]. in_list.
Qed.

Lemma insert_variants_settles clear_id pid vs errs w :
  settles w ->
  exists ss e,
    for_of vs (insert_variant clear_id pid) errs w = (Normal (errs ++ e), sends ss w) /\
    variants_attempt clear_id pid vs (entries ss w) e /\
    Forall (fun s => exists t, writes s = Some t /\
              t ∈ ["product_variants"; "variant_attributes"; "variant_features"]) ss.
Proof.
  revert errs w. induction vs as [|v vs IH]; intros errs w Hw; simpl.
  { exists [], []. rewrite app_nil_r. repeat split; constructor. }
  destruct (insert_variant_settles clear_id pid errs v w Hw) as (ss1 & e1 & H1 & Ha1 & Hs1).
  erewrite bind_normal; [|exact H1].
  destruct (IH (errs ++ e1) _ (settles_sends ss1 w Hw)) as (ss2 & e2 & H2 & Ha2 & Hs2).
  rewrite H2. exists (ss1 ++ ss2), (e1 ++ e2).
  split; [by rewrite app_assoc, sends_app|].
  split; [rewrite entries_app; by constructor|].
  by apply Forall_app.
Qed.

Lemma insert_related_settles clear_id pid input errs w :
  settles w ->
  exists ss e,
    insert_related clear_id pid input errs w = (Normal (errs ++ e), sends ss w) /\
    best_effort clear_id pid input (entries ss w) e /\
    Forall (fun s => exists t, writes s = Some t /\
              t ∈ ["product_images"; "product_features"; "product_tags"; "product_faqs";
                   "product_testimonial_videos"; "customer_testimonials";
                   "product_variants"; "variant_attributes"; "variant_features"]) ss.
Proof.
  intros Hw. unfold insert_related.
  destruct (insert_rows_of_settles "Images" "product_images"
              (imagesToInsert pid (images input)) errs w Hw) as (s1 & e1 & H1 & A1 & F1).
  erewrite bind_normal; [|exact H1].
  pose proof (settles_sends s1 w Hw) as Hw1.
  destruct (insert_rows_of_settles "Features" "product_features"
              (featuresToInsert pid (features input)) (errs ++ e1) _ Hw1)
    as (s2 & e2 & H2 & A2 & F2).
  erewrite bind_normal; [|exact H2].
  pose proof (settles_sends s2 _ Hw1) as Hw2.
  destruct (insert_rows_of_settles "Tags" "product_tags"
              (tagsToInsert pid (tags input)) ((errs ++ e1) ++ e2) _ Hw2)
    as (s3 & e3 & H3 & A3 & F3).
  erewrite bind_normal; [|exact H3].
  pose proof (settles_sends s3 _ Hw2) as Hw3.
  destruct (insert_rows_of_settles "FAQs" "product_faqs"
              (faqsToInsert pid (faqs input)) (((errs ++ e1) ++ e2) ++ e3) _ Hw3)
    as (s4 & e4 & H4 & A4 & F4).
  erewrite bind_normal; [|exact H4].
  pose proof (settles_sends s4 _ Hw3) as Hw4.
  destruct (insert_rows_of_settles "Testimonial Videos" "product_testimonial_videos"
              (videosToInsert pid (testimonial_videos input))
              ((((errs ++ e1) ++ e2) ++ e3) ++ e4) _ Hw4)
    as (s5 & e5 & H5 & A5 & F5).
  erewrite bind_normal; [|exact H5].
  pose proof (settles_sends s5 _ Hw4) as Hw5.
  destruct (insert_rows_of_settles "Customer Testimonials" "customer_testimonials"
              (testimonialsToInsert pid (customer_testimonials input))
              (((((errs ++ e1) ++ e2) ++ e3) ++ e4) ++ e5) _ Hw5)
    as (s6 & e6 & H6 & A6 & F6).
  erewrite bind_normal; [|exact H6].
  pose proof (settles_sends s6 _ Hw5) as Hw6.
  destruct (insert_variants_settles clear_id pid (variants input)
              ((((((errs ++ e1) ++ e2) ++ e3) ++ e4) ++ e5) ++ e6) _ Hw6)
    as (s7 & e7 & H7 & A7 & F7).
  rewrite H7.
  exists (s1 ++ s2 ++ s3 ++ s4 ++ s5 ++ s6 ++ s7), (e1 ++ e2 ++ e3 ++ e4 ++ e5 ++ e6 ++ e7).
  split; [by rewrite !sends_app, <- !app_assoc|].
  split.
  - exists (entries s1 w), e1, (entries s2 (sends s1 w)), e2.
    eexists _, e3, _, e4, _, e5, _, e6, _, e7.
    repeat (split; [eassumption|]).
    split; [|done]. by rewrite !entries_app, ?sends_app.
  - repeat (apply Forall_app; split);
      try (eapply Forall_impl; [eassumption|];
           intros ? Hx; cbv beta in Hx; eexists; split; [exact Hx|]; in_list).
    eapply Forall_impl; [exact F7|]. intros ? (t & ? & Ht). exists t. split; [done|].
    apply list_elem_of_In. apply list_elem_of_In in Ht. simpl in *. tauto.
Qed.

(** ** The paths of the category and of the brand of a product *)

Lemma getProductRelatedPaths_spec pid w :
  configured w ->
  getProductRelatedPaths pid w =
  match answer (related_paths_query pid) w with
  | Fulfilled r => (Normal (paths_of r), sent (related_paths_query pid) w)
  | Rejected e => (Throw e, sent (related_paths_query pid) w)
  end.
Proof.
  intros Hc. unfold getProductRelatedPaths.
  erewrite bind_normal; [|by apply getSupabaseAdmin_configured].
  unfold bind. fold (related_paths_query pid). rewrite await_send.
  destruct (answer _ w) as [r|e]; [|done].
  destruct r as [e|[|row [|]]]; simpl; done.
Qed.

Lemma try_catch_normal {A} (body : M A) h w a w' :
  body w = (Normal a, w') -> try_catch body h w = (Normal a, w').
Proof. unfold try_catch. by intros ->. Qed.

(** ** The deletion phase of the update route *)

Lemma deletePromises_statements pid ids :
  ProductsUpdate.deletePromises pid ids
  = map (fun s => then_ (send s) no_data) (delete_statements pid ids).
Proof.
  unfold ProductsUpdate.deletePromises, delete_statements.
  by destruct (Nat.ltb 0 (length ids)).
Qed.

Lemma allSettled_sends {A} (f : PgError + list Obj -> A) ss w :
  allSettled (map (fun s => then_ (send s) f) ss) w
  = (Normal (settled_as f ss w), sends ss w).
Proof.
  revert w. induction ss as [|s ss IH]; intros w; [done|].
  cbn [map allSettled sends settled_as].
  unfold then_ at 1. rewrite send_eq.
  destruct (answer s w); by rewrite IH.
Qed.

Lemma no_rejections_recorded {A} (l : list (Settled A)) (g : nat -> Exn -> string) :
  Forall (fun r => exists a, r = Fulfilled a) l ->
  concat (imap (fun index result =>
                  match result with
                  | Rejected reason => [g index reason]
                  | Fulfilled _ => []
                  end) l) = [].
Proof.
  intros H. revert g. induction H as [|r l [a ->] _ IH]; intros g; [done|].
  cbn [imap concat app]. apply (IH (fun i => g (S i))).
Qed.

Lemma settled_as_fulfilled {A} (f : PgError + list Obj -> A) ss w :
  settles w -> Forall (fun r => exists a, r = Fulfilled a) (settled_as f ss w).
Proof.
  revert w. induction ss as [|s ss IH]; intros w Hw; simpl; [constructor|].
  destruct (answer_settles s w Hw) as [r ->].
  constructor; [eauto|]. apply IH. by apply settles_sent.
Qed.

Lemma settled_as_settles {A} (f : PgError + list Obj -> A) ss w :
  settles w -> ProductsUpdate.rejections (settled_as f ss w) = [].
Proof.
  intros Hw. apply no_rejections_recorded. by apply settled_as_fulfilled.
Qed.

Lemma delete_related_settles pid w :
  settles w ->
  exists rest errs,
    ProductsUpdate.delete_related pid w
      = (Normal errs,
         sends (Select "product_variants" (Eq "product_id" pid) ::
                Delete "product_images" (Eq "product_id" pid) :: rest) w) /\
    Forall (writes_to (List.filter (fun t => negb (String.eqb t "product_images"))
                         related_tables)) rest.
Proof.
  intros Hw. unfold ProductsUpdate.delete_related.
  set (sel := Select "product_variants" (Eq "product_id" pid)).
  destruct (answer_settles sel w Hw) as [r Hr].
  unfold select_eq. fold sel.
  erewrite bind_normal; [|by rewrite await_send, Hr].
  set (fetched := many (sum_map id (map (project ["id"])) r)).
  set (ids := match data fetched with
              | Some variantIdsData => map (get "id") variantIdsData
              | None => []
              end).
  rewrite deletePromises_statements.
  erewrite bind_normal; [|by apply allSettled_sends].
  pose proof (settles_sent sel w Hw) as Hw1.
  rewrite settled_as_settles by done. rewrite app_nil_r.
  set (errs0 := match error fetched with
                | Some e => ["Failed to fetch variant IDs: " +:+ message e]
                | None => []
                end).
  assert (Hdel : exists rest0,
            delete_statements pid ids = Delete "product_images" (Eq "product_id" pid) :: rest0 /\
            Forall (writes_to (List.filter (fun t => negb (String.eqb t "product_images"))
                                 related_tables)) rest0).
  { unfold delete_statements. eexists. split; [reflexivity|].
    destruct (Nat.ltb 0 (length ids)); repeat constructor; unfold writes_to; simpl; in_list. }
  destruct Hdel as (rest0 & Hd & Hrest0). rewrite Hd.
  destruct (Nat.ltb 0 (length ids) && negb (ProductsUpdate.mentions_nested errs0)) eqn:Hg.
  - set (w2 := sends (Delete "product_images" (Eq "product_id" pid) :: rest0) (sent sel w)).
    assert (Hw2 : settles w2) by (by apply settles_sends).
    destruct (answer_settles (Delete "product_variants" (In_ "id" ids)) w2 Hw2) as [r2 Hr2].
    unfold delete_in.
    erewrite bind_normal; [|by rewrite await_send, Hr2].
    exists (rest0 ++ [Delete "product_variants" (In_ "id" ids)]).
    exists (match error (no_data r2) with
            | Some e => errs0 ++ ["Error deleting variants: " +:+ message e]
            | None => errs0
            end).
    split.
    + rewrite app_comm_cons, app_comm_cons, sends_app.
      by destruct (error (no_data r2)).
    + apply Forall_app. split; [done|]. repeat constructor.
  - exists rest0, errs0. done.
Qed.

(** ** The main path of the update route *)

Section UpdateRun.
Variable lib : Zod.Lib.
Variable slugify : string -> string.
Variable input : ProductsUpdate.ValidatedUpdateData.

Let pid := ProductsUpdate.products_id input.
Let newSlug := ProductsUpdate.newSlug_of slugify (ProductsUpdate.coreUpdateData input).
Let core := ProductsUpdate.with_slug newSlug (ProductsUpdate.coreUpdateData input).

Lemma update_not_found w r :
  configured w -> answer (current_query input) w = Fulfilled r ->
  (forall row, r <> inr [row]) ->
  ProductsUpdate.update slugify input w
  = (Normal (json (ErrorBody "Could not find product to update" None) 404),
     sent (current_query input) w).
Proof.
  intros Hc Hr Hn. unfold ProductsUpdate.update. cbn zeta.
  unfold select_eq_single. fold (current_query input). fold pid newSlug core.
  erewrite bind_normal; [|by rewrite await_send, Hr].
  destruct r as [e|[|row [|]]]; simpl; try done. by destruct (Hn row).
Qed.

Lemma update_found w cur :
  configured w -> settles w ->
  answer (current_query input) w = Fulfilled (inr [cur]) ->
  exists rest errs_del,
    Forall (writes_to (List.filter (fun t => negb (String.eqb t "product_images"))
                         related_tables)) rest /\
    let w1 := sends (before_update input rest) w in
    (forall e, answer (core_update slugify input w) w1 = Fulfilled (inl e) ->
       ProductsUpdate.update slugify input w
       = (Normal (ProductsUpdate.update_failed e), sent (core_update slugify input w) w1)) /\
    (forall updated, answer (core_update slugify input w) w1 = Fulfilled (inr updated) ->
       exists ss errs w',
         let w2 := sends ss (sent (core_update slugify input w) w1) in
         ProductsUpdate.update slugify input w
         = (Normal (json (Updated (ProductsUpdate.responseMessage (errs_del ++ errs))
                            (<["products_id" := pid]> core)
                            (errors_field (errs_del ++ errs))) 200), w') /\
         best_effort true pid (ProductsUpdate.related input)
           (entries ss (sent (core_update slugify input w) w1)) errs /\
         Forall (writes_to related_tables) ss /\
         same_backend (sent (related_paths_query pid) w2) w' /\
         notified w' = notified w ++
           [revalidation slugify input cur
              (paths_of match answer (related_paths_query pid) (sent (current_query input) w) with
                        | Fulfilled r => r | Rejected _ => inr [] end)
              (paths_of match answer (related_paths_query pid) w2 with
                        | Fulfilled r => r | Rejected _ => inr [] end)]).
Proof.
  intros Hc Hs Hcur.
  set (w0 := sent (current_query input) w).
  assert (Hs0 : settles w0) by (by apply settles_sent).
  assert (Hc0 : configured w0) by (by apply configured_sent).
  destruct (answer_settles (related_paths_query pid) w0 Hs0) as [rold Hrold].
  set (wp := sent (related_paths_query pid) w0).
  assert (Hsp : settles wp) by (by apply settles_sent).
  destruct (delete_related_settles pid wp Hsp) as (rest & errs_del & Hdel & Hrest).
  exists rest, errs_del. split; [done|].
  cbn zeta.
  assert (Hw1 : sends (before_update input rest) w
                = sends (Select "product_variants" (Eq "product_id" pid)
                         :: Delete "product_images" (Eq "product_id" pid) :: rest) wp)
    by reflexivity.
  rewrite Hw1. set (w1 := sends _ wp) in *.
  assert (Hs1 : settles w1) by (by apply settles_sends).
  assert (Hc1 : configured w1) by (apply configured_sends; by apply configured_sent).
  assert (Hnow : now wp = now w) by (unfold wp, w0; by rewrite !now_sent).
  split.
  - intros e He. unfold ProductsUpdate.update. cbn zeta.
    unfold select_eq_single. fold (current_query input). fold pid newSlug core.
    erewrite bind_normal; [|by rewrite await_send, Hcur].
    cbn [single sum_map map error data]. fold w0.
    erewrite bind_normal; [|by rewrite getProductRelatedPaths_spec, Hrold].
    fold wp. erewrite bind_normal; [|reflexivity]. rewrite Hnow.
    erewrite bind_normal; [|exact Hdel]. fold w1.
    unfold update_eq.
    change (Update "products" _ _) with (core_update slugify input w).
    erewrite bind_normal; [|by rewrite await_send, He]. done.
  - intros updated Hu.
    set (wu := sent (core_update slugify input w) w1).
    assert (Hsu : settles wu) by (by apply settles_sent).
    assert (Hcu : configured wu) by (by apply configured_sent).
    destruct (insert_related_settles true pid (ProductsUpdate.related input) errs_del wu Hsu)
      as (ss & errs & Hins & Hbest & Hss).
    set (w2 := sends ss wu).
    assert (Hs2 : settles w2) by (by apply settles_sends).
    assert (Hc2 : configured w2) by (by apply configured_sends).
    destruct (answer_settles (related_paths_query pid) w2 Hs2) as [rnew Hrnew].
    destruct (revalidateCustomerApp_spec
                (revalidation slugify input cur (paths_of rold) (paths_of rnew))
                (sent (related_paths_query pid) w2))
      as (w' & Hrev & Hb & Hn & _).
    exists ss, errs, w'. cbn zeta. fold wu w2. rewrite Hrold, Hrnew.
    split; [|split; [done|split; [|split; [done|]]]].
    + unfold ProductsUpdate.update. cbn zeta.
      unfold select_eq_single. fold (current_query input). fold pid newSlug core.
      erewrite bind_normal; [|by rewrite await_send, Hcur].
      cbn [single sum_map map error data]. fold w0.
      erewrite bind_normal; [|by rewrite getProductRelatedPaths_spec, Hrold].
      fold wp. erewrite bind_normal; [|reflexivity]. rewrite Hnow.
      erewrite bind_normal; [|exact Hdel]. fold w1.
      unfold update_eq.
    change (Update "products" _ _) with (core_update slugify input w).
      erewrite bind_normal; [|by rewrite await_send, Hu].
      cbn [no_data error]. fold wu.
      erewrite bind_normal; [|exact Hins]. fold w2.
      erewrite bind_normal; [|by rewrite getProductRelatedPaths_spec, Hrnew].
      rewrite get_project by in_list.
      unfold revalidation in Hrev.
      erewrite bind_normal; [|exact Hrev]. done.
    + eapply Forall_impl; [exact Hss|]. intros s (t & Ht & Hin).
      unfold writes_to. by rewrite Ht.
    + rewrite Hn. unfold w2, wu, w1, wp, w0.
      by rewrite notified_sent, notified_sends, notified_sent, notified_sends,
                 !notified_sent.
Qed.

End UpdateRun.

(** ** Objects *)

Lemma get_delete_undefined k (o : Obj) : get k (delete_undefined o) = get k o.
Proof.
  unfold get, delete_undefined. destruct (o !! k) as [v|] eqn:Ho.
  - destruct (decide (v = VUndef)) as [->|Hv].
    + rewrite map_lookup_filter_None_2; [done|]. right. intros x Hx. simpl.
      rewrite Ho in Hx. by injection Hx as <-; intros [].
    + by erewrite map_lookup_filter_Some_2.
  - by rewrite map_lookup_filter_None_2; [|left].
Qed.



Lemma get_insert_eq k v (o : Obj) : get k (<[k := v]> o) = v.
Proof. unfold get. by rewrite lookup_insert_eq. Qed.

Lemma get_insert_ne k k' v (o : Obj) : k <> k' -> get k (<[k' := v]> o) = get k o.
Proof. intros H. unfold get. by rewrite lookup_insert_ne. Qed.


(** ** The database under a quiet world *)

Lemma answer_select_quiet t f w :
  quiet w -> answer (Select t f) w = Fulfilled (inr (List.filter (matches f) (rows_of t (db w)))).
Proof. intros H. by rewrite answer_quiet. Qed.

Lemma db_sent_read s w : writes s = None -> db (sent s w) = db w.
Proof.
  intros H. destruct (db_sent_cases s w) as [->| ->]; [done|].
  by destruct s.
Qed.

Lemma quiet_settles w : quiet w -> settles w.
Proof. intros H. eapply Forall_impl; [exact H|]. by intros f ->. Qed.

(** A key that [next_key] hands out is in no row. *)
Lemma key_floor_num z : key_floor (num z) = z.
Proof.
  unfold key_floor, num, Qc_of_Z. simpl. apply Z.div_1_r.
Qed.

Lemma next_key_above pk rows r :
  r ∈ rows -> (key_floor (get pk r) < next_key pk rows)%Z.
Proof.
  unfold next_key. induction 1 as [r rows|r r' rows _ IH]; simpl; lia.
Qed.

Lemma next_key_fresh pk rows : taken pk (num (next_key pk rows)) rows = false.
Proof.
  unfold taken. simpl. apply not_true_is_false. intros H.
  apply existsb_exists in H as (r & Hr & Heq).
  apply bool_decide_eq_true in Heq.
  apply list_elem_of_In in Hr. pose proof (next_key_above pk rows r Hr) as Hlt.
  rewrite Heq, key_floor_num in Hlt. lia.
Qed.


Lemma assign_snoc props kv (o : Obj) :
  assign (props ++ [kv]) o = <[kv.1 := kv.2]> (assign props o).
Proof. unfold assign. by rewrite fold_left_app. Qed.

(** Reading a property of [{ ...o, k1: v1, ... }]: the last [ki] that is
    the property decides. *)
Lemma get_assign k props (o : Obj) :
  get k (assign props o)
  = match List.find (fun kv => String.eqb kv.1 k) (rev props) with
    | Some kv => kv.2
    | None => get k o
    end.
Proof.
  induction props as [|kv props IH] using rev_ind; [done|].
  rewrite assign_snoc, rev_app_distr. cbn [rev app List.find].
  destruct (String.eqb_spec kv.1 k) as [<-|Hne].
  - apply get_insert_eq.
  - by rewrite get_insert_ne.
Qed.

Lemma create_slug slug kw (c : Obj) :
  get "slug" (ProductsCreate.dataToInsert slug kw c) = VStr slug.
Proof. unfold ProductsCreate.dataToInsert. by rewrite get_assign. Qed.


(** ** Constraints *)

Lemma taken_elem c v (rows : list Obj) r :
  r ∈ rows -> get c r = v -> v <> VUndef -> v <> VNull -> taken c v rows = true.
Proof.
  intros Hr Hg Hu Hn.
  assert (H : existsb (fun r => bool_decide (get c r = v)) rows = true).
  { apply existsb_exists. exists r. split; [by apply list_elem_of_In|].
    by apply bool_decide_eq_true. }
  by destruct v.
Qed.

(** An insert into [products] whose slug is in use is refused with the
    code of a unique violation, and changes nothing. *)
Lemma exec_insert_slug_in_use (row other : Obj) slug (db : Db) :
  get "slug" row = VStr slug ->
  other ∈ rows_of "products" db -> get "slug" other = VStr slug ->
  exists c, exec (Insert "products" [row]) db = (inl (unique_violation c), db).
Proof.
  intros Hrow Hin Hother. cbn [exec]. unfold exec_insert. cbn [insert_rows].
  set (keyed := with_key "products" (rows_of "products" db) row).
  assert (Hk : get "slug" keyed = VStr slug).
  { unfold keyed, with_key. cbn zeta.
    destruct (delete_undefined row !! primary_key "products").
    - by rewrite get_delete_undefined.
    - rewrite get_insert_ne by done. by rewrite get_delete_undefined. }
  destruct (conflict "products" keyed (rows_of "products" db)) as [c|] eqn:Hc.
  { by exists c. }
  exfalso. unfold conflict in Hc.
  eapply find_none in Hc; [|right; left; reflexivity].
  cbv beta in Hc. rewrite Hk in Hc.
  by rewrite (taken_elem "slug" (VStr slug) _ other) in Hc.
Qed.




(** A delete of a category that a product references is refused with the
    code of a foreign-key violation, and changes nothing. *)
Lemma exec_delete_referenced (cat product : Obj) id (db : Db) :
  cat ∈ rows_of "categories" db -> get "categories_id" cat = id ->
  product ∈ rows_of "products" db -> get "category_id" product = id ->
  id <> VUndef -> id <> VNull ->
  exec (Delete "categories" (Eq "categories_id" id)) db
  = (inl (foreign_key_violation "products"), db).
Proof.
  intros Hcat Hid Hprod Href Hu Hn.
  cbn [exec]. unfold exec_delete. cbn zeta.
  change (restricting_references "categories") with [("products", "category_id")].
  cbn [List.find].
  assert (H : existsb
                (fun r : Obj => taken "category_id" (get (primary_key "categories") r)
                                  (rows_of "products" db))
                (List.filter (matches (Eq "categories_id" id)) (rows_of "categories" db))
              = true).
  { apply existsb_exists. exists cat. split.
    - apply filter_In. split; [by apply list_elem_of_In|].
      simpl. by apply bool_decide_eq_true.
    - change (primary_key "categories") with "categories_id". rewrite Hid.
      by apply (taken_elem _ _ _ product). }
  by rewrite H.
Qed.

Lemma exec_update_rows t patch f (db1 db2 : Db) :
  rows_of t db1 = rows_of t db2 ->
  (exec_update t patch f db1).1 = (exec_update t patch f db2).1.
Proof.
  intros H. unfold exec_update. cbn zeta. rewrite H.
  by destruct (List.find _ _).
Qed.

Lemma answer_run s w :
  hd NoFault (faults w) = NoFault -> answer s w = Fulfilled (exec s (db w)).1.
Proof. unfold answer, send. intros ->. by destruct (exec s (db w)). Qed.

Lemma db_sent_run s w :
  hd NoFault (faults w) = NoFault -> db (sent s w) = (exec s (db w)).2.
Proof. unfold sent, send. intros ->. by destruct (exec s (db w)). Qed.

Lemma quiet_hd w : quiet w -> hd NoFault (faults w) = NoFault.
Proof. unfold quiet. destruct (faults w); [done|]. by inversion 1. Qed.

Lemma deleteCategorySchema_id j validated :
  CategoriesDelete.deleteCategorySchema (Some j) = inr validated ->
  exists q, get "id" validated = VNum q.
Proof.
  unfold CategoriesDelete.deleteCategorySchema, Zod.z_object.
  destruct j as [| | | | |fields]; try done.
  cbn [Zod.object_fields]. unfold Zod.z_number.
  destruct (Zod.lookup_field "id" fields) as [[| |q| | |]|]; try done.
  unfold Zod.checked_number.
  destruct (flat_map _ _); [|done]. simpl.
  intros [= <-]. exists q. apply get_insert_eq.
Qed.

Lemma writes_to_other tables t s : writes_to tables s -> t ∉ tables -> writes s <> Some t.
Proof. unfold writes_to. destruct (writes s); [|done]. intros H Hn [= ->]. done. Qed.

(** Up to the update of the product row, only tables of related data are
    written to. *)
Lemma before_update_writes input rest t :
  Forall (writes_to (List.filter (fun t => negb (String.eqb t "product_images"))
                       related_tables)) rest ->
  t ∉ related_tables ->
  Forall (fun s => writes s <> Some t) (before_update input rest).
Proof.
  intros Hrest Ht. unfold before_update.
  repeat (constructor; [done|]).
  constructor.
  { intros [= <-]. apply Ht. in_list. }
  eapply Forall_impl; [exact Hrest|]. intros s Hs.
  eapply writes_to_other; [exact Hs|].
  intros Hin. apply Ht. apply list_elem_of_In. apply list_elem_of_In in Hin.
  apply filter_In in Hin. tauto.
Qed.

(** ** The rows of [product_images] *)











(** ** The main path of the create route *)

Lemma create_run lib slugify w j productInput row :
  configured w -> settles w ->
  ProductsCreate.createProductSchema lib (Some j) = inr productInput ->
  answer (core_insert slugify productInput) w = Fulfilled (inr [row]) ->
  let newProduct := project ["products_id"; "slug"; "category_id"; "brand_id"] row in
  let w1 := sent (core_insert slugify productInput) w in
  exists ss relatedDataErrors w',
    ProductsCreate.POST lib slugify (Document j) w
      = (Normal (json (Created (ProductsCreate.responseMessage relatedDataErrors)
                         newProduct (errors_field relatedDataErrors)) 201), w') /\
    best_effort false (get "products_id" row) (ProductsCreate.related productInput)
      (entries ss w1) relatedDataErrors /\
    same_backend
      (sent (related_paths_query (get "products_id" row)) (sends ss w1)) w'.
Proof.
  intros Hc Hs Hv Hins newProduct w1.
  assert (Hs1 : settles w1) by (by apply settles_sent).
  assert (Hc1 : configured w1) by (by apply configured_sent).
  assert (Hpid : get "products_id" newProduct = get "products_id" row).
  { unfold newProduct. apply get_project. in_list. }
  destruct (insert_related_settles false (get "products_id" row)
              (ProductsCreate.related productInput) [] w1 Hs1)
    as (ss & errs & Hrel & Hbest & _).
  pose proof (settles_sends ss w1 Hs1) as Hs2.
  pose proof (configured_sends ss w1 Hc1) as Hc2.
  destruct (answer_settles (related_paths_query (get "products_id" row))
              (sends ss w1) Hs2) as [r Hr].
  set (w2 := sent (related_paths_query (get "products_id" row)) (sends ss w1)).
  destruct (revalidateCustomerApp_spec
              {| path := None;
                 paths := Some (array_from_set
                   (push_if (paths_of r).2 (push_if (paths_of r).1
                      ["/"; "/products";
                       "/products/" +:+ string_of (get "slug" newProduct)]))) |} w2)
    as (w' & Hrev & Hb & _).
  exists ss, errs, w'. split; [|done].
  unfold ProductsCreate.POST.
  erewrite bind_normal; [|by apply getSupabaseAdmin_configured].
  apply try_catch_normal.
  erewrite bind_normal; [|reflexivity].
  rewrite Hv. unfold insert_select_single. fold (core_insert slugify productInput).
  erewrite bind_normal; [|by rewrite await_send, Hins].
  cbn [single sum_map map error data]. fold newProduct w1.
  unfold ProductsCreate.after_insert. rewrite Hpid.
  erewrite bind_normal; [|exact Hrel].
  erewrite bind_normal; [|by rewrite getProductRelatedPaths_spec, Hr].
  erewrite bind_normal; [|exact Hrev]. done.
Qed.

(** ** The paths handed to the notifier by the update route *)

Lemma push_if_option p paths : p <> Some "" -> push_if p paths = paths ++ option_list p.
Proof.
  destruct p as [x|]; simpl; [|by rewrite app_nil_r].
  intros H. destruct (String.eqb_spec x ""); [by subst|done].
Qed.

Lemma paths_of_nonempty r : (paths_of r).1 <> Some "" /\ (paths_of r).2 <> Some "".
Proof.
  unfold paths_of. destruct r as [e|[|row [|]]]; simpl; try done.
  split.
  - destruct (get "categories.slug" row); try done. by destruct (String.eqb s "").
  - destruct (get "brands.slug" row); try done. by destruct (String.eqb s "").
Qed.


(** ** Validation *)

(** The issues of one side of [both] are issues of the pair. *)
Lemma both_issue_l {A B} (a : Zod.Parsed A) (b : Zod.Parsed B) issues i :
  a = inl issues -> i ∈ issues -> exists all, Zod.both a b = inl all /\ i ∈ all.
Proof.
  intros -> Hi. destruct b as [more|y]; simpl; eexists; (split; [reflexivity|]).
  - apply elem_of_app. by left.
  - done.
Qed.

Lemma both_issue_r {A B} (a : Zod.Parsed A) (b : Zod.Parsed B) issues i :
  b = inl issues -> i ∈ issues -> exists all, Zod.both a b = inl all /\ i ∈ all.
Proof.
  intros -> Hi. destruct a as [more|y]; simpl; eexists; (split; [reflexivity|]).
  - apply elem_of_app. by right.
  - done.
Qed.

Lemma pmap_issue {A B} (f : A -> B) (a : Zod.Parsed A) issues :
  a = inl issues -> Zod.pmap f a = inl issues.
Proof. by intros ->. Qed.

(** An issue of a field is an issue of the object, under the key of the
    field. *)
Lemma object_fields_issue shape fields k (s : Zod.Schema Val) issues i :
  (k, s) ∈ shape ->
  s (Zod.lookup_field k fields) = inl issues -> i ∈ issues ->
  exists all,
    Zod.object_fields shape fields = inl all /\
    {| Zod.issue_code := Zod.issue_code i;
       Zod.issue_path := Zod.Key k :: Zod.issue_path i;
       Zod.issue_message := Zod.issue_message i |} ∈ all.
Proof.
  intros Hin Hs Hi. induction shape as [|[k' s'] shape IH]; [by inversion Hin|].
  cbn [Zod.object_fields].
  apply elem_of_cons in Hin as [Heq|Hin'].
  - injection Heq as Hk Hs'. subst k' s'.
    edestruct (both_issue_l (Zod.under (Zod.Key k) (s (Zod.lookup_field k fields)))
                 (Zod.object_fields shape fields)) as (all & Hb & Hall).
    + rewrite Hs. reflexivity.
    + apply (list_elem_of_fmap_2 _ _ _ Hi).
    + exists all. split; [by apply pmap_issue|done].
  - destruct (IH Hin') as (all0 & Ho & Hall0).
    edestruct (both_issue_r (Zod.under (Zod.Key k') (s' (Zod.lookup_field k' fields)))
                 (Zod.object_fields shape fields)) as (all & Hb & Hall);
      [exact Ho|exact Hall0|].
    exists all. split; [by apply pmap_issue|done].
Qed.

(** A negative price does not pass the update schema: the issues hold one
    for [price], with the code of a number that is too small. *)
Lemma negative_price_is_an_issue lib fields (q : Qc) :
  Zod.lookup_field "price" fields = Some (Zod.JNum q) ->
  (q < 0)%Qc ->
  exists issues,
    ProductsUpdate.updateProductSchema lib (Some (Zod.JObj fields)) = inl issues /\
    {| Zod.issue_code := "too_small"; Zod.issue_path := [Zod.Key "price"];
       Zod.issue_message := None |} ∈ issues.
Proof.
  intros Hp Hq. unfold ProductsUpdate.updateProductSchema.
  match goal with
  | |- context [Zod.object_fields ?shape fields] =>
      destruct (object_fields_issue shape fields "price"
                  (Zod.optional (Zod.z_coerce_number lib [(Zod.min 0, None)]))
                  [{| Zod.issue_code := "too_small"; Zod.issue_path := [];
                      Zod.issue_message := None |}]
                  {| Zod.issue_code := "too_small"; Zod.issue_path := [];
                     Zod.issue_message := None |})
        as (all & Hall & Hin)
  end.
  - do 4 apply list_elem_of_further. apply list_elem_of_here.
  - rewrite Hp. unfold Zod.optional, Zod.z_coerce_number. cbn [Zod.Number].
    unfold Zod.checked_number. cbn [flat_map Zod.number_check fst snd].
    rewrite bool_decide_eq_false_2; [done|].
    intros Hle. apply (Qclt_not_le _ _ Hq). exact Hle.
  - by left.
  - cbn [Zod.issue_code Zod.issue_path Zod.issue_message] in Hin.
    rewrite Hall.
    set (b1 := Zod.both (Zod.under (Zod.Key "seo_keywords") _) _).
    set (a1 := Zod.under (Zod.Key "products_id") _).
    destruct b1, a1; simpl; eexists; (split; [reflexivity|]);
      rewrite ?elem_of_app; auto.
Qed.

End Facts.

(* ===================================================================== *)
(** * The statements of the specification *)
(* ===================================================================== *)

Import Js Pg Node Supabase Revalidate RelatedData Http Runs Facts.
Open Scope js_scope.

(** ** Related data on create *)

(** C1.  A create request that passes validation and whose product row is
    inserted is answered with status 201, whatever becomes of the related
    data.  Each of the six collections and each variant is attempted on its
    own ([best_effort]): a failed insert adds its message to the list of
    errors, and the only statements that are skipped are the attribute and
    feature inserts of a variant whose own insert failed.  The body of the
    response carries the list of errors.

    [settles] says that the database answers every statement, with rows or
    with an error; a rejected promise is caught by the handler, which then
    answers 500. *)
Theorem create_related_data_is_best_effort
    (lib : Zod.Lib) (slugify : string -> string) (w : World) (j : Zod.Json)
    (productInput : ProductsCreate.ValidatedProductData) (row : Obj) :
  configured w ->
  settles w ->
  ProductsCreate.createProductSchema lib (Some j) = inr productInput ->
  answer (core_insert slugify productInput) w = Fulfilled (inr [row]) ->
  exists log relatedDataErrors paths_entry w',
    ProductsCreate.POST lib slugify (Document j) w
      = (Normal (json (Created (ProductsCreate.responseMessage relatedDataErrors)
                         (project ["products_id"; "slug"; "category_id"; "brand_id"] row)
                         (errors_field relatedDataErrors)) 201), w') /\
    best_effort false (get "products_id" row) (ProductsCreate.related productInput)
      log relatedDataErrors /\
    statements w' = statements w ++
      [{| stmt := core_insert slugify productInput; outcome := Fulfilled (inr [row]) |}]
      ++ log ++ [paths_entry] /\
    stmt paths_entry = related_paths_query (get "products_id" row).
Proof.
  intros Hc Hs Hv Hins.
  destruct (create_run lib slugify w j productInput row Hc Hs Hv Hins)
    as (ss & errs & w' & Hpost & Hbest & Hb).
  exists (entries ss (sent (core_insert slugify productInput) w)), errs,
    {| stmt := related_paths_query (get "products_id" row);
       outcome := answer (related_paths_query (get "products_id" row))
                    (sends ss (sent (core_insert slugify productInput) w)) |},
    w'.
  split; [done|]. split; [done|]. split; [|done].
  destruct Hb as (_ & _ & _ & _ & _ & ->).
  by rewrite statements_sent, statements_sends, statements_sent, Hins, <- !app_assoc.
Qed.

(** C1 on a request with two images, a tag and two variants, where the
    database refuses the images and the second variant. *)
Lemma create_related_data_is_best_effort_witness :
  let w := Sample.world [NoFault; Fails Sample.timeout; NoFault; NoFault; NoFault;
                         Fails Sample.timeout] in
  exists productInput row log relatedDataErrors paths_entry w',
    ProductsCreate.createProductSchema Sample.lib (Some Sample.create_winter_coat)
      = inr productInput /\
    ProductsCreate.POST Sample.lib Sample.slugify (Document Sample.create_winter_coat) w
      = (Normal (json (Created (ProductsCreate.responseMessage relatedDataErrors)
                         (project ["products_id"; "slug"; "category_id"; "brand_id"] row)
                         (errors_field relatedDataErrors)) 201), w') /\
    best_effort false (get "products_id" row) (ProductsCreate.related productInput)
      log relatedDataErrors /\
    statements w' = statements w ++
      [{| stmt := core_insert Sample.slugify productInput;
          outcome := Fulfilled (inr [row]) |}]
      ++ log ++ [paths_entry] /\
    stmt paths_entry = related_paths_query (get "products_id" row).
Proof.
  intros w.
  right_value (ProductsCreate.createProductSchema Sample.lib
                 (Some Sample.create_winter_coat)) productInput.
  let v := eval vm_compute in (answer (core_insert Sample.slugify productInput) w) in
  lazymatch v with Fulfilled (inr [?x]) => pose (row := x) end.
  destruct (create_related_data_is_best_effort Sample.lib Sample.slugify w
              Sample.create_winter_coat productInput row)
    as (log & errs & paths_entry & w' & H).
  - evaluated.
  - unfold settles, w. cbn [faults Sample.world]. repeat constructor; discriminate.
  - evaluated.
  - evaluated.
  - exists productInput, row, log, errs, paths_entry, w'.
    split; [evaluated | exact H].
Defined.

(** ** A slug in use, on create *)

(** C2, as the route behaves.  The create route writes the slug made from
    the name and does not look for a free one: when a stored product has
    that slug already, the insert fails on the unique constraint (code
    23505), the route answers 409 and the database is left as it was. *)
Theorem create_with_slug_in_use_is_refused
    (lib : Zod.Lib) (slugify : string -> string) (w : World) (j : Zod.Json)
    (productInput : ProductsCreate.ValidatedProductData) (other : Obj) :
  configured w ->
  hd NoFault (faults w) = NoFault ->
  ProductsCreate.createProductSchema lib (Some j) = inr productInput ->
  other ∈ rows_of "products" (db w) ->
  get "slug" other
    = VStr (slugify (string_of (get "name" (ProductsCreate.coreProductData productInput)))) ->
  exists error insertError w',
    ProductsCreate.POST lib slugify (Document j) w
      = (Normal (json (ErrorBody error None) 409), w') /\
    db w' = db w /\
    statements w' = statements w ++
      [{| stmt := Insert "products"
                    [ProductsCreate.dataToInsert
                       (slugify (string_of (get "name"
                          (ProductsCreate.coreProductData productInput))))
                       (ProductsCreate.seo_keywords productInput)
                       (ProductsCreate.coreProductData productInput)];
          outcome := Fulfilled (inl insertError) |}] /\
    code insertError = "23505".
Proof.
  intros Hc Hf Hv Hin Hslug.
  set (slug := slugify _) in *.
  set (row := ProductsCreate.dataToInsert slug _ _).
  destruct (exec_insert_slug_in_use row other slug (db w)) as [c Hexec];
    [apply create_slug|done|done|].
  pose proof (answer_run (Insert "products" [row]) w Hf) as Hans.
  pose proof (db_sent_run (Insert "products" [row]) w Hf) as Hdb.
  rewrite Hexec in Hans, Hdb. cbn [fst snd] in Hans, Hdb.
  eexists _, (unique_violation c), (sent (Insert "products" [row]) w).
  split; [|split; [done|split; [|done]]].
  - unfold ProductsCreate.POST.
    erewrite bind_normal; [|by apply getSupabaseAdmin_configured].
    apply try_catch_normal.
    erewrite bind_normal; [|reflexivity].
    rewrite Hv. fold slug row. unfold insert_select_single.
    erewrite bind_normal; [|by rewrite await_send, Hans]. reflexivity.
  - by rewrite statements_sent, Hans.
Qed.

(** C2 in a shop that holds the product "Red Hat". *)
Lemma create_with_slug_in_use_is_refused_witness :
  let w := Sample.world [] in
  exists productInput error insertError w',
    ProductsCreate.createProductSchema Sample.lib (Some Sample.create_red_hat)
      = inr productInput /\
    ProductsCreate.POST Sample.lib Sample.slugify (Document Sample.create_red_hat) w
      = (Normal (json (ErrorBody error None) 409), w') /\
    db w' = db w /\
    statements w' = statements w ++
      [{| stmt := core_insert Sample.slugify productInput;
          outcome := Fulfilled (inl insertError) |}] /\
    code insertError = "23505".
Proof.
  intros w.
  right_value (ProductsCreate.createProductSchema Sample.lib
                 (Some Sample.create_red_hat)) productInput.
  destruct (create_with_slug_in_use_is_refused Sample.lib Sample.slugify w
              Sample.create_red_hat productInput Sample.red_hat)
    as (error & insertError & w' & H).
  - evaluated.
  - reflexivity.
  - evaluated.
  - in_list.
  - evaluated.
  - exists productInput, error, insertError, w'. split; [evaluated | exact H].
Defined.

(** C2 as stated fails: in a shop that holds a product with the slug
    "red-hat", creating another product named "Red Hat" is answered 409,
    and no product is added. *)
Lemma create_red_hat_again_is_refused :
  let w := Sample.world [] in
  let r := ProductsCreate.POST Sample.lib Sample.slugify
             (Document Sample.create_red_hat) w in
  Sample.red_hat ∈ rows_of "products" (db w) /\
  get "slug" Sample.red_hat = VStr (Sample.slugify "Red Hat") /\
  r.1 = Normal (json (ErrorBody "Product creation failed: Key (slug) already exists."
                        None) 409) /\
  rows_of "products" (db r.2) = [Sample.red_hat; Sample.blue_hat].
Proof.
  cbn zeta. split; [|split; [|split]].
  - in_list.
  - evaluated.
  - evaluated.
  - evaluated.
Qed.

(** ** The slug on update *)




(** ** Invalid update payloads *)

(** C4.  An update request whose payload fails validation is answered 400
    with the flattened issues, and the world after the handler is the world
    before it: no statement is sent, no row changes.  A negative price is
    such a payload: it raises the issue [too_small] at the field [price]. *)
Theorem update_with_invalid_payload_changes_nothing
    (lib : Zod.Lib) (slugify : string -> string) :
  (forall (w : World) (j : Zod.Json) (issues : list Zod.Issue),
     configured w ->
     ProductsUpdate.updateProductSchema lib (Some j) = inl issues ->
     ProductsUpdate.POST lib slugify (Document j) w
     = (Normal (json (ErrorBody "Invalid product data"
                        (Some (Validation (Zod.flatten issues)))) 400), w)) /\
  (forall (fields : list (string * Zod.Json)) (q : Qc),
     Zod.lookup_field "price" fields = Some (Zod.JNum q) ->
     (q < 0)%Qc ->
     exists issues,
       ProductsUpdate.updateProductSchema lib (Some (Zod.JObj fields)) = inl issues /\
       {| Zod.issue_code := "too_small"; Zod.issue_path := [Zod.Key "price"];
          Zod.issue_message := None |} ∈ issues).
Proof.
  split.
  - intros w j issues Hc Hv. unfold ProductsUpdate.POST.
    erewrite bind_normal; [|by apply getSupabaseAdmin_configured].
    apply try_catch_normal.
    erewrite bind_normal; [|reflexivity].
    by rewrite Hv.
  - apply negative_price_is_an_issue.
Qed.

(** C4 on an update of "Blue Hat" with the price -5. *)
Lemma update_with_invalid_payload_changes_nothing_witness :
  let w := Sample.world [] in
  exists issues,
    ProductsUpdate.updateProductSchema Sample.lib (Some Sample.underprice_blue_hat)
      = inl issues /\
    {| Zod.issue_code := "too_small"; Zod.issue_path := [Zod.Key "price"];
       Zod.issue_message := None |} ∈ issues /\
    ProductsUpdate.POST Sample.lib Sample.slugify (Document Sample.underprice_blue_hat) w
      = (Normal (json (ErrorBody "Invalid product data"
                         (Some (Validation (Zod.flatten issues)))) 400), w).
Proof.
  intros w.
  destruct (proj2 (update_with_invalid_payload_changes_nothing Sample.lib Sample.slugify)
              [("products_id", Sample.jnum 2); ("price", Sample.jnum (-5))]
              (Qc_of_Z (-5)))
    as (issues & Hissues & Hin).
  - reflexivity.
  - reflexivity.
  - exists issues. split; [exact Hissues|]. split; [exact Hin|].
    apply (proj1 (update_with_invalid_payload_changes_nothing Sample.lib Sample.slugify)).
    + evaluated.
    + exact Hissues.
Defined.

(** ** Image rows *)



(** ** Paths revalidated after an update *)




(** ** Deleting a category in use *)

(** C7.  Deleting a category that a product refers to is answered 409, and
    the database is left as it was: the category row is still stored.  The
    route does not look for such products itself; the database refuses the
    delete (code 23503) and the route turns that into the conflict. *)
Theorem delete_of_referenced_category_is_conflict
    (w : World) (j : Zod.Json) (validated cat product : Obj) :
  configured w ->
  quiet w ->
  CategoriesDelete.deleteCategorySchema (Some j) = inr validated ->
  List.filter (matches (Eq "categories_id" (get "id" validated)))
    (rows_of "categories" (db w)) = [cat] ->
  product ∈ rows_of "products" (db w) ->
  get "category_id" product = get "id" validated ->
  exists error w',
    CategoriesDelete.POST (Document j) w
      = (Normal (json (ErrorBody error None) 409), w') /\
    db w' = db w.
Proof.
  intros Hc Hq Hv Hcat Hprod Href.
  destruct (deleteCategorySchema_id j validated Hv) as [q Hid].
  set (id := get "id" validated) in *.
  set (sel := Select "categories" (Eq "categories_id" id)).
  set (del := Delete "categories" (Eq "categories_id" id)).
  assert (Hcat_in : cat ∈ rows_of "categories" (db w) /\ get "categories_id" cat = id).
  { assert (Hin : In cat (List.filter (matches (Eq "categories_id" id))
                            (rows_of "categories" (db w)))) by (rewrite Hcat; by left).
    apply filter_In in Hin as [Hin Hm]. split; [by apply list_elem_of_In|].
    simpl in Hm. by apply bool_decide_eq_true in Hm. }
  destruct Hcat_in as [Hcat_in Hcat_id].
  pose proof (answer_select_quiet "categories" (Eq "categories_id" id) w Hq) as Hsel.
  rewrite Hcat in Hsel. fold sel in Hsel.
  assert (Hdb0 : db (sent sel w) = db w) by (by apply db_sent_read).
  pose proof (quiet_sent sel w Hq) as Hq1.
  pose proof (answer_quiet del (sent sel w) Hq1) as Hdel.
  pose proof (db_sent_quiet del (sent sel w) Hq1) as Hdb1.
  rewrite Hdb0 in Hdel, Hdb1. unfold del at 2 in Hdel. unfold del at 2 in Hdb1.
  rewrite (exec_delete_referenced cat product id (db w)) in Hdel, Hdb1;
    try done; try (rewrite Hid; done).
  cbn [fst snd] in Hdel, Hdb1.
  eexists _, (sent del (sent sel w)). split; [|done].
  unfold CategoriesDelete.POST.
  erewrite bind_normal; [|by apply getSupabaseAdmin_configured].
  apply try_catch_normal.
  erewrite bind_normal; [|reflexivity].
  rewrite Hv. fold id. unfold select_eq_single. fold sel.
  erewrite bind_normal; [|by rewrite await_send, Hsel].
  cbn [single sum_map map error data].
  unfold delete_eq. fold del.
  erewrite bind_normal; [|by rewrite await_send, Hdel]. reflexivity.
Qed.

(** C7 on the category "Hats", to which both products of the shop
    belong. *)
Lemma delete_of_referenced_category_is_conflict_witness :
  let w := Sample.world [] in
  exists error w',
    CategoriesDelete.POST (Document Sample.delete_hats) w
      = (Normal (json (ErrorBody error None) 409), w') /\
    db w' = db w.
Proof.
  intros w.
  right_value (CategoriesDelete.deleteCategorySchema (Some Sample.delete_hats)) validated.
  apply (delete_of_referenced_category_is_conflict w Sample.delete_hats validated
           Sample.hats Sample.red_hat).
  - evaluated.
  - constructor.
  - evaluated.
  - evaluated.
  - in_list.
  - evaluated.
Defined.

(** ** The notifier *)

(** C8.  [revalidateCustomerApp] returns normally for every payload in
    every world: it never throws.  Without the list of base URLs, without
    the secret, or with no URL left after trimming, it writes one line to
    the console and sends nothing; otherwise it sends one request to each
    URL, waits for all of them to settle, and finishes whatever became of
    them.  It touches nothing but the console and the network. *)
Theorem notifier_never_fails_its_caller (payload : RevalidationPayload) (w : World) :
  exists w',
    revalidateCustomerApp payload w = (Normal tt, w') /\
    same_backend w w' /\
    requests w' = requests w ++ notifier_requests (env w) payload /\
    exists lines, console w' = console w ++ lines /\ notifier_console (env w) lines.
Proof.
  destruct (revalidateCustomerApp_spec payload w) as (w' & H & Hb & _ & Hq & Hl).
  by exists w'.
Qed.

(** ** Slug generation *)

(** C9, as the two forms behave.  Both [generateSlug] functions are
    idempotent, and what they return is lower-case letters and digits
    separated by single hyphens, with no hyphen at either end ([is_slug]).
    On "Men's T-Shirt!" the product edit form returns "mens-t-shirt"; the
    category form turns the apostrophe into a hyphen and returns
    "men-s-t-shirt". *)
Theorem slug_generation_is_idempotent (name : string) :
  CategoryForm.generateSlug (CategoryForm.generateSlug name)
    = CategoryForm.generateSlug name /\
  ProductEditForm.generateSlug (ProductEditForm.generateSlug name)
    = ProductEditForm.generateSlug name /\
  is_slug (CategoryForm.generateSlug name) = true /\
  is_slug (ProductEditForm.generateSlug name) = true /\
  ProductEditForm.generateSlug "Men's T-Shirt!" = "mens-t-shirt" /\
  CategoryForm.generateSlug "Men's T-Shirt!" = "men-s-t-shirt".
Proof.
  repeat split.
  - apply category_slug_fixed, category_slug_is_slug.
  - apply product_slug_fixed, product_slug_is_slug.
  - apply category_slug_is_slug.
  - apply product_slug_is_slug.
Qed.

(** C9 as stated fails for the category form, which does not strip the
    apostrophe. *)
Lemma category_form_slug_of_mens_t_shirt :
  CategoryForm.generateSlug "Men's T-Shirt!" = "men-s-t-shirt" /\
  CategoryForm.generateSlug "Men's T-Shirt!" <> "mens-t-shirt".
Proof. split; [reflexivity | discriminate]. Qed.

(** ** The guard on the deletion of variants *)

(** None of the deletions that are run together is on [product_variants]. *)
Lemma delete_statements_spare_variants pid ids f :
  Delete "product_variants" f ∉ delete_statements pid ids.
Proof.
  unfold delete_statements. intros H.
  destruct (Nat.ltb 0 (length ids)); cbn [app] in H;
    repeat (apply elem_of_cons in H as [H|H]; [discriminate H|]);
    by apply elem_of_nil in H.
Qed.

(** The guard of the update route, as written: when the deletion phase
    sends a delete of [product_variants], the variant ids were fetched and
    are not empty, and no error text recorded so far contains the name of
    the table of the attributes or of the features. *)
Lemma variants_delete_is_guarded (pid : Val) (w : World) (f : Filter) :
  Delete "product_variants" f ∈
    map stmt (drop (length (statements w))
                (statements (ProductsUpdate.delete_related pid w).2)) ->
  exists rows,
    answer (Select "product_variants" (Eq "product_id" pid)) w = Fulfilled (inr rows) /\
    rows <> [] /\
    let ids := map (get "id") (map (project ["id"]) rows) in
    f = In_ "id" ids /\
    ProductsUpdate.mentions_nested
      (ProductsUpdate.rejections
         (settled_as no_data (delete_statements pid ids)
            (sent (Select "product_variants" (Eq "product_id" pid)) w))) = false.
Proof.
  unfold ProductsUpdate.delete_related, select_eq.
  set (sel := Select "product_variants" (Eq "product_id" pid)).
  destruct (answer sel w) as [r|e] eqn:Hr.
  2: { erewrite bind_throw; [|by rewrite await_send, Hr].
       cbn [snd]. rewrite statements_sent, drop_app_length. cbn [map].
       intros Hin%list_elem_of_singleton. discriminate Hin. }
  erewrite bind_normal; [|by rewrite await_send, Hr].
  set (fetched := many (sum_map id (map (project ["id"])) r)).
  set (ids := match data fetched with
              | Some variantIdsData => map (get "id") variantIdsData
              | None => []
              end).
  rewrite deletePromises_statements.
  erewrite bind_normal; [|by apply allSettled_sends].
  set (errs := _ ++ ProductsUpdate.rejections _).
  set (w2 := sends (delete_statements pid ids) (sent sel w)).
  assert (Hlog : statements w2
                 = statements w ++ entries (sel :: delete_statements pid ids) w).
  { unfold w2. rewrite statements_sends, statements_sent, <- app_assoc. reflexivity. }
  destruct (Nat.ltb 0 (length ids) && negb (ProductsUpdate.mentions_nested errs)) eqn:Hg.
  - apply andb_prop in Hg as [Hlen Hm%negb_true_iff].
    set (del := Delete "product_variants" (In_ "id" ids)).
    assert (Hw : forall k : Result unit -> M (list string),
              (forall r w', (k r w').2 = w') ->
              (bind (await (delete_in "product_variants" "id" ids)) k w2).2 = sent del w2).
    { intros k Hk. unfold delete_in. fold del.
      destruct (answer del w2) as [r2|e2] eqn:Hr2.
      - erewrite bind_normal; [|by rewrite await_send, Hr2]. apply Hk.
      - erewrite bind_throw; [|by rewrite await_send, Hr2]. done. }
    rewrite Hw by (intros r2 w'; by destruct (error r2)).
    rewrite statements_sent, Hlog, <- app_assoc, drop_app_length.
    rewrite map_app, stmt_entries. cbn [map stmt].
    intros Hin. apply elem_of_app in Hin as [Hin|Hin%list_elem_of_singleton].
    { apply elem_of_cons in Hin as [Hin|Hin]; [discriminate Hin|].
      by apply delete_statements_spare_variants in Hin. }
    destruct r as [e|rows]; [done|]. exists rows.
    injection Hin as ->.
    split; [done|]. split; [by intros ->|]. split; [done|]. exact Hm.
  - cbn [ret snd]. rewrite Hlog, drop_app_length, stmt_entries.
    intros Hin. apply elem_of_cons in Hin as [Hin|Hin]; [discriminate Hin|].
    by apply delete_statements_spare_variants in Hin.
Qed.


(* ===================================================================== *)
(** * Further properties of the code *)
(* ===================================================================== *)

(** ** Statements that fail *)

Lemma exec_error_keeps db s e : (exec s db).1 = inl e -> (exec s db).2 = db.
Proof.
  destruct s as [t rows|t patch f|t f|t f|f]; cbn [exec].
  - unfold exec_insert. by destruct (insert_rows _ _ _).
  - unfold exec_update. cbn zeta. by destruct (List.find _ _).
  - unfold exec_delete. cbn zeta. by destruct (List.find _ _) as [[]|].
  - done.
  - done.
Qed.

Lemma db_sent_error s w e : answer s w = Fulfilled (inl e) -> db (sent s w) = db w.
Proof.
  unfold answer, sent, send.
  destruct (hd NoFault (faults w)) as [|e'|reason]; cbn.
  - pose proof (exec_error_keeps (db w) s e) as H.
    destruct (exec s (db w)) as [r db']. cbn in *. intros [= ->]. by apply H.
  - done.
  - done.
Qed.

Lemma answer_rejected s w reason :
  hd NoFault (faults w) = Rejects reason -> answer s w = Rejected reason.
Proof. unfold answer, send. by intros ->. Qed.

Lemma db_sent_rejected s w reason :
  hd NoFault (faults w) = Rejects reason -> db (sent s w) = db w.
Proof. unfold sent, send. by intros ->. Qed.

Lemma answer_failed s w e :
  hd NoFault (faults w) = Fails e -> answer s w = Fulfilled (inl e).
Proof. unfold answer, send. by intros ->. Qed.

Lemma db_sent_failed s w e :
  hd NoFault (faults w) = Fails e -> db (sent s w) = db w.
Proof. unfold sent, send. by intros ->. Qed.

Lemma try_catch_throw {A} (body : M A) h w e w' :
  body w = (Throw e, w') -> try_catch body h w = h e w'.
Proof. unfold try_catch. by intros ->. Qed.

Lemma unexpected_caught e w : unexpected e w = (Normal (caught e), w).
Proof. unfold unexpected, caught. by destruct (syntax_error e). Qed.

Lemma taken_none c v (rows : list Obj) :
  Forall (fun r => get c r <> v) rows -> taken c v rows = false.
Proof.
  intros H.
  assert (He : existsb (fun r => bool_decide (get c r = v)) rows = false).
  { induction H as [|r rows Hr _ IH]; [done|]. cbn.
    by rewrite IH, bool_decide_eq_false_2. }
  by destruct v.
Qed.

Lemma db_sends_reads ss w : Forall (fun s => writes s = None) ss -> db (sends ss w) = db w.
Proof.
  intros H. revert w. induction H as [|s ss Hs _ IH]; intros w; [done|].
  cbn [sends]. by rewrite IH, db_sent_read.
Qed.

(** ** Before the first statement *)




(** X2.  A request whose body is not JSON is answered 400, "Invalid JSON
    body", by each of the four handlers, and nothing is sent to the
    database or to the storefronts. *)
Theorem malformed_body_is_a_bad_request
    (lib : Zod.Lib) (slugify : string -> string) (w : World) :
  configured w ->
  let refused := (Normal (json (ErrorBody "Invalid JSON body" None) 400), w) in
  ProductsCreate.POST lib slugify Malformed w = refused /\
  ProductsUpdate.POST lib slugify Malformed w = refused /\
  CategoriesDelete.POST Malformed w = refused /\
  ProductsDelete.POST Malformed w = refused.
Proof.
  intros Hc refused.
  repeat split;
    unfold ProductsCreate.POST, ProductsUpdate.POST, CategoriesDelete.POST,
      ProductsDelete.POST;
    (erewrite bind_normal; [|by apply getSupabaseAdmin_configured]);
    reflexivity.
Qed.

(** X2 in the sample shop. *)
Lemma malformed_body_is_a_bad_request_witness :
  let w := Sample.world [] in
  let refused := (Normal (json (ErrorBody "Invalid JSON body" None) 400), w) in
  ProductsCreate.POST Sample.lib Sample.slugify Malformed w = refused /\
  ProductsUpdate.POST Sample.lib Sample.slugify Malformed w = refused /\
  CategoriesDelete.POST Malformed w = refused /\
  ProductsDelete.POST Malformed w = refused.
Proof.
  intros w.
  apply (malformed_body_is_a_bad_request Sample.lib Sample.slugify w).
  evaluated.
Defined.

(** X3.  When the promise of the first statement of a handler is rejected,
    the handler answers what its [catch] block makes of the reason (500
    with the message of the reason; 400 when the reason is a
    [SyntaxError]), sends nothing else, and the database and the notifier
    are left alone. *)
Theorem rejected_first_statement_is_caught
    (lib : Zod.Lib) (slugify : string -> string) (w : World) (j : Zod.Json)
    (reason : Exn) :
  configured w ->
  hd NoFault (faults w) = Rejects reason ->
  (forall productInput,
     ProductsCreate.createProductSchema lib (Some j) = inr productInput ->
     ProductsCreate.POST lib slugify (Document j) w
     = (Normal (caught reason), sent (core_insert slugify productInput) w)) /\
  (forall input,
     ProductsUpdate.updateProductSchema lib (Some j) = inr input ->
     ProductsUpdate.POST lib slugify (Document j) w
     = (Normal (caught reason), sent (current_query input) w)) /\
  (forall validated,
     CategoriesDelete.deleteCategorySchema (Some j) = inr validated ->
     CategoriesDelete.POST (Document j) w
     = (Normal (caught reason),
        sent (Select "categories" (Eq "categories_id" (get "id" validated))) w)) /\
  (forall fields id,
     j = Zod.JObj fields ->
     ProductsDelete.valid_id (Zod.lookup_field "id" fields) = Some id ->
     ProductsDelete.POST (Document j) w
     = (Normal (caught reason), sent (related_paths_query id) w)) /\
  forall s, db (sent s w) = db w /\ notified (sent s w) = notified w.
Proof.
  intros Hc Hf.
  split; [|split; [|split; [|split]]].
  - intros productInput Hv. unfold ProductsCreate.POST.
    erewrite bind_normal; [|by apply getSupabaseAdmin_configured].
    erewrite try_catch_throw; [apply unexpected_caught|].
    erewrite bind_normal; [|reflexivity]. rewrite Hv.
    unfold insert_select_single. fold (core_insert slugify productInput).
    erewrite bind_throw; [done|].
    by rewrite await_send, (answer_rejected _ _ _ Hf).
  - intros input Hv. unfold ProductsUpdate.POST.
    erewrite bind_normal; [|by apply getSupabaseAdmin_configured].
    erewrite try_catch_throw; [apply unexpected_caught|].
    erewrite bind_normal; [|reflexivity]. rewrite Hv.
    unfold ProductsUpdate.update. cbn zeta. unfold select_eq_single.
    fold (current_query input).
    erewrite bind_throw; [done|].
    by rewrite await_send, (answer_rejected _ _ _ Hf).
  - intros validated Hv. unfold CategoriesDelete.POST.
    erewrite bind_normal; [|by apply getSupabaseAdmin_configured].
    erewrite try_catch_throw; [apply unexpected_caught|].
    erewrite bind_normal; [|reflexivity]. rewrite Hv.
    unfold select_eq_single.
    erewrite bind_throw; [done|].
    by rewrite await_send, (answer_rejected _ _ _ Hf).
  - intros fields id -> Hid. unfold ProductsDelete.POST.
    erewrite bind_normal; [|by apply getSupabaseAdmin_configured].
    erewrite try_catch_throw; [apply unexpected_caught|].
    erewrite bind_normal; [|reflexivity].
    erewrite bind_normal; [|reflexivity]. rewrite Hid.
    erewrite bind_throw; [done|].
    by rewrite getProductRelatedPaths_spec, (answer_rejected _ _ _ Hf).
  - intros s. split; [by eapply db_sent_rejected|apply notified_sent].
Qed.

(** X3 on a create request, with a database that cannot be reached. *)
Lemma rejected_first_statement_is_caught_witness :
  let w := Sample.world [Rejects Sample.unreachable] in
  exists productInput,
    ProductsCreate.createProductSchema Sample.lib (Some Sample.create_red_hat)
      = inr productInput /\
    ProductsCreate.POST Sample.lib Sample.slugify (Document Sample.create_red_hat) w
      = (Normal (json (ErrorBody "An unexpected error occurred"
                         (Some (Message (Some "fetch failed")))) 500),
         sent (core_insert Sample.slugify productInput) w).
Proof.
  intros w.
  right_value (ProductsCreate.createProductSchema Sample.lib
                 (Some Sample.create_red_hat)) productInput.
  destruct (rejected_first_statement_is_caught Sample.lib Sample.slugify w
              Sample.create_red_hat Sample.unreachable) as (H & _).
  - evaluated.
  - reflexivity.
  - exists productInput. split; [evaluated | apply H; evaluated].
Defined.

(** ** The create route *)

Lemma missing_name_is_an_issue lib fields :
  Zod.lookup_field "name" fields = None ->
  exists issues,
    ProductsCreate.createProductSchema lib (Some (Zod.JObj fields)) = inl issues /\
    {| Zod.issue_code := "invalid_type"; Zod.issue_path := [Zod.Key "name"];
       Zod.issue_message := None |} ∈ issues.
Proof.
  intros Hn. unfold ProductsCreate.createProductSchema.
  match goal with
  | |- context [Zod.object_fields ?shape fields] =>
      destruct (object_fields_issue shape fields "name"
                  (Zod.z_string lib [(Zod.smin 2, None)])
                  [{| Zod.issue_code := "invalid_type"; Zod.issue_path := [];
                      Zod.issue_message := None |}]
                  {| Zod.issue_code := "invalid_type"; Zod.issue_path := [];
                     Zod.issue_message := None |})
        as (all & Hall & Hin)
  end.
  - apply list_elem_of_here.
  - by rewrite Hn.
  - by left.
  - cbn [Zod.issue_code Zod.issue_path Zod.issue_message] in Hin.
    rewrite Hall.
    set (b1 := Zod.both (Zod.under (Zod.Key "seo_keywords") _) _).
    destruct b1; simpl; eexists; (split; [reflexivity|]);
      rewrite ?elem_of_app; auto.
Qed.

Lemma short_name_is_an_issue lib fields s :
  Zod.lookup_field "name" fields = Some (Zod.JStr s) ->
  String.length s < 2 ->
  exists issues,
    ProductsCreate.createProductSchema lib (Some (Zod.JObj fields)) = inl issues /\
    {| Zod.issue_code := "too_small"; Zod.issue_path := [Zod.Key "name"];
       Zod.issue_message := None |} ∈ issues.
Proof.
  intros Hn Hs. unfold ProductsCreate.createProductSchema.
  match goal with
  | |- context [Zod.object_fields ?shape fields] =>
      destruct (object_fields_issue shape fields "name"
                  (Zod.z_string lib [(Zod.smin 2, None)])
                  [{| Zod.issue_code := "too_small"; Zod.issue_path := [];
                      Zod.issue_message := None |}]
                  {| Zod.issue_code := "too_small"; Zod.issue_path := [];
                     Zod.issue_message := None |})
        as (all & Hall & Hin)
  end.
  - apply list_elem_of_here.
  - rewrite Hn. unfold Zod.z_string. cbn [Zod.string_steps].
    destruct (Nat.leb_spec 2 (String.length s)); [lia|done].
  - by left.
  - cbn [Zod.issue_code Zod.issue_path Zod.issue_message] in Hin.
    rewrite Hall.
    set (b1 := Zod.both (Zod.under (Zod.Key "seo_keywords") _) _).
    destruct b1; simpl; eexists; (split; [reflexivity|]);
      rewrite ?elem_of_app; auto.
Qed.

Lemma price_below_zero_is_an_issue lib fields (q : Qc) :
  Zod.lookup_field "price" fields = Some (Zod.JNum q) ->
  (q < 0)%Qc ->
  exists issues,
    ProductsCreate.createProductSchema lib (Some (Zod.JObj fields)) = inl issues /\
    {| Zod.issue_code := "too_small"; Zod.issue_path := [Zod.Key "price"];
       Zod.issue_message := None |} ∈ issues.
Proof.
  intros Hp Hq. unfold ProductsCreate.createProductSchema.
  match goal with
  | |- context [Zod.object_fields ?shape fields] =>
      destruct (object_fields_issue shape fields "price"
                  (Zod.z_coerce_number lib [(Zod.min 0, None)])
                  [{| Zod.issue_code := "too_small"; Zod.issue_path := [];
                      Zod.issue_message := None |}]
                  {| Zod.issue_code := "too_small"; Zod.issue_path := [];
                     Zod.issue_message := None |})
        as (all & Hall & Hin)
  end.
  - do 8 apply list_elem_of_further. apply list_elem_of_here.
  - rewrite Hp. unfold Zod.z_coerce_number. cbn [Zod.Number].
    unfold Zod.checked_number. cbn [flat_map Zod.number_check fst snd].
    rewrite bool_decide_eq_false_2; [done|].
    intros Hle. apply (Qclt_not_le _ _ Hq). exact Hle.
  - by left.
  - cbn [Zod.issue_code Zod.issue_path Zod.issue_message] in Hin.
    rewrite Hall.
    set (b1 := Zod.both (Zod.under (Zod.Key "seo_keywords") _) _).
    destruct b1; simpl; eexists; (split; [reflexivity|]);
      rewrite ?elem_of_app; auto.
Qed.

(** X4.  A create request whose payload fails validation is answered 400
    with the flattened issues, and the world is left as it was.  A payload
    without a name, with a name shorter than two characters, or with a
    negative price is such a payload. *)
Theorem create_with_invalid_payload_changes_nothing
    (lib : Zod.Lib) (slugify : string -> string) :
  (forall (w : World) (j : Zod.Json) (issues : list Zod.Issue),
     configured w ->
     ProductsCreate.createProductSchema lib (Some j) = inl issues ->
     ProductsCreate.POST lib slugify (Document j) w
     = (Normal (json (ErrorBody "Invalid product data"
                        (Some (Validation (Zod.flatten issues)))) 400), w)) /\
  (forall fields,
     Zod.lookup_field "name" fields = None ->
     exists issues,
       ProductsCreate.createProductSchema lib (Some (Zod.JObj fields)) = inl issues /\
       {| Zod.issue_code := "invalid_type"; Zod.issue_path := [Zod.Key "name"];
          Zod.issue_message := None |} ∈ issues) /\
  (forall fields s,
     Zod.lookup_field "name" fields = Some (Zod.JStr s) ->
     String.length s < 2 ->
     exists issues,
       ProductsCreate.createProductSchema lib (Some (Zod.JObj fields)) = inl issues /\
       {| Zod.issue_code := "too_small"; Zod.issue_path := [Zod.Key "name"];
          Zod.issue_message := None |} ∈ issues) /\
  (forall fields (q : Qc),
     Zod.lookup_field "price" fields = Some (Zod.JNum q) ->
     (q < 0)%Qc ->
     exists issues,
       ProductsCreate.createProductSchema lib (Some (Zod.JObj fields)) = inl issues /\
       {| Zod.issue_code := "too_small"; Zod.issue_path := [Zod.Key "price"];
          Zod.issue_message := None |} ∈ issues).
Proof.
  split; [|split; [|split]].
  - intros w j issues Hc Hv. unfold ProductsCreate.POST.
    erewrite bind_normal; [|by apply getSupabaseAdmin_configured].
    apply try_catch_normal.
    erewrite bind_normal; [|reflexivity]. by rewrite Hv.
  - apply missing_name_is_an_issue.
  - apply short_name_is_an_issue.
  - apply price_below_zero_is_an_issue.
Qed.

(** X4 on a create request with the name "X". *)
Lemma create_with_invalid_payload_changes_nothing_witness :
  let w := Sample.world [] in
  exists issues,
    ProductsCreate.createProductSchema Sample.lib (Some Sample.create_x) = inl issues /\
    {| Zod.issue_code := "too_small"; Zod.issue_path := [Zod.Key "name"];
       Zod.issue_message := None |} ∈ issues /\
    ProductsCreate.POST Sample.lib Sample.slugify (Document Sample.create_x) w
      = (Normal (json (ErrorBody "Invalid product data"
                         (Some (Validation (Zod.flatten issues)))) 400), w).
Proof.
  intros w.
  destruct (proj1 (proj2 (proj2
              (create_with_invalid_payload_changes_nothing Sample.lib Sample.slugify)))
              [("name", Zod.JStr "X"); ("price", Sample.jnum 10)] "X")
    as (issues & Hissues & Hin).
  - reflexivity.
  - cbn. lia.
  - exists issues. split; [exact Hissues|]. split; [exact Hin|].
    apply (proj1 (create_with_invalid_payload_changes_nothing Sample.lib Sample.slugify)).
    + evaluated.
    + exact Hissues.
Defined.

(** X5.  When the insert of the product row fails for another reason than
    a value in use, the create route answers 500 with the message of the
    database; the insert is the only statement sent, the database is
    unchanged, and the storefronts are not notified. *)
Theorem create_stops_when_the_product_insert_fails
    (lib : Zod.Lib) (slugify : string -> string) (w : World) (j : Zod.Json)
    (productInput : ProductsCreate.ValidatedProductData) (e : PgError) :
  configured w ->
  ProductsCreate.createProductSchema lib (Some j) = inr productInput ->
  answer (core_insert slugify productInput) w = Fulfilled (inl e) ->
  code e <> "23505" ->
  exists w',
    ProductsCreate.POST lib slugify (Document j) w
    = (Normal (json (ErrorBody ("Failed to create product: " +:+ message e) None) 500),
       w') /\
    statements w' = statements w ++
      [{| stmt := core_insert slugify productInput; outcome := Fulfilled (inl e) |}] /\
    db w' = db w /\
    notified w' = notified w /\
    requests w' = requests w.
Proof.
  intros Hc Hv Ha Hcode.
  exists (sent (core_insert slugify productInput) w).
  split; [|split; [|split; [|split]]].
  - unfold ProductsCreate.POST.
    erewrite bind_normal; [|by apply getSupabaseAdmin_configured].
    apply try_catch_normal.
    erewrite bind_normal; [|reflexivity]. rewrite Hv.
    unfold insert_select_single. fold (core_insert slugify productInput).
    erewrite bind_normal; [|by rewrite await_send, Ha].
    cbn [single sum_map error data failed]. unfold ProductsCreate.insert_failed, id.
    apply String.eqb_neq in Hcode. by rewrite Hcode.
  - by rewrite statements_sent, Ha.
  - by eapply db_sent_error.
  - apply notified_sent.
  - apply requests_sent.
Qed.

(** X5 on a create request whose insert runs into a statement timeout. *)
Lemma create_stops_when_the_product_insert_fails_witness :
  let w := Sample.world [Fails Sample.timeout] in
  exists productInput w',
    ProductsCreate.createProductSchema Sample.lib (Some Sample.create_winter_coat)
      = inr productInput /\
    ProductsCreate.POST Sample.lib Sample.slugify (Document Sample.create_winter_coat) w
    = (Normal (json (ErrorBody ("Failed to create product: " +:+ message Sample.timeout)
                       None) 500), w') /\
    statements w' = statements w ++
      [{| stmt := core_insert Sample.slugify productInput;
          outcome := Fulfilled (inl Sample.timeout) |}] /\
    db w' = db w /\
    notified w' = notified w /\
    requests w' = requests w.
Proof.
  intros w.
  right_value (ProductsCreate.createProductSchema Sample.lib
                 (Some Sample.create_winter_coat)) productInput.
  destruct (create_stops_when_the_product_insert_fails Sample.lib Sample.slugify w
              Sample.create_winter_coat productInput Sample.timeout) as (w' & H).
  - evaluated.
  - evaluated.
  - evaluated.
  - discriminate.
  - exists productInput, w'. split; [evaluated | exact H].
Defined.

(** An object schema yields the keys that it names, and no others. *)
Lemma object_fields_keys shape fields (o : Obj) k :
  Zod.object_fields shape fields = inr o -> k ∉ shape.*1 -> o !! k = None.
Proof.
  revert o. induction shape as [|[k' s] shape IH]; intros o; cbn [Zod.object_fields].
  - by intros [= <-] _.
  - intros Ho Hk. rewrite fmap_cons in Hk. apply not_elem_of_cons in Hk as [Hne Hk].
    destruct (Zod.under _ _) as [i1|v]; destruct (Zod.object_fields shape fields) as [i2|o'];
      cbn in Ho; try done.
    injection Ho as <-.
    destruct (bool_decide (v = VUndef)); [by apply IH|].
    rewrite lookup_insert_ne by done. by apply IH.
Qed.

Lemma create_payload_has_no_key lib j productInput :
  ProductsCreate.createProductSchema lib (Some j) = inr productInput ->
  ProductsCreate.coreProductData productInput !! "products_id" = None.
Proof.
  unfold ProductsCreate.createProductSchema.
  destruct j as [| | | | |fields]; try done.
  match goal with
  | |- context [Zod.object_fields ?shape fields] =>
      pose proof (fun o => object_fields_keys shape fields o "products_id") as Hkeys;
      destruct (Zod.object_fields shape fields) as [i|core]
  end.
  - set (b := Zod.both (Zod.under _ _) _). by destruct b.
  - set (b := Zod.both (Zod.under _ _) _). destruct b as [i|[kw rel]]; [done|].
    cbn. intros [= <-]. cbn. apply Hkeys; [done|]. not_in_list.
Qed.

Lemma lookup_delete_undefined_undef k (o : Obj) :
  get k o = VUndef -> delete_undefined o !! k = None.
Proof.
  intros H. pose proof (get_delete_undefined k o) as Hg. rewrite H in Hg.
  unfold get in Hg. destruct (delete_undefined o !! k) as [v|] eqn:Hd; [|done].
  cbn in Hg. subst v. unfold delete_undefined in Hd.
  apply map_lookup_filter_Some in Hd as [_ Hd]. by destruct Hd.
Qed.

Lemma dataToInsert_keyless slug kw (c : Obj) :
  c !! "products_id" = None ->
  delete_undefined (ProductsCreate.dataToInsert slug kw c) !! "products_id" = None.
Proof.
  intros Hc. apply lookup_delete_undefined_undef.
  unfold ProductsCreate.dataToInsert. rewrite get_assign. cbn [rev app List.find fst snd].
  unfold get. by rewrite Hc.
Qed.

(** The insert of a product whose slug is free. *)
Lemma exec_insert_free_slug slug kw (c : Obj) (db : Db) :
  c !! "products_id" = None ->
  Forall (fun p => get "slug" p <> VStr slug) (rows_of "products" db) ->
  let row := <["products_id" := num (next_key "products_id" (rows_of "products" db))]>
               (delete_undefined (ProductsCreate.dataToInsert slug kw c)) in
  exec (Insert "products" [ProductsCreate.dataToInsert slug kw c]) db
  = (inr [row], <["products" := rows_of "products" db ++ [row]]> db).
Proof.
  intros Hc Hfree row. cbn [exec]. unfold exec_insert. cbn [insert_rows].
  unfold with_key. cbn zeta.
  change (primary_key "products") with "products_id".
  rewrite dataToInsert_keyless by done. fold row.
  unfold conflict. change (primary_key "products") with "products_id".
  change (unique_columns "products") with ["slug"]. cbn [List.find].
  unfold row at 1. rewrite get_insert_eq, next_key_fresh.
  unfold row at 1. rewrite get_insert_ne by done.
  rewrite get_delete_undefined, create_slug, taken_none by done.
  reflexivity.
Qed.

(** The create route in a world whose database runs every statement, once
    the product row is stored. *)
Lemma create_run_quiet lib slugify w j productInput row :
  configured w -> quiet w ->
  ProductsCreate.createProductSchema lib (Some j) = inr productInput ->
  (exec (core_insert slugify productInput) (db w)).1 = inr [row] ->
  let w1 := sent (core_insert slugify productInput) w in
  exists ss response w',
    ProductsCreate.POST lib slugify (Document j) w = (Normal response, w') /\
    status response = 201 /\
    Forall (writes_to related_tables) ss /\
    db w' = db (sends ss w1) /\
    notified w' = notified w ++
      [{| path := None;
          paths := Some (array_from_set
            (["/"; "/products"; "/products/" +:+ string_of (get "slug" row)]
             ++ option_list (stored_paths (db w') (get "products_id" row)).1
             ++ option_list (stored_paths (db w') (get "products_id" row)).2)) |}].
Proof.
  intros Hc Hq Hv Hins w1.
  assert (Hans : answer (core_insert slugify productInput) w = Fulfilled (inr [row])).
  { rewrite answer_quiet by done. by rewrite Hins. }
  assert (Hq1 : quiet w1) by (by apply quiet_sent).
  assert (Hc1 : configured w1) by (by apply configured_sent).
  set (newProduct := project ["products_id"; "slug"; "category_id"; "brand_id"] row).
  assert (Hpid : get "products_id" newProduct = get "products_id" row).
  { unfold newProduct. apply get_project. in_list. }
  assert (Hslug : get "slug" newProduct = get "slug" row).
  { unfold newProduct. apply get_project. in_list. }
  destruct (insert_related_settles false (get "products_id" row)
              (ProductsCreate.related productInput) [] w1 (quiet_settles _ Hq1))
    as (ss & errs & Hrel & _ & Hss).
  pose proof (quiet_sends ss w1 Hq1) as Hq2.
  pose proof (configured_sends ss w1 Hc1) as Hc2.
  set (q := related_paths_query (get "products_id" row)).
  set (w2 := sent q (sends ss w1)).
  set (r := (exec q (db (sends ss w1))).1).
  destruct (paths_of_nonempty r) as [Hp1 Hp2].
  destruct (revalidateCustomerApp_spec
              {| path := None;
                 paths := Some (array_from_set
                   (push_if (paths_of r).2 (push_if (paths_of r).1
                      ["/"; "/products";
                       "/products/" +:+ string_of (get "slug" newProduct)]))) |} w2)
    as (w' & Hrev & Hb & Hn & _).
  assert (Hdb : db w' = db (sends ss w1)).
  { destruct Hb as (_ & _ & -> & _). unfold w2. by apply db_sent_read. }
  eexists ss, _, w'. split.
  { unfold ProductsCreate.POST.
    erewrite bind_normal; [|by apply getSupabaseAdmin_configured].
    apply try_catch_normal.
    erewrite bind_normal; [|reflexivity].
    rewrite Hv. unfold insert_select_single. fold (core_insert slugify productInput).
    erewrite bind_normal; [|by rewrite await_send, Hans].
    cbn [single sum_map map error data]. fold newProduct w1.
    unfold ProductsCreate.after_insert. rewrite Hpid.
    erewrite bind_normal; [|exact Hrel].
    erewrite bind_normal;
      [|by rewrite getProductRelatedPaths_spec, answer_quiet by done].
    fold q r w2.
    erewrite bind_normal; [|exact Hrev]. reflexivity. }
  split; [reflexivity|]. split; [|split; [done|]].
  - eapply Forall_impl; [exact Hss|]. intros s (t & Ht & Hin).
    unfold writes_to. by rewrite Ht.
  - rewrite Hn. unfold w2. rewrite notified_sent, notified_sends. unfold w1.
    rewrite notified_sent. do 3 f_equal.
    rewrite !push_if_option by done. rewrite Hslug, <- app_assoc.
    unfold stored_paths. rewrite Hdb. reflexivity.
Qed.

(** X6.  When no stored product has the slug made from the name, and the
    database runs every statement, the create route answers 201: one row
    is added to the products, with that slug and with a key that no other
    product has, and the notifier receives the home page, the listing, the
    page of the new product and the pages of its category and brand. *)
Theorem create_with_a_free_slug_stores_the_product
    (lib : Zod.Lib) (slugify : string -> string) (w : World) (j : Zod.Json)
    (productInput : ProductsCreate.ValidatedProductData) :
  configured w ->
  quiet w ->
  ProductsCreate.createProductSchema lib (Some j) = inr productInput ->
  let slug := slugify (string_of (get "name" (ProductsCreate.coreProductData productInput))) in
  Forall (fun p => get "slug" p <> VStr slug) (rows_of "products" (db w)) ->
  exists row response w',
    ProductsCreate.POST lib slugify (Document j) w = (Normal response, w') /\
    status response = 201 /\
    rows_of "products" (db w') = rows_of "products" (db w) ++ [row] /\
    get "slug" row = VStr slug /\
    Forall (fun p => get "products_id" p <> get "products_id" row)
      (rows_of "products" (db w)) /\
    notified w' = notified w ++
      [{| path := None;
          paths := Some (array_from_set
            (["/"; "/products"; "/products/" +:+ slug]
             ++ option_list (stored_paths (db w') (get "products_id" row)).1
             ++ option_list (stored_paths (db w') (get "products_id" row)).2)) |}].
Proof.
  intros Hc Hq Hv slug Hfree.
  pose proof (create_payload_has_no_key lib j productInput Hv) as Hkey.
  pose proof (exec_insert_free_slug slug (ProductsCreate.seo_keywords productInput)
                (ProductsCreate.coreProductData productInput) (db w) Hkey Hfree) as Hex.
  cbn zeta in Hex.
  set (row := <["products_id" := num (next_key "products_id" (rows_of "products" (db w)))]>
                (delete_undefined
                   (ProductsCreate.dataToInsert slug
                      (ProductsCreate.seo_keywords productInput)
                      (ProductsCreate.coreProductData productInput)))) in *.
  assert (Hrow_slug : get "slug" row = VStr slug).
  { unfold row. rewrite get_insert_ne by done.
    by rewrite get_delete_undefined, create_slug. }
  destruct (create_run_quiet lib slugify w j productInput row Hc Hq Hv)
    as (ss & response & w' & Hpost & Hst & Hss & Hdb & Hn).
  { unfold core_insert. fold slug. by rewrite Hex. }
  exists row, response, w'. split; [done|]. split; [done|]. split; [|split; [done|split]].
  - rewrite Hdb, rows_of_sends.
    2:{ eapply Forall_impl; [exact Hss|]. intros s Hs.
        eapply writes_to_other; [exact Hs|]. not_in_list. }
    rewrite db_sent_quiet by done. unfold core_insert. fold slug. rewrite Hex.
    cbn [snd]. apply rows_of_insert_eq.
  - apply Forall_forall. intros p Hp Heq.
    pose proof (next_key_fresh "products_id" (rows_of "products" (db w))) as Hfresh.
    rewrite (taken_elem "products_id" _ _ p Hp) in Hfresh; try done.
    rewrite Heq. unfold row. by rewrite get_insert_eq.
  - rewrite Hn. by rewrite Hrow_slug.
Qed.

(** X6 on the product "Winter Coat", which the sample shop does not
    hold. *)
Lemma create_with_a_free_slug_stores_the_product_witness :
  let w := Sample.world [] in
  exists row response w',
    ProductsCreate.POST Sample.lib Sample.slugify (Document Sample.create_winter_coat) w
      = (Normal response, w') /\
    status response = 201 /\
    rows_of "products" (db w') = rows_of "products" (db w) ++ [row] /\
    get "slug" row = VStr (Sample.slugify "Winter Coat") /\
    Forall (fun p => get "products_id" p <> get "products_id" row)
      (rows_of "products" (db w)) /\
    notified w' = notified w ++
      [{| path := None;
          paths := Some (array_from_set
            (["/"; "/products"; "/products/" +:+ Sample.slugify "Winter Coat"]
             ++ option_list (stored_paths (db w') (get "products_id" row)).1
             ++ option_list (stored_paths (db w') (get "products_id" row)).2)) |}].
Proof.
  intros w.
  right_value (ProductsCreate.createProductSchema Sample.lib
                 (Some Sample.create_winter_coat)) productInput.
  apply (create_with_a_free_slug_stores_the_product Sample.lib Sample.slugify w
           Sample.create_winter_coat productInput).
  - evaluated.
  - constructor.
  - evaluated.
  - in_list.
Defined.

Lemma under_inr {A} p (r : Zod.Parsed A) v : Zod.under p r = inr v -> r = inr v.
Proof. by destruct r. Qed.

(** The value of a field of a parsed object is what the schema of the
    field makes of the field. *)
Lemma object_fields_get shape fields (o : Obj) k (s : Zod.Schema Val) :
  Zod.object_fields shape fields = inr o ->
  NoDup shape.*1 ->
  (k, s) ∈ shape ->
  exists v, s (Zod.lookup_field k fields) = inr v /\ get k o = v.
Proof.
  revert o. induction shape as [|[k' s'] shape IH]; intros o Ho Hnd Hin;
    [by inversion Hin|].
  cbn [Zod.object_fields] in Ho. rewrite fmap_cons in Hnd.
  apply NoDup_cons in Hnd as [Hk' Hnd].
  destruct (Zod.under (Zod.Key k') (s' (Zod.lookup_field k' fields))) as [i1|v] eqn:Hu;
    destruct (Zod.object_fields shape fields) as [i2|o'] eqn:Ho'; cbn in Ho; try done.
  injection Ho as <-. apply under_inr in Hu.
  apply elem_of_cons in Hin as [Heq|Hin].
  - injection Heq as -> ->. exists v. split; [done|].
    destruct (bool_decide_reflect (v = VUndef)) as [->|Hv].
    + unfold get. by rewrite (object_fields_keys shape fields o' k' Ho' Hk').
    + apply get_insert_eq.
  - destruct (IH o' eq_refl Hnd Hin) as (v0 & Hs & Hg). exists v0. split; [done|].
    assert (Hne : k <> k').
    { intros ->. apply Hk'. apply list_elem_of_fmap. by exists (k', s). }
    destruct (bool_decide (v = VUndef)); [done|]. by rewrite get_insert_ne.
Qed.

(** X7.  The row that the create route sends for a valid payload holds the
    default of the schema for each of these columns that the payload
    leaves out: currency USD, inventory tracked, quantity 0, not
    backorderable, low-stock threshold 5, reserved quantity 0, shipping
    required, status draft. *)
Theorem create_fills_in_the_defaults
    (lib : Zod.Lib) (fields : list (string * Zod.Json))
    (productInput : ProductsCreate.ValidatedProductData) (slug : string) :
  ProductsCreate.createProductSchema lib (Some (Zod.JObj fields)) = inr productInput ->
  let row := ProductsCreate.dataToInsert slug (ProductsCreate.seo_keywords productInput)
               (ProductsCreate.coreProductData productInput) in
  forall k v,
    (k, v) ∈ [("currency_code", VStr "USD"); ("track_inventory", VBool true);
              ("quantity", num 0); ("backorderable", VBool false);
              ("low_stock_threshold", num 5); ("reserved_quantity", num 0);
              ("shipping_required", VBool true); ("status", VStr "draft")] ->
    Zod.lookup_field k fields = None ->
    get k row = v.
Proof.
  intros Hv row k v Hk Hmissing.
  unfold ProductsCreate.createProductSchema in Hv.
  match type of Hv with
  | context [Zod.object_fields ?shape fields] =>
      pose proof (fun o s H => object_fields_get shape fields o k s H) as Hget;
      destruct (Zod.object_fields shape fields) as [i|core] eqn:Hcore
  end.
  { set (b := Zod.both (Zod.under _ _) _) in Hv. by destruct b. }
  set (b := Zod.both (Zod.under _ _) _) in Hv. destruct b as [i|[kw rel]]; [done|].
  cbn in Hv. injection Hv as <-. subst row. cbn [ProductsCreate.coreProductData
    ProductsCreate.seo_keywords].
  assert (Hnd : forall l : list (string * Zod.Schema Val),
            bool_decide (NoDup l.*1) = true -> NoDup l.*1).
  { intros l. apply bool_decide_eq_true. }
  assert (Hrow : get k (ProductsCreate.dataToInsert slug kw core) = get k core).
  { unfold ProductsCreate.dataToInsert. rewrite get_assign.
    cbn [rev app List.find fst snd].
    repeat (apply elem_of_cons in Hk as [[= -> ->]|Hk]; [reflexivity|]).
    by apply elem_of_nil in Hk. }
  rewrite Hrow.
  repeat (apply elem_of_cons in Hk as [[= -> ->]|Hk];
          [edestruct Hget as (v0 & Hs & Hg);
           [reflexivity
           |apply Hnd; vm_compute; reflexivity
           |repeat first [apply list_elem_of_here | apply list_elem_of_further]
           |rewrite Hmissing in Hs; cbn in Hs; injection Hs as <-; exact Hg]|]).
  by apply elem_of_nil in Hk.
Qed.

(** X7 on the status of a create request that has a name and a price
    only. *)
Lemma create_fills_in_the_defaults_witness :
  exists productInput,
    ProductsCreate.createProductSchema Sample.lib (Some Sample.create_red_hat)
      = inr productInput /\
    get "status"
      (ProductsCreate.dataToInsert "red-hat" (ProductsCreate.seo_keywords productInput)
         (ProductsCreate.coreProductData productInput)) = VStr "draft".
Proof.
  right_value (ProductsCreate.createProductSchema Sample.lib
                 (Some Sample.create_red_hat)) productInput.
  exists productInput. split; [evaluated|].
  apply (create_fills_in_the_defaults Sample.lib
           [("name", Zod.JStr "Red Hat"); ("price", Sample.jnum 10)] productInput "red-hat").
  - evaluated.
  - in_list.
  - reflexivity.
Defined.

(** ** The update route *)

Lemma update_post lib slugify w j input :
  configured w ->
  ProductsUpdate.updateProductSchema lib (Some j) = inr input ->
  ProductsUpdate.POST lib slugify (Document j) w
  = try_catch (ProductsUpdate.update slugify input) unexpected w.
Proof.
  intros Hc Hv. unfold ProductsUpdate.POST.
  erewrite bind_normal; [|by apply getSupabaseAdmin_configured].
  unfold try_catch. unfold bind at 1. cbn [req_json ret]. by rewrite Hv.
Qed.

(** The update route in a world whose database runs every statement. *)
Lemma update_run_quiet lib slugify w j input cur :
  configured w -> quiet w ->
  ProductsUpdate.updateProductSchema lib (Some j) = inr input ->
  List.filter (matches (Eq "products_id" (ProductsUpdate.products_id input)))
    (rows_of "products" (db w)) = [cur] ->
  exists rest,
    Forall (writes_to (List.filter (fun t => negb (String.eqb t "product_images"))
                         related_tables)) rest /\
    let w1 := sends (before_update input rest) w in
    let wu := sent (core_update slugify input w) w1 in
    rows_of "products" (db w1) = rows_of "products" (db w) /\
    (forall e,
       (exec (core_update slugify input w) (db w)).1 = inl e ->
       ProductsUpdate.POST lib slugify (Document j) w
       = (Normal (ProductsUpdate.update_failed e), wu) /\
       db wu = db w1) /\
    (forall updated,
       (exec (core_update slugify input w) (db w)).1 = inr updated ->
       exists ss errs response w',
         ProductsUpdate.POST lib slugify (Document j) w = (Normal response, w') /\
         status response = 200 /\
         best_effort true (ProductsUpdate.products_id input)
           (ProductsUpdate.related input) (entries ss wu) errs /\
         Forall (writes_to related_tables) ss /\
         db wu = (exec (core_update slugify input w) (db w1)).2 /\
         db w' = db (sends ss wu)).
Proof.
  intros Hc Hq Hv Hcur.
  pose proof (answer_select_quiet "products"
                (Eq "products_id" (ProductsUpdate.products_id input)) w Hq) as Hsel.
  rewrite Hcur in Hsel.
  destruct (update_found slugify input w cur Hc (quiet_settles w Hq) Hsel)
    as (rest & errs_del & Hrest & Hfail & Hok).
  exists rest. split; [done|]. cbn zeta in *.
  set (w1 := sends (before_update input rest) w) in *.
  assert (Hq1 : quiet w1) by (by apply quiet_sends).
  assert (Hrows : rows_of "products" (db w1) = rows_of "products" (db w)).
  { apply rows_of_sends. apply before_update_writes; [done|not_in_list]. }
  assert (Hans : answer (core_update slugify input w) w1
                 = Fulfilled (exec (core_update slugify input w) (db w)).1).
  { rewrite answer_quiet by done. f_equal.
    unfold core_update. cbn [exec]. by apply exec_update_rows. }
  split; [done|]. split.
  - intros e He. rewrite He in Hans. split.
    + rewrite (update_post lib slugify w j input Hc Hv).
      apply try_catch_normal. by apply Hfail.
    + by eapply db_sent_error.
  - intros updated Hu. rewrite Hu in Hans.
    destruct (Hok updated Hans) as (ss & errs & w' & Hpost & Hbest & Hss & Hb & _).
    eexists ss, errs, _, w'. split.
    { rewrite (update_post lib slugify w j input Hc Hv).
      apply try_catch_normal. exact Hpost. }
    split; [done|]. split; [done|]. split; [done|]. split.
    + by apply db_sent_quiet.
    + destruct Hb as (_ & _ & -> & _). by rewrite db_sent_read.
Qed.

(** X8.  An update whose [products_id] is not the key of exactly one stored
    product is answered 404; the select of the product is the only
    statement sent, nothing is deleted, and the storefronts are not
    notified. *)
Theorem update_of_unknown_product_is_not_found
    (lib : Zod.Lib) (slugify : string -> string) (w : World) (j : Zod.Json)
    (input : ProductsUpdate.ValidatedUpdateData) :
  configured w ->
  hd NoFault (faults w) = NoFault ->
  ProductsUpdate.updateProductSchema lib (Some j) = inr input ->
  length (List.filter (matches (Eq "products_id" (ProductsUpdate.products_id input)))
            (rows_of "products" (db w))) <> 1 ->
  exists w',
    ProductsUpdate.POST lib slugify (Document j) w
    = (Normal (json (ErrorBody "Could not find product to update" None) 404), w') /\
    db w' = db w /\
    map stmt (drop (length (statements w)) (statements w')) = [current_query input] /\
    notified w' = notified w.
Proof.
  intros Hc Hf Hv Hn.
  exists (sent (current_query input) w).
  split; [|split; [|split]].
  - rewrite (update_post lib slugify w j input Hc Hv).
    apply try_catch_normal.
    eapply update_not_found; [done| |].
    + by apply answer_run.
    + intros row Hrow. apply Hn. unfold current_query in Hrow. cbn [exec fst] in Hrow.
      injection Hrow as ->. done.
  - by apply db_sent_read.
  - by rewrite statements_sent, drop_app_length.
  - apply notified_sent.
Qed.

(** X8 on an update of the product 99, which the sample shop does not
    hold. *)
Lemma update_of_unknown_product_is_not_found_witness :
  let w := Sample.world [] in
  exists input w',
    ProductsUpdate.updateProductSchema Sample.lib (Some Sample.update_unknown) = inr input /\
    ProductsUpdate.POST Sample.lib Sample.slugify (Document Sample.update_unknown) w
    = (Normal (json (ErrorBody "Could not find product to update" None) 404), w') /\
    db w' = db w /\
    map stmt (drop (length (statements w)) (statements w')) = [current_query input] /\
    notified w' = notified w.
Proof.
  intros w.
  right_value (ProductsUpdate.updateProductSchema Sample.lib
                 (Some Sample.update_unknown)) input.
  destruct (update_of_unknown_product_is_not_found Sample.lib Sample.slugify w
              Sample.update_unknown input) as (w' & H).
  - evaluated.
  - reflexivity.
  - evaluated.
  - not_in_list.
  - exists input, w'. split; [evaluated | exact H].
Defined.

Lemma exec_update_accepted t patch f (db : Db) updated :
  (exec_update t patch f db).1 = inr updated ->
  rows_of t (exec_update t patch f db).2
  = map (fun r => if matches f r then delete_undefined patch ∪ r else r) (rows_of t db).
Proof.
  unfold exec_update. cbn zeta. destruct (List.find _ _); [done|].
  intros _. cbn [snd]. apply rows_of_insert_eq.
Qed.

(** A column of a patched row: the value of the patch when the patch
    defines it, the stored value otherwise. *)
Lemma get_patched k (patch r : Obj) :
  get k (delete_undefined patch ∪ r)
  = if bool_decide (get k patch = VUndef) then get k r else get k patch.
Proof.
  pose proof (get_delete_undefined k patch) as Hg.
  unfold get in *. rewrite lookup_union.
  destruct (delete_undefined patch !! k) as [v|] eqn:Hd.
  - assert (Hv : v <> VUndef).
    { unfold delete_undefined in Hd. apply map_lookup_filter_Some in Hd as [_ Hd].
      exact Hd. }
    cbn in Hg. rewrite <- Hg. rewrite bool_decide_eq_false_2 by done.
    by destruct (r !! k).
  - cbn in Hg. rewrite <- Hg. rewrite bool_decide_eq_true_2 by done.
    by destruct (r !! k).
Qed.

Lemma product_patch_updated_at slugify input w :
  get "updated_at" (product_patch slugify input w) = VStr (now w).
Proof.
  unfold product_patch, ProductsUpdate.dataToUpdate.
  by rewrite get_delete_undefined, get_assign.
Qed.

Lemma product_patch_copied slugify input w k :
  k ∉ computed_columns ->
  get k (product_patch slugify input w) = get k (ProductsUpdate.coreUpdateData input).
Proof.
  intros Hk. unfold product_patch, ProductsUpdate.dataToUpdate.
  rewrite get_delete_undefined, get_assign.
  assert (Hslug : forall c,
            get k (ProductsUpdate.with_slug (ProductsUpdate.newSlug_of slugify c) c)
            = get k c).
  { intros c. unfold ProductsUpdate.with_slug.
    destruct (ProductsUpdate.newSlug_of slugify c); [|done].
    apply get_insert_ne. intros ->. apply Hk. in_list. }
  cbn [rev app List.find fst snd].
  repeat match goal with
         | |- context [String.eqb ?s k] =>
             destruct (String.eqb_spec s k) as [<-|_];
             [first [apply Hslug | exfalso; apply Hk; in_list]|]
         end.
  apply Hslug.
Qed.

(** X9.  After an update that is answered 200: the rows of the other
    products are as they were; in the row of the product, [updated_at] is
    the time of the request, and every column that the route copies from
    the payload holds the value of the payload when the payload carries
    one (also [null]) and its stored value otherwise. *)
Theorem update_changes_what_the_payload_carries
    (lib : Zod.Lib) (slugify : string -> string) (w : World) (j : Zod.Json)
    (input : ProductsUpdate.ValidatedUpdateData) (cur : Obj) (updated : list Obj) :
  configured w ->
  quiet w ->
  ProductsUpdate.updateProductSchema lib (Some j) = inr input ->
  List.filter (matches (Eq "products_id" (ProductsUpdate.products_id input)))
    (rows_of "products" (db w)) = [cur] ->
  (exec (core_update slugify input w) (db w)).1 = inr updated ->
  exists response w',
    ProductsUpdate.POST lib slugify (Document j) w = (Normal response, w') /\
    status response = 200 /\
    length (rows_of "products" (db w')) = length (rows_of "products" (db w)) /\
    forall i row,
      rows_of "products" (db w) !! i = Some row ->
      exists row',
        rows_of "products" (db w') !! i = Some row' /\
        if matches (Eq "products_id" (ProductsUpdate.products_id input)) row
        then
          get "updated_at" row' = VStr (now w) /\
          forall k,
            k ∉ computed_columns ->
            get k row'
            = if bool_decide (get k (ProductsUpdate.coreUpdateData input) = VUndef)
              then get k row
              else get k (ProductsUpdate.coreUpdateData input)
        else row' = row.
Proof.
  intros Hc Hq Hv Hcur Hacc.
  destruct (update_run_quiet lib slugify w j input cur Hc Hq Hv Hcur)
    as (rest & Hrest & Hrows & _ & Hok).
  cbn zeta in *.
  destruct (Hok updated Hacc) as (ss & errs & response & w' & Hpost & Hst & _ & Hss & Hu & Hw').
  exists response, w'. split; [done|]. split; [done|].
  assert (Htable :
    rows_of "products" (db w')
    = map (fun r => if matches (Eq "products_id" (ProductsUpdate.products_id input)) r
                    then delete_undefined (product_patch slugify input w) ∪ r else r)
        (rows_of "products" (db w))).
  { rewrite Hw', rows_of_sends.
    2:{ eapply Forall_impl; [exact Hss|]. intros s Hs.
        eapply writes_to_other; [exact Hs|]. not_in_list. }
    rewrite Hu. unfold core_update. cbn [exec].
    fold (product_patch slugify input w).
    erewrite exec_update_accepted.
    - by rewrite Hrows.
    - rewrite <- Hacc. unfold core_update. cbn [exec]. by apply exec_update_rows. }
  rewrite Htable. split; [by rewrite length_map|].
  intros i row Hi. rewrite list_lookup_fmap, Hi. cbn [fmap option_fmap option_map].
  eexists. split; [reflexivity|].
  destruct (matches _ row); [|done].
  split.
  - rewrite get_patched, product_patch_updated_at. by rewrite bool_decide_eq_false_2.
  - intros k Hk. by rewrite get_patched, product_patch_copied.
Qed.

(** X9 on an update that renames "Blue Hat" and replaces its images. *)
Lemma update_changes_what_the_payload_carries_witness :
  let w := Sample.world [] in
  exists input response w',
    ProductsUpdate.updateProductSchema Sample.lib (Some Sample.restyle_blue_hat)
      = inr input /\
    ProductsUpdate.POST Sample.lib Sample.slugify (Document Sample.restyle_blue_hat) w
      = (Normal response, w') /\
    status response = 200 /\
    length (rows_of "products" (db w')) = length (rows_of "products" (db w)) /\
    forall i row,
      rows_of "products" (db w) !! i = Some row ->
      exists row',
        rows_of "products" (db w') !! i = Some row' /\
        if matches (Eq "products_id" (ProductsUpdate.products_id input)) row
        then
          get "updated_at" row' = VStr (now w) /\
          forall k,
            k ∉ computed_columns ->
            get k row'
            = if bool_decide (get k (ProductsUpdate.coreUpdateData input) = VUndef)
              then get k row
              else get k (ProductsUpdate.coreUpdateData input)
        else row' = row.
Proof.
  intros w.
  right_value (ProductsUpdate.updateProductSchema Sample.lib
                 (Some Sample.restyle_blue_hat)) input.
  right_value (exec (core_update Sample.slugify input w) (db w)).1 updated.
  destruct (update_changes_what_the_payload_carries Sample.lib Sample.slugify w
              Sample.restyle_blue_hat input Sample.blue_hat updated)
    as (response & w' & H).
  - evaluated.
  - constructor.
  - evaluated.
  - evaluated.
  - evaluated.
  - exists input, response, w'. split; [evaluated | exact H].
Defined.







(** X12.  When the fetch of the variant ids fails, the deletion phase of
    the update route records "Failed to fetch variant IDs", still sends
    the six deletions by product, and sends no deletion of variants, of
    their attributes or of their features: those rows stay as they
    were. *)
Theorem failed_variant_fetch_keeps_the_variants (pid : Val) (w : World) (e : PgError) :
  hd NoFault (faults w) = Fails e ->
  settles w ->
  exists w',
    ProductsUpdate.delete_related pid w
    = (Normal ["Failed to fetch variant IDs: " +:+ message e], w') /\
    map stmt (drop (length (statements w)) (statements w'))
    = [Select "product_variants" (Eq "product_id" pid);
       Delete "product_images" (Eq "product_id" pid);
       Delete "product_features" (Eq "product_id" pid);
       Delete "product_tags" (Eq "product_id" pid);
       Delete "product_faqs" (Eq "product_id" pid);
       Delete "product_testimonial_videos" (Eq "product_id" pid);
       Delete "customer_testimonials" (Eq "products_id" pid)] /\
    forall t, t ∈ ["product_variants"; "variant_attributes"; "variant_features"] ->
              rows_of t (db w') = rows_of t (db w).
Proof.
  intros Hf Hs. unfold ProductsUpdate.delete_related, select_eq.
  set (sel := Select "product_variants" (Eq "product_id" pid)).
  erewrite bind_normal; [|by rewrite await_send, (answer_failed _ _ _ Hf)].
  cbn [sum_map many failed data error].
  rewrite deletePromises_statements.
  erewrite bind_normal; [|by apply allSettled_sends].
  rewrite settled_as_settles by (by apply settles_sent).
  cbn [length Nat.ltb Nat.leb andb app].
  eexists. split; [reflexivity|]. split.
  - rewrite statements_sends, statements_sent, <- app_assoc, drop_app_length.
    change ([{| stmt := sel; outcome := answer sel w |}]
            ++ entries (delete_statements pid []) (sent sel w))
      with (entries (sel :: delete_statements pid []) w).
    by rewrite stmt_entries.
  - intros t Ht. rewrite rows_of_sends.
    + by apply rows_of_sent.
    + unfold delete_statements. cbn [length Nat.ltb Nat.leb app].
      repeat constructor; cbn; intros [= <-]; revert Ht; not_in_list.
Qed.

(** X12 on the product 2, when the fetch runs into a statement timeout. *)
Lemma failed_variant_fetch_keeps_the_variants_witness :
  let w := Sample.world [Fails Sample.timeout] in
  let pid := num 2 in
  exists w',
    ProductsUpdate.delete_related pid w
    = (Normal ["Failed to fetch variant IDs: " +:+ message Sample.timeout], w') /\
    map stmt (drop (length (statements w)) (statements w'))
    = [Select "product_variants" (Eq "product_id" pid);
       Delete "product_images" (Eq "product_id" pid);
       Delete "product_features" (Eq "product_id" pid);
       Delete "product_tags" (Eq "product_id" pid);
       Delete "product_faqs" (Eq "product_id" pid);
       Delete "product_testimonial_videos" (Eq "product_id" pid);
       Delete "customer_testimonials" (Eq "products_id" pid)] /\
    forall t, t ∈ ["product_variants"; "variant_attributes"; "variant_features"] ->
              rows_of t (db w') = rows_of t (db w).
Proof.
  intros w pid.
  apply (failed_variant_fetch_keeps_the_variants pid w Sample.timeout).
  - reflexivity.
  - repeat constructor. discriminate.
Defined.

(** X23.  The deletion phase of the update route records a deletion only
    when its promise is rejected.  When the database answers every
    statement and the variant ids are fetched, the errors that the phase
    returns are at most the one of the final deletion of the variants:
    a deletion by product, or of the attributes and features of the
    variants, that the database fails is not reported.  The deletions are
    all sent, straight after the fetch. *)
Theorem failed_deletions_go_unreported (pid : Val) (w : World) (rows : list Obj) :
  settles w ->
  answer (Select "product_variants" (Eq "product_id" pid)) w = Fulfilled (inr rows) ->
  exists relatedDataErrors w',
    ProductsUpdate.delete_related pid w = (Normal relatedDataErrors, w') /\
    (relatedDataErrors = [] \/
     exists deleteVariantsError,
       relatedDataErrors = ["Error deleting variants: " +:+ message deleteVariantsError]) /\
    delete_statements pid (map (get "id") rows)
    = take (length (delete_statements pid (map (get "id") rows)))
        (map stmt (drop (S (length (statements w))) (statements w'))).
Proof.
  intros Hw Hr. unfold ProductsUpdate.delete_related.
  set (sel := Select "product_variants" (Eq "product_id" pid)) in *.
  unfold select_eq. fold sel.
  erewrite bind_normal; [|by rewrite await_send, Hr].
  cbn [sum_map many error data].
  rewrite map_map.
  assert (Hids : map (fun x => get "id" (project ["id"] x)) rows = map (get "id") rows).
  { apply map_ext. intros row. apply get_project. in_list. }
  rewrite Hids. set (ids := map (get "id") rows).
  rewrite deletePromises_statements.
  erewrite bind_normal; [|by apply allSettled_sends].
  pose proof (settles_sent sel w Hw) as Hw1.
  rewrite settled_as_settles by done. cbn [app].
  set (w2 := sends (delete_statements pid ids) (sent sel w)).
  assert (Hs2 : statements w2
                = statements w ++ {| stmt := sel; outcome := Fulfilled (inr rows) |}
                  :: entries (delete_statements pid ids) (sent sel w)).
  { unfold w2. rewrite statements_sends, statements_sent, Hr, <- app_assoc. done. }
  assert (Hlen : length (statements w ++ [{| stmt := sel; outcome := Fulfilled (inr rows) |}])
                 = S (length (statements w))).
  { rewrite length_app. cbn. lia. }
  destruct (Nat.ltb 0 (length ids) && negb (ProductsUpdate.mentions_nested [])) eqn:Hg.
  - assert (Hw2 : settles w2) by (by apply settles_sends).
    destruct (answer_settles (Delete "product_variants" (In_ "id" ids)) w2 Hw2) as [r2 Hr2].
    unfold delete_in.
    erewrite bind_normal; [|by rewrite await_send, Hr2].
    set (w3 := sent (Delete "product_variants" (In_ "id" ids)) w2).
    assert (Hst : delete_statements pid ids
                  = take (length (delete_statements pid ids))
                      (map stmt (drop (S (length (statements w))) (statements w3)))).
    { unfold w3. rewrite statements_sent, Hs2.
      rewrite (cons_middle _ (statements w)), !app_assoc, <- (app_assoc _ (entries _ _)).
      rewrite <- Hlen, drop_app_length, map_app, stmt_entries.
      by rewrite take_app_length. }
    destruct (error (no_data r2)) as [e|].
    + eexists _, w3. split; [reflexivity|]. split; [right; by exists e|done].
    + exists [], w3. split; [reflexivity|]. split; [by left|done].
  - exists [], w2. split; [reflexivity|]. split; [by left|].
    rewrite Hs2, (cons_middle _ (statements w)), app_assoc.
    rewrite <- Hlen, drop_app_length, stmt_entries.
    by rewrite firstn_all.
Qed.

(** X23 on the product "Blue Hat", when the database fails each of the
    six deletions by product. *)
Lemma failed_deletions_go_unreported_witness :
  let w := Sample.world [NoFault; Fails Sample.timeout; Fails Sample.timeout;
                         Fails Sample.timeout; Fails Sample.timeout;
                         Fails Sample.timeout; Fails Sample.timeout] in
  let pid := num 2 in
  exists rows relatedDataErrors w',
    answer (Select "product_variants" (Eq "product_id" pid)) w = Fulfilled (inr rows) /\
    ProductsUpdate.delete_related pid w = (Normal relatedDataErrors, w') /\
    (relatedDataErrors = [] \/
     exists deleteVariantsError,
       relatedDataErrors = ["Error deleting variants: " +:+ message deleteVariantsError]) /\
    delete_statements pid (map (get "id") rows)
    = take (length (delete_statements pid (map (get "id") rows)))
        (map stmt (drop (S (length (statements w))) (statements w'))).
Proof.
  intros w pid.
  let v := eval vm_compute in (answer (Select "product_variants" (Eq "product_id" pid)) w) in
  lazymatch v with Fulfilled (inr ?x) => pose (rows := x) end.
  destruct (failed_deletions_go_unreported pid w rows) as (errs & w' & H).
  - unfold settles, w. cbn [faults Sample.world]. repeat constructor; discriminate.
  - evaluated.
  - exists rows, errs, w'. split; [evaluated | exact H].
Defined.



(** ** The category delete route *)

(** X13.  Deleting a category whose key is not that of exactly one stored
    category is answered 404; no delete is sent and the storefronts are
    not notified. *)
Theorem delete_of_unknown_category_is_not_found
    (w : World) (j : Zod.Json) (validated : Obj) :
  configured w ->
  hd NoFault (faults w) = NoFault ->
  CategoriesDelete.deleteCategorySchema (Some j) = inr validated ->
  length (List.filter (matches (Eq "categories_id" (get "id" validated)))
            (rows_of "categories" (db w))) <> 1 ->
  exists w',
    CategoriesDelete.POST (Document j) w
    = (Normal (json (ErrorBody
                       "Category not found or error fetching data before deletion."
                       None) 404), w') /\
    db w' = db w /\
    map stmt (drop (length (statements w)) (statements w'))
    = [Select "categories" (Eq "categories_id" (get "id" validated))] /\
    notified w' = notified w.
Proof.
  intros Hc Hf Hv Hn.
  set (sel := Select "categories" (Eq "categories_id" (get "id" validated))).
  exists (sent sel w). split; [|split; [|split]].
  - unfold CategoriesDelete.POST.
    erewrite bind_normal; [|by apply getSupabaseAdmin_configured].
    apply try_catch_normal.
    erewrite bind_normal; [|reflexivity].
    rewrite Hv. unfold select_eq_single. fold sel.
    erewrite bind_normal; [|by rewrite await_send, answer_run].
    unfold sel. cbn [exec fst sum_map].
    destruct (List.filter _ _) as [|row [|]]; cbn in Hn |- *; done.
  - by apply db_sent_read.
  - by rewrite statements_sent, drop_app_length.
  - apply notified_sent.
Qed.

(** X13 on the category 99, which the sample shop does not hold. *)
Lemma delete_of_unknown_category_is_not_found_witness :
  let w := Sample.world [] in
  exists validated w',
    CategoriesDelete.deleteCategorySchema (Some Sample.delete_unknown) = inr validated /\
    CategoriesDelete.POST (Document Sample.delete_unknown) w
    = (Normal (json (ErrorBody
                       "Category not found or error fetching data before deletion."
                       None) 404), w') /\
    db w' = db w /\
    map stmt (drop (length (statements w)) (statements w'))
    = [Select "categories" (Eq "categories_id" (get "id" validated))] /\
    notified w' = notified w.
Proof.
  intros w.
  right_value (CategoriesDelete.deleteCategorySchema (Some Sample.delete_unknown)) validated.
  destruct (delete_of_unknown_category_is_not_found w Sample.delete_unknown validated)
    as (w' & H).
  - evaluated.
  - reflexivity.
  - evaluated.
  - not_in_list.
  - exists validated, w'. split; [evaluated | exact H].
Defined.




(** ** The product delete route *)

(** X15.  The product delete route answers 400, "Invalid product ID", and
    sends nothing, unless the body is an object whose [id] is a number
    other than zero: a missing [id], an [id] given as text, and the id 0
    are all refused.  (The body [null] is excluded: destructuring it
    throws.) *)
Theorem product_delete_needs_a_number_for_id (w : World) (j : Zod.Json) :
  configured w ->
  j <> Zod.JNull ->
  (forall fields q,
     j = Zod.JObj fields -> Zod.lookup_field "id" fields = Some (Zod.JNum q) ->
     q = 0%Qc) ->
  ProductsDelete.POST (Document j) w
  = (Normal (json (ErrorBody "Invalid product ID" None) 400), w).
Proof.
  intros Hc Hnull Hid. unfold ProductsDelete.POST.
  erewrite bind_normal; [|by apply getSupabaseAdmin_configured].
  apply try_catch_normal.
  erewrite bind_normal; [|reflexivity].
  destruct j as [| | | | |fields]; try done.
  erewrite bind_normal; [|reflexivity].
  destruct (Zod.lookup_field "id" fields) as [[| |q| | |]|] eqn:Hl; try done.
  rewrite (Hid fields q eq_refl Hl). done.
Qed.

(** X15 on a request whose [id] is the text "1". *)
Lemma product_delete_needs_a_number_for_id_witness :
  let w := Sample.world [] in
  ProductsDelete.POST (Document Sample.delete_by_text) w
  = (Normal (json (ErrorBody "Invalid product ID" None) 400), w).
Proof.
  intros w.
  apply (product_delete_needs_a_number_for_id w Sample.delete_by_text).
  - evaluated.
  - discriminate.
  - intros fields q [= <-] H. discriminate H.
Defined.

(** X16.  The product delete route, given a number other than zero, answers
    200 whether or not a product has that key: the rows with the key are
    removed from the products; the route sends the select of the related
    slugs and the one delete, and no statement for the rows that belong to
    the product; and the notifier receives the home page, the listing, and
    the pages of the category and brand that the product had before. *)
Theorem product_delete_removes_the_row
    (w : World) (fields : list (string * Zod.Json)) (q : Qc) :
  configured w ->
  quiet w ->
  Zod.lookup_field "id" fields = Some (Zod.JNum q) ->
  q <> 0%Qc ->
  exists w',
    ProductsDelete.POST (Document (Zod.JObj fields)) w
    = (Normal (json (MessageBody "Product deleted successfully") 200), w') /\
    rows_of "products" (db w')
    = List.filter (fun r => negb (matches (Eq "products_id" (VNum q)) r))
        (rows_of "products" (db w)) /\
    map stmt (drop (length (statements w)) (statements w'))
    = [related_paths_query (VNum q); Delete "products" (Eq "products_id" (VNum q))] /\
    notified w' = notified w ++
      [{| path := None;
          paths := Some (array_from_set
            (["/"; "/products"]
             ++ option_list (stored_paths (db w) (VNum q)).1
             ++ option_list (stored_paths (db w) (VNum q)).2)) |}].
Proof.
  intros Hc Hq Hl Hq0.
  set (id := VNum q).
  set (sel := related_paths_query id).
  set (del := Delete "products" (Eq "products_id" id)).
  pose proof (quiet_sent sel w Hq) as Hq1.
  assert (Hdb0 : db (sent sel w) = db w) by (by apply db_sent_read).
  pose proof (answer_quiet del (sent sel w) Hq1) as Hdel.
  pose proof (db_sent_quiet del (sent sel w) Hq1) as Hdb1.
  rewrite Hdb0 in Hdel, Hdb1.
  unfold del at 2 in Hdel. unfold del at 2 in Hdb1.
  cbn [exec] in Hdel, Hdb1. unfold exec_delete in Hdel, Hdb1.
  cbn [restricting_references String.eqb Ascii.eqb Bool.eqb List.find fst snd]
    in Hdel, Hdb1.
  set (w2 := sent del (sent sel w)) in *.
  set (paths := paths_of (exec sel (db w)).1).
  destruct (paths_of_nonempty (exec sel (db w)).1) as [Hp1 Hp2]. fold paths in Hp1, Hp2.
  destruct (revalidateCustomerApp_spec
              {| path := None;
                 paths := Some (array_from_set
                                  (push_if paths.2 (push_if paths.1 ["/"; "/products"])))
              |} w2)
    as (w' & Hrev & Hb & Hn & _).
  exists w'. split; [|split; [|split]].
  - unfold ProductsDelete.POST.
    erewrite bind_normal; [|by apply getSupabaseAdmin_configured].
    apply try_catch_normal.
    erewrite bind_normal; [|reflexivity].
    erewrite bind_normal; [|reflexivity].
    rewrite Hl. cbn [ProductsDelete.valid_id truthy].
    rewrite bool_decide_eq_false_2 by done. cbn [negb]. fold id.
    erewrite bind_normal;
      [|by rewrite getProductRelatedPaths_spec, answer_quiet by done].
    fold sel paths. unfold delete_eq. fold del.
    erewrite bind_normal; [|by rewrite await_send, Hdel].
    cbn [no_data error]. fold w2.
    erewrite bind_normal; [|exact Hrev]. reflexivity.
  - destruct Hb as (_ & _ & -> & _). rewrite Hdb1. apply rows_of_insert_eq.
  - destruct Hb as (_ & _ & _ & _ & _ & ->). unfold w2.
    rewrite !statements_sent, <- app_assoc. by rewrite drop_app_length.
  - rewrite Hn. unfold w2. rewrite !notified_sent. do 3 f_equal.
    rewrite !push_if_option by done. by rewrite <- app_assoc.
Qed.

(** X16 on the product "Red Hat". *)
Lemma product_delete_removes_the_row_witness :
  let w := Sample.world [] in
  let q := Qc_of_Z 1 in
  exists w',
    ProductsDelete.POST (Document Sample.delete_red_hat) w
    = (Normal (json (MessageBody "Product deleted successfully") 200), w') /\
    rows_of "products" (db w')
    = List.filter (fun r => negb (matches (Eq "products_id" (VNum q)) r))
        (rows_of "products" (db w)) /\
    map stmt (drop (length (statements w)) (statements w'))
    = [related_paths_query (VNum q); Delete "products" (Eq "products_id" (VNum q))] /\
    notified w' = notified w ++
      [{| path := None;
          paths := Some (array_from_set
            (["/"; "/products"]
             ++ option_list (stored_paths (db w) (VNum q)).1
             ++ option_list (stored_paths (db w) (VNum q)).2)) |}].
Proof.
  intros w q.
  apply (product_delete_removes_the_row w [("id", Sample.jnum 1)] q).
  - evaluated.
  - constructor.
  - reflexivity.
  - not_in_list.
Defined.

(** ** The slug probe of the category form *)

Lemma string_app_length (s1 s2 : string) :
  String.length (s1 +:+ s2) = String.length s1 + String.length s2.
Proof.
  induction s1 as [|a s1 IH]; [done|].
  change (String a s1 +:+ s2) with (String a (s1 +:+ s2)). cbn. by rewrite IH.
Qed.

Lemma candidate_inj baseSlug i j :
  candidate baseSlug i = candidate baseSlug j -> i = j.
Proof.
  destruct i as [|i], j as [|j]; cbn; intros H; [done| | |].
  - apply (f_equal String.length) in H. rewrite !string_app_length in H. cbn in H. lia.
  - apply (f_equal String.length) in H. rewrite !string_app_length in H. cbn in H. lia.
  - apply String.app_inj in H. injection H as H. by apply pretty_nat_inj in H.
Qed.

(** Among more candidates than there are categories, one is not the slug
    of exactly one category. *)
Lemma some_candidate_is_free baseSlug (db : Db) :
  exists i, i <= length (rows_of "categories" db) /\
            length (holders (candidate baseSlug i) db) <> 1.
Proof.
  set (rows := rows_of "categories" db).
  destruct (decide (Forall (fun i => length (holders (candidate baseSlug i) db) = 1)
                      (seq 0 (S (length rows))))) as [Hall|Hex].
  - exfalso.
    assert (Hsub : (fun i => VStr (candidate baseSlug i)) <$> seq 0 (S (length rows))
                   ⊆+ get "slug" <$> rows).
    { apply NoDup_submseteq.
      - apply NoDup_fmap_2_strong; [|apply NoDup_seq].
        intros i j _ _ [= H]. by apply candidate_inj in H.
      - intros v (i & -> & Hi)%list_elem_of_fmap.
        rewrite Forall_forall in Hall. specialize (Hall i Hi).
        unfold holders in Hall. fold rows in Hall.
        destruct (List.filter _ rows) as [|r l] eqn:Hf; [done|].
        assert (Hin : In r (List.filter (matches (Eq "slug" (VStr (candidate baseSlug i))))
                              rows)) by (rewrite Hf; by left).
        apply filter_In in Hin as [Hin Hm]. cbn in Hm. apply bool_decide_eq_true in Hm.
        apply list_elem_of_fmap. exists r. split; [done|by apply list_elem_of_In]. }
    apply submseteq_length in Hsub. rewrite !length_fmap, length_seq in Hsub. lia.
  - apply not_Forall_Exists in Hex; [|intros i; apply _].
    apply Exists_exists in Hex as (i & Hi & Hfree).
    exists i. split; [|done]. apply elem_of_seq in Hi. lia.
Qed.

Lemma probe_quiet slug w :
  quiet w ->
  await (select_eq_single "categories" ["slug"] "slug" (VStr slug)) w
  = (Normal (single (inr (map (project ["slug"]) (holders slug (db w))))),
     sent (probe slug) w).
Proof.
  intros Hq. unfold select_eq_single. fold (probe slug).
  rewrite await_send. unfold probe. by rewrite answer_select_quiet.
Qed.

(** The loop from the candidate [k] on, when one of its candidates is
    free: it returns the first free one, after one probe for each
    candidate up to it. *)
Lemma makeUniqueSlug_loop_quiet baseSlug turns : forall k w,
  quiet w ->
  (exists i, k <= i < k + turns /\ length (holders (candidate baseSlug i) (db w)) <> 1) ->
  exists i,
    CategoryCreatePage.makeUniqueSlug_loop turns baseSlug (candidate baseSlug k) (S k) w
    = (Normal (Some (candidate baseSlug i)),
       sends (map (fun m => probe (candidate baseSlug m)) (seq k (S (i - k)))) w) /\
    k <= i < k + turns /\
    length (holders (candidate baseSlug i) (db w)) <> 1 /\
    (forall m, k <= m < i -> length (holders (candidate baseSlug m) (db w)) = 1).
Proof.
  induction turns as [|turns IH]; intros k w Hq (i & Hi & Hfree); [lia|].
  cbn [CategoryCreatePage.makeUniqueSlug_loop].
  erewrite bind_normal; [|by apply probe_quiet].
  set (w1 := sent (probe (candidate baseSlug k)) w).
  assert (Hdb1 : db w1 = db w) by (by apply db_sent_read).
  destruct (data (single (inr (map (project ["slug"])
                                 (holders (candidate baseSlug k) (db w)))))) as [row|]
    eqn:Hd.
  - assert (Hk : length (holders (candidate baseSlug k) (db w)) = 1).
    { revert Hd. by destruct (holders (candidate baseSlug k) (db w)) as [|r [|r' l]]. }
    destruct (IH (S k) w1) as (i' & Hrun & Hle & Hfree' & Hbefore).
    { by apply quiet_sent. }
    { exists i. rewrite Hdb1. split; [|done].
      destruct (decide (i = k)) as [->|]; [done|lia]. }
    exists i'. rewrite Hdb1 in *.
    split; [|split; [lia|split; [done|]]].
    + change (baseSlug +:+ "-" +:+ pretty (S k)) with (candidate baseSlug (S k)).
      rewrite Hrun. f_equal.
      replace (S (i' - k)) with (S (S (i' - S k))) by lia. reflexivity.
    + intros m Hm. destruct (decide (m = k)) as [->|]; [done|]. apply Hbefore. lia.
  - assert (Hk : length (holders (candidate baseSlug k) (db w)) <> 1).
    { revert Hd. by destruct (holders (candidate baseSlug k) (db w)) as [|r [|r' l]]. }
    exists k. rewrite Nat.sub_diag. split; [reflexivity|]. split; [lia|].
    split; [done|]. intros m Hm. lia.
Qed.

Lemma length_le_1_of_NoDup_slugs slug (rows : list Obj) :
  NoDup (get "slug" <$> rows) ->
  length (List.filter (matches (Eq "slug" (VStr slug))) rows) <= 1.
Proof.
  induction rows as [|r rows IH]; [cbn; lia|].
  rewrite fmap_cons. intros [Hr Hnd]%NoDup_cons. cbn [List.filter].
  destruct (matches (Eq "slug" (VStr slug)) r) eqn:Hm; [|by apply IH].
  cbn in Hm. apply bool_decide_eq_true in Hm.
  assert (Hnone : List.filter (matches (Eq "slug" (VStr slug))) rows = []).
  { destruct (List.filter _ rows) as [|r' l] eqn:Hf; [done|]. exfalso. apply Hr.
    assert (Hin : In r' (List.filter (matches (Eq "slug" (VStr slug))) rows))
      by (rewrite Hf; by left).
    apply filter_In in Hin as [Hin Hm']. cbn in Hm'. apply bool_decide_eq_true in Hm'.
    apply list_elem_of_fmap. exists r'. split; [congruence|by apply list_elem_of_In]. }
  by rewrite Hnone.
Qed.

(** X17.  [makeUniqueSlug] ends: with more turns than there are stored
    categories, and a database that runs every probe, it returns the first
    of the candidates base, base-1, base-2, ... that is not the slug of
    exactly one category, after one probe for each candidate up to it, and
    it writes nothing.  When the stored slugs are pairwise distinct, no
    category has the slug returned. *)
Theorem makeUniqueSlug_returns_the_first_free_candidate
    (baseSlug : string) (turns : nat) (w : World) :
  quiet w ->
  length (rows_of "categories" (db w)) < turns ->
  exists k w',
    CategoryCreatePage.makeUniqueSlug turns baseSlug w
    = (Normal (Some (candidate baseSlug k)), w') /\
    k <= length (rows_of "categories" (db w)) /\
    length (holders (candidate baseSlug k) (db w)) <> 1 /\
    (forall m, m < k -> length (holders (candidate baseSlug m) (db w)) = 1) /\
    (NoDup (get "slug" <$> rows_of "categories" (db w)) ->
     holders (candidate baseSlug k) (db w) = []) /\
    db w' = db w /\
    map stmt (drop (length (statements w)) (statements w'))
    = map (fun m => probe (candidate baseSlug m)) (seq 0 (S k)).
Proof.
  intros Hq Hturns.
  destruct (some_candidate_is_free baseSlug (db w)) as (i & Hi & Hfree).
  destruct (makeUniqueSlug_loop_quiet baseSlug turns 0 w Hq)
    as (k & Hrun & Hk & Hfreek & Hbefore).
  { exists i. split; [lia|done]. }
  rewrite Nat.sub_0_r in Hrun.
  eexists k, _. split; [exact Hrun|].
  assert (Hkn : k <= length (rows_of "categories" (db w))).
  { destruct (decide (k <= i)) as [|Hgt]; [lia|].
    exfalso. apply Hfree. apply Hbefore. lia. }
  split; [done|]. split; [done|]. split; [intros m Hm; apply Hbefore; lia|].
  split; [|split].
  - intros Hnd. pose proof (length_le_1_of_NoDup_slugs (candidate baseSlug k) _ Hnd) as Hle.
    change (length (holders (candidate baseSlug k) (db w)) <= 1) in Hle.
    destruct (holders (candidate baseSlug k) (db w)) as [|r [|]]; cbn in *;
      [done|exfalso; by apply Hfreek|lia].
  - apply db_sends_reads. apply Forall_forall.
    by intros s (m & -> & _)%list_elem_of_fmap.
  - by rewrite statements_sends, drop_app_length, stmt_entries.
Qed.

(** X17 on the base slug "hats" in the sample shop, which holds the
    category "Hats". *)
Lemma makeUniqueSlug_returns_the_first_free_candidate_witness :
  let w := Sample.world [] in
  exists k w',
    CategoryCreatePage.makeUniqueSlug 5 "hats" w
    = (Normal (Some (candidate "hats" k)), w') /\
    k <= length (rows_of "categories" (db w)) /\
    length (holders (candidate "hats" k) (db w)) <> 1 /\
    (forall m, m < k -> length (holders (candidate "hats" m) (db w)) = 1) /\
    (NoDup (get "slug" <$> rows_of "categories" (db w)) ->
     holders (candidate "hats" k) (db w) = []) /\
    db w' = db w /\
    map stmt (drop (length (statements w)) (statements w'))
    = map (fun m => probe (candidate "hats" m)) (seq 0 (S k)).
Proof.
  intros w.
  apply (makeUniqueSlug_returns_the_first_free_candidate "hats" 5 w).
  - constructor.
  - vm_compute. lia.
Defined.

(** X18.  [makeUniqueSlug] looks at [data] only: when the database fails
    the first probe, the base slug is returned as it is, whether or not a
    category has it. *)
Theorem makeUniqueSlug_takes_a_failed_probe_for_free
    (baseSlug : string) (turns : nat) (w : World) (e : PgError) :
  hd NoFault (faults w) = Fails e ->
  exists w',
    CategoryCreatePage.makeUniqueSlug (S turns) baseSlug w
    = (Normal (Some baseSlug), w') /\
    db w' = db w /\
    map stmt (drop (length (statements w)) (statements w')) = [probe baseSlug].
Proof.
  intros Hf. exists (sent (probe baseSlug) w).
  split; [|split].
  - unfold CategoryCreatePage.makeUniqueSlug.
    cbn [CategoryCreatePage.makeUniqueSlug_loop].
    unfold select_eq_single. fold (probe baseSlug).
    erewrite bind_normal; [|by rewrite await_send, (answer_failed _ _ _ Hf)].
    reflexivity.
  - by eapply db_sent_failed.
  - by rewrite statements_sent, drop_app_length.
Qed.

(** X18 on the base slug "hats", which a category of the sample shop
    has. *)
Lemma makeUniqueSlug_takes_a_failed_probe_for_free_witness :
  let w := Sample.world [Fails Sample.timeout] in
  holders "hats" (db w) = [Sample.hats] /\
  exists w',
    CategoryCreatePage.makeUniqueSlug 5 "hats" w = (Normal (Some "hats"), w') /\
    db w' = db w /\
    map stmt (drop (length (statements w)) (statements w')) = [probe "hats"].
Proof.
  intros w. split; [evaluated|].
  apply (makeUniqueSlug_takes_a_failed_probe_for_free "hats" 4 w Sample.timeout).
  reflexivity.
Defined.

(** ** Slugs *)

Lemma replace_runs_all P r l :
  Forall (fun c => P c = true) l ->
  forall f, replace_runs P r f l = if f then [] else match l with [] => [] | _ => r end.
Proof.
  induction 1 as [|c l Hc _ IH]; intros f; cbn; [by destruct f|].
  rewrite Hc, IH. destruct f; [done|]. by rewrite app_nil_r.
Qed.

Lemma replace_runs_keeps P r l c :
  In c l -> P c = false -> forall f, In c (replace_runs P r f l).
Proof.
  intros Hin Hc. induction l as [|d l IH]; intros f; [done|]. cbn.
  destruct Hin as [->|Hin].
  - rewrite Hc. by left.
  - destruct (P d); [apply in_or_app; right|right]; by apply IH.
Qed.

Lemma drop_first_if_keeps P l c : In c l -> P c = false -> In c (drop_first_if P l).
Proof.
  destruct l as [|d l]; [done|]. cbn. intros [->|Hin] Hc.
  - rewrite Hc. by left.
  - destruct (P d); [done|by right].
Qed.

Lemma drop_last_if_keeps P l c : In c l -> P c = false -> In c (drop_last_if P l).
Proof.
  intros Hin Hc. induction l as [|d l IH]; [done|].
  destruct l as [|d' l].
  - destruct Hin as [->|[]]. cbn. rewrite Hc. by left.
  - change (drop_last_if P (d :: d' :: l)) with (d :: drop_last_if P (d' :: l)).
    destruct Hin as [->|Hin]; [by left|right; by apply IH].
Qed.

Lemma drop_leading_keeps P l c : In c l -> P c = false -> In c (drop_leading P l).
Proof.
  intros Hin Hc. induction l as [|d l IH]; [done|]. cbn.
  destruct (P d) eqn:Hd; [|done].
  destruct Hin as [->|Hin]; [congruence|by apply IH].
Qed.

Lemma drop_trailing_keeps P l c : In c l -> P c = false -> In c (drop_trailing P l).
Proof.
  intros Hin Hc. induction l as [|d l IH]; [done|]. cbn.
  destruct Hin as [->|Hin].
  - destruct (drop_trailing P l); [rewrite Hc|]; by left.
  - specialize (IH Hin). destruct (drop_trailing P l); [done|by right].
Qed.

Lemma str_nil l : str l = "" <-> l = [].
Proof.
  split; [|by intros ->].
  intros H. apply (f_equal chars) in H. by rewrite chars_str in H.
Qed.

Lemma chars_toLowerCase name : chars (toLowerCase name) = map lower_char (chars name).
Proof. unfold toLowerCase. apply chars_str. Qed.

Lemma category_slug_empty name :
  CategoryForm.generateSlug name = ""
  <-> Forall (fun c => is_az09 (lower_char c) = false) (chars name).
Proof.
  unfold CategoryForm.generateSlug. rewrite str_nil, chars_toLowerCase. split.
  - intros H. apply Forall_forall. intros c Hc%list_elem_of_In.
    destruct (is_az09 (lower_char c)) eqn:Haz; [|done]. exfalso.
    assert (Hin : In (lower_char c)
                    (drop_last_if is_hyphen
                       (drop_first_if is_hyphen
                          (replace_runs (fun c => negb (is_az09 c)) ["-"%char] false
                             (map lower_char (chars name)))))).
    { apply drop_last_if_keeps; [|by apply az09_not_hyphen].
      apply drop_first_if_keeps; [|by apply az09_not_hyphen].
      apply replace_runs_keeps; [by apply in_map|cbn; by rewrite Haz]. }
    by rewrite H in Hin.
  - intros H. rewrite replace_runs_all.
    + by destruct (map lower_char (chars name)).
    + apply Forall_fmap. eapply Forall_impl; [exact H|].
      intros c Hc. cbn. by rewrite Hc.
Qed.

Lemma product_slug_empty name :
  ProductEditForm.generateSlug name = ""
  <-> Forall (fun c => is_az09 (lower_char c) = false) (chars name).
Proof.
  unfold ProductEditForm.generateSlug, trim. cbn zeta.
  rewrite str_nil, chars_str, chars_toLowerCase. split.
  - intros H. apply Forall_forall. intros c Hc%list_elem_of_In.
    destruct (is_az09 (lower_char c)) eqn:Haz; [|done]. exfalso.
    pose proof (az09_not_separator _ Haz) as Hsep.
    pose proof (az09_not_hyphen _ Haz) as Hhy.
    assert (Hsp : is_space (lower_char c) = false).
    { apply az09_not_space. by rewrite Haz. }
    match type of H with ?l = [] => assert (Hin : In (lower_char c) l) end.
    { apply drop_trailing_keeps; [|done]. apply drop_leading_keeps; [|done].
      apply replace_runs_keeps; [|done].
      unfold remove_all. apply filter_In. split.
      - apply drop_trailing_keeps; [|done]. apply drop_leading_keeps; [|done].
        by apply in_map.
      - unfold is_word. unfold is_az09 in Haz.
        destruct (is_upper (lower_char c)), (is_lower (lower_char c)),
          (is_digit (lower_char c)); done. }
    by rewrite H in Hin.
  - intros H.
    set (kept := remove_all _ _).
    assert (Hall : Forall (fun c => is_space c || is_underscore c || is_hyphen c = true) kept).
    { apply Forall_forall. intros c Hc%list_elem_of_In.
      unfold kept, remove_all in Hc. apply filter_In in Hc as [Hin Hk].
      apply negb_true_iff, negb_false_iff in Hk.
      apply drop_trailing_In, drop_leading_In, in_map_iff in Hin as (d & <- & Hd).
      rewrite Forall_forall in H. specialize (H d (proj2 (list_elem_of_In _ _) Hd)).
      destruct (is_underscore (lower_char d)) eqn:Hu; [by rewrite orb_true_r|].
      destruct (is_word (lower_char d)) eqn:Hw.
      - by rewrite (word_of_lower d Hw Hu) in H.
      - cbn in Hk. destruct (is_space (lower_char d)), (is_hyphen (lower_char d)); done. }
    rewrite replace_runs_all by done.
    by destruct kept.
Qed.

(** X19.  Both [generateSlug] functions return the empty string exactly for
    the names in which no character is a letter a-z or a digit after
    lower-casing. *)
Theorem slug_is_empty_without_letters_and_digits (name : string) :
  (CategoryForm.generateSlug name = ""
   <-> Forall (fun c => is_az09 (lower_char c) = false) (chars name)) /\
  (ProductEditForm.generateSlug name = ""
   <-> Forall (fun c => is_az09 (lower_char c) = false) (chars name)).
Proof. split; [apply category_slug_empty|apply product_slug_empty]. Qed.

(** X20.  The strings that [generateSlug] returns unchanged are exactly the
    well-formed slugs, for both forms: so a slug made by one form passes
    through the other unchanged. *)
Theorem generateSlug_leaves_exactly_the_slugs (s : string) :
  (CategoryForm.generateSlug s = s <-> is_slug s = true) /\
  (ProductEditForm.generateSlug s = s <-> is_slug s = true).
Proof.
  split; split.
  - intros <-. apply category_slug_is_slug.
  - apply category_slug_fixed.
  - intros <-. apply product_slug_is_slug.
  - apply product_slug_fixed.
Qed.

(** ** Keywords *)

Lemma split_chars_no_sep sep l : forall cur,
  ~ In sep cur ->
  Forall (fun p => ~ In sep (chars p)) (split_chars sep cur l).
Proof.
  induction l as [|c l IH]; intros cur Hcur; cbn.
  - constructor; [|done]. rewrite chars_str. intros Hin. apply Hcur. by apply in_rev.
  - destruct (Ascii.eqb_spec c sep) as [->|Hne].
    + constructor; [|apply IH; by intros []]. rewrite chars_str.
      intros Hin. apply Hcur. by apply in_rev.
    + apply IH. intros [Heq|Hin]; [by subst|done].
Qed.

Lemma drop_leading_head P l :
  match drop_leading P l with [] => True | c :: _ => P c = false end.
Proof.
  induction l as [|c l IH]; [done|]. cbn. by destruct (P c) eqn:Hc.
Qed.

Lemma drop_trailing_head P l :
  match l with [] => True | d :: _ => P d = false end ->
  match drop_trailing P l with [] => True | d :: _ => P d = false end.
Proof.
  destruct l as [|d l]; [done|]. cbn. intros Hd.
  destruct (drop_trailing P l); [by rewrite Hd|done].
Qed.

Lemma drop_leading_fixed P l :
  match l with [] => True | c :: _ => P c = false end -> drop_leading P l = l.
Proof. destruct l as [|c l]; [done|]. cbn. by intros ->. Qed.

Lemma drop_trailing_idem P l : drop_trailing P (drop_trailing P l) = drop_trailing P l.
Proof.
  induction l as [|c l IH]; [done|]. cbn.
  destruct (drop_trailing P l) as [|d r] eqn:Hr.
  - destruct (P c) eqn:Hc; cbn; [done|by rewrite Hc].
  - change (drop_trailing P (c :: d :: r))
      with (match drop_trailing P (d :: r) with
            | [] => if P c then [] else [c]
            | r' => c :: r'
            end).
    by rewrite IH.
Qed.

Lemma trim_idem s : trim (trim s) = trim s.
Proof.
  unfold trim. rewrite chars_str. f_equal.
  rewrite (drop_leading_fixed is_space).
  - apply drop_trailing_idem.
  - apply drop_trailing_head, drop_leading_head.
Qed.

Lemma trim_chars_In s c : In c (chars (trim s)) -> In c (chars s).
Proof.
  unfold trim. rewrite chars_str. by intros Hin%drop_trailing_In%drop_leading_In.
Qed.

(** The pieces between commas, trimmed, without the empty ones. *)
Lemma trimmed_parts s :
  Forall (fun p => p <> "" /\ trim p = p /\ ~ In ","%char (chars p))
    (List.filter (fun p => negb (String.eqb p "")) (map trim (split "," s))).
Proof.
  apply Forall_forall. intros p Hp%list_elem_of_In.
  apply filter_In in Hp as [Hin Hne]. apply negb_true_iff, String.eqb_neq in Hne.
  apply in_map_iff in Hin as (q & <- & Hq).
  split; [done|]. split; [apply trim_idem|].
  intros Hc%trim_chars_In.
  pose proof (split_chars_no_sep "," (chars s) [] (fun H => H)) as Hall.
  rewrite Forall_forall in Hall.
  by apply (Hall q (proj2 (list_elem_of_In _ _) Hq)).
Qed.

(** X21.  The keywords that the routes store: a missing or empty
    [seo_keywords] gives the fallback ([null] on create, nothing on
    update); otherwise the text is cut at the commas, and each keyword that
    is stored is trimmed, not empty and without a comma. *)
Theorem stored_keywords_are_trimmed_and_not_empty (seo_keywords otherwise : Val) :
  (truthy seo_keywords = false -> keywords seo_keywords otherwise = otherwise) /\
  (forall s,
     seo_keywords = VStr s -> s <> "" ->
     exists kws,
       keywords seo_keywords otherwise = VStrs kws /\
       Forall (fun kw => kw <> "" /\ trim kw = kw /\ ~ In ","%char (chars kw)) kws).
Proof.
  split.
  - unfold keywords. by intros ->.
  - intros s -> Hs. unfold keywords. cbn [truthy string_of].
    apply String.eqb_neq in Hs. rewrite Hs. cbn [negb].
    eexists. split; [reflexivity|]. apply trimmed_parts.
Qed.

(** X21 on a text with a blank keyword. *)
Lemma stored_keywords_are_trimmed_and_not_empty_witness :
  exists kws,
    keywords (VStr " warm, ,wool ") VNull = VStrs kws /\
    Forall (fun kw => kw <> "" /\ trim kw = kw /\ ~ In ","%char (chars kw)) kws.
Proof.
  apply (proj2 (stored_keywords_are_trimmed_and_not_empty (VStr " warm, ,wool ") VNull)
           " warm, ,wool ").
  - reflexivity.
  - discriminate.
Defined.

(** ** The paths of a product *)

Lemma paths_of_prefixed r :
  (forall p, (paths_of r).1 = Some p -> exists s, s <> "" /\ p = "/category/" +:+ s) /\
  (forall p, (paths_of r).2 = Some p -> exists s, s <> "" /\ p = "/brand/" +:+ s).
Proof.
  unfold paths_of. destruct r as [e|[|row [|]]]; cbn; try (split; intros; done).
  split; intros p.
  - destruct (get "categories.slug" row) as [| | | |s|]; try done.
    destruct (String.eqb_spec s ""); [done|]. intros [= <-]. by exists s.
  - destruct (get "brands.slug" row) as [| | | |s|]; try done.
    destruct (String.eqb_spec s ""); [done|]. intros [= <-]. by exists s.
Qed.

(** X22.  [getProductRelatedPaths] returns normally unless the promise of
    its select is rejected, and reads only.  A path that it returns is
    "/category/" or "/brand/" followed by a slug that is not empty; both
    paths are [null] when the select fails and when the key is not that of
    exactly one product. *)
Theorem related_paths_are_null_or_prefixed (productId : Val) (w : World) :
  configured w ->
  (forall reason, hd NoFault (faults w) <> Rejects reason) ->
  exists categoryPath brandPath w',
    getProductRelatedPaths productId w = (Normal (categoryPath, brandPath), w') /\
    db w' = db w /\
    (forall p, categoryPath = Some p -> exists s, s <> "" /\ p = "/category/" +:+ s) /\
    (forall p, brandPath = Some p -> exists s, s <> "" /\ p = "/brand/" +:+ s) /\
    ((forall e, hd NoFault (faults w) <> Fails e) ->
     length (List.filter (matches (Eq "products_id" productId))
               (rows_of "products" (db w))) <> 1 ->
     categoryPath = None /\ brandPath = None) /\
    (forall e, hd NoFault (faults w) = Fails e -> categoryPath = None /\ brandPath = None).
Proof.
  intros Hc Hrej.
  set (q := related_paths_query productId).
  assert (Hans : exists r, answer q w = Fulfilled r /\
            ((forall e, hd NoFault (faults w) <> Fails e) -> r = (exec q (db w)).1) /\
            (forall e, hd NoFault (faults w) = Fails e -> r = inl e)).
  { unfold answer, send. destruct (hd NoFault (faults w)) as [|e|reason] eqn:Hf.
    - destruct (exec q (db w)) as [r db']. exists r. by repeat split.
    - exists (inl e). split; [done|]. split; [intros H; by destruct (H e)|].
      by intros e' [= ->].
    - by destruct (Hrej reason). }
  destruct Hans as (r & Hans & Hrun & Hfail).
  exists (paths_of r).1, (paths_of r).2, (sent q w).
  destruct (paths_of_prefixed r) as [Hp1 Hp2].
  split; [|split; [by apply db_sent_read|split; [done|split; [done|split]]]].
  - rewrite getProductRelatedPaths_spec by done. fold q. rewrite Hans.
    by destruct (paths_of r).
  - intros Hnf Hlen. rewrite (Hrun Hnf). unfold q, related_paths_query. cbn [exec fst].
    destruct (List.filter _ _) as [|row [|]]; cbn in *; done.
  - intros e He. by rewrite (Hfail e He).
Qed.

(** X22 on the product "Blue Hat". *)
Lemma related_paths_are_null_or_prefixed_witness :
  let w := Sample.world [] in
  let productId := num 2 in
  exists categoryPath brandPath w',
    getProductRelatedPaths productId w = (Normal (categoryPath, brandPath), w') /\
    db w' = db w /\
    (forall p, categoryPath = Some p -> exists s, s <> "" /\ p = "/category/" +:+ s) /\
    (forall p, brandPath = Some p -> exists s, s <> "" /\ p = "/brand/" +:+ s) /\
    ((forall e, hd NoFault (faults w) <> Fails e) ->
     length (List.filter (matches (Eq "products_id" productId))
               (rows_of "products" (db w))) <> 1 ->
     categoryPath = None /\ brandPath = None) /\
    (forall e, hd NoFault (faults w) = Fails e -> categoryPath = None /\ brandPath = None).
Proof.
  intros w productId.
  apply (related_paths_are_null_or_prefixed productId w).
  - evaluated.
  - intros reason. discriminate.
Defined.
